(** * MyCobot Workspace Explorer: a shallow embedding of [gui_node.py] and
    [point_generator.py], with the properties of the workspace tool proved
    over it.

    Python values are modelled as the code has them: numbers are Python ints
    (unbounded, [Z]) or Python floats (IEEE binary64, Rocq's primitive
    [float]); a pose is a Python list of numbers; an exception is an explicit
    outcome of a computation, and a mutation made before an exception is
    raised stays in the state. *)

From Stdlib Require Import ZArith List Lia Bool String.
From Corelib Require Import PrimFloat FloatOps SpecFloat FloatAxioms.
From stdpp Require Import base option list strings gmap.

Set Warnings "-inexact-float".
Local Open Scope Z_scope.

(* ===================================================================== *)
(** ** Exceptions and the state-and-exception monad *)
(* ===================================================================== *)

(** The exceptions the program can meet.  All of them are subclasses of
    Python's [Exception], so an [except Exception] clause catches each. *)
Inductive exn : Type :=
| AttributeError   (* attribute access on [None] *)
| IndexError       (* list index out of range *)
| OverflowError    (* int too large to convert to float *)
| ValueError       (* range() arg 3 must not be zero *)
| HardwareError (code : nat)   (* raised by the vendor interface *)
| OSError (code : nat).        (* raised by open() or by a write *)

Inductive outcome (A : Type) : Type :=
| Returns (a : A)
| Raises (e : exn).
Arguments Returns {A} a.
Arguments Raises {A} e.

Definition obind {A B} (o : outcome A) (k : A -> outcome B) : outcome B :=
  match o with
  | Returns a => k a
  | Raises e => Raises e
  end.

(** A statement of the program running on a mutable object of type [S]:
    the state reached is returned also when an exception is raised. *)
Definition Prog (S A : Type) : Type := S -> outcome A * S.

Definition ret {S A} (a : A) : Prog S A := fun s => (Returns a, s).
Definition raise {S A} (e : exn) : Prog S A := fun s => (Raises e, s).
Definition bind {S A B} (m : Prog S A) (k : A -> Prog S B) : Prog S B :=
  fun s => match m s with
           | (Returns a, s') => k a s'
           | (Raises e, s') => (Raises e, s')
           end.
Definition lift {S A} (o : outcome A) : Prog S A := fun s => (o, s).
Definition get {S} : Prog S S := fun s => (Returns s, s).
Definition modify {S} (f : S -> S) : Prog S unit := fun s => (Returns tt, f s).

(** [try: body except Exception as e: handler e] *)
Definition try_except {S A} (body : Prog S A) (handler : exn -> Prog S A)
  : Prog S A :=
  fun s => match body s with
           | (Returns a, s') => (Returns a, s')
           | (Raises e, s') => handler e s'
           end.

Declare Scope prog_scope.
Delimit Scope prog_scope with prog.
Notation "'let*' x := m 'in' k" := (bind m (fun x => k))
  (at level 10, x name, m at level 100, k at level 200) : prog_scope.
Notation "m ;; k" := (bind m (fun _ => k))
  (at level 100, k at level 200, right associativity) : prog_scope.
Notation "'let?' x := o 'in' k" := (obind o (fun x => k))
  (at level 10, x name, o at level 100, k at level 200) : prog_scope.
Local Open Scope prog_scope.

(** [for x in xs: body x] *)
Fixpoint for_each {S A} (xs : list A) (body : A -> Prog S unit) : Prog S unit :=
  match xs with
  | [] => ret tt
  | x :: rest => body x ;; for_each rest body
  end.

(** The same loop over a pure accumulator that may raise. *)
Fixpoint ofold {A B} (xs : list A) (body : A -> B -> outcome B) (acc : B)
  : outcome B :=
  match xs with
  | [] => Returns acc
  | x :: rest => let? acc' := body x acc in ofold rest body acc'
  end.

(** *** Reasoning about statements *)

(** [m] relates the state it starts in to the state it leaves, whether it
    returns or raises. *)
Definition within {S A} (R : S -> S -> Prop) (m : Prog S A) : Prop :=
  forall s, R s (snd (m s)).

(** [m] never raises. *)
Definition total {S A} (m : Prog S A) : Prop :=
  forall s, exists a, fst (m s) = Returns a.

(** Weakest precondition: [Q] holds if [m] returns, [E] if it raises. *)
Definition wp {S A} (m : Prog S A) (Q : A -> S -> Prop) (E : exn -> S -> Prop)
  (s : S) : Prop :=
  match m s with
  | (Returns a, s') => Q a s'
  | (Raises e, s') => E e s'
  end.

(* ===================================================================== *)
(** ** Python numbers *)
(* ===================================================================== *)

Module Py.

Inductive num : Type :=
| Int (z : Z)
| Float (f : float).

(** [float(z)] for a Python int: the nearest binary64 value, ties to even;
    [OverflowError] when that rounding overflows. *)
Definition float_of_int (z : Z) : outcome float :=
  let f := SF2Prim (binary_normalize prec emax z 0 false) in
  if is_infinity f then Raises OverflowError else Returns f.

Definition to_float (a : num) : outcome float :=
  match a with
  | Int z => float_of_int z
  | Float f => Returns f
  end.

(** Binary arithmetic: int with int stays int; otherwise both operands are
    converted to float. *)
Definition arith (zop : Z -> Z -> Z) (fop : float -> float -> float)
  (a b : num) : outcome num :=
  match a, b with
  | Int x, Int y => Returns (Int (zop x y))
  | _, _ => let? x := to_float a in let? y := to_float b in Returns (Float (fop x y))
  end.

Definition sub : num -> num -> outcome num := arith Z.sub PrimFloat.sub.
Definition add : num -> num -> outcome num := arith Z.add PrimFloat.add.
Definition mul : num -> num -> outcome num := arith Z.mul PrimFloat.mul.

(** [abs(a)] *)
Definition abs (a : num) : num :=
  match a with
  | Int z => Int (Z.abs z)
  | Float f => Float (PrimFloat.abs f)
  end.

(** Python compares a float with an int exactly, with no conversion of the
    int: [None] when the float is a NaN (every ordered comparison is then
    false). *)
Definition float_cmp_int (f : float) (z : Z) : option comparison :=
  match Prim2SF f with
  | S754_nan => None
  | S754_infinity s => Some (if s then Lt else Gt)
  | S754_zero _ => Some (0 ?= z)
  | S754_finite s m e =>
      let v := if s then Z.neg m else Z.pos m in
      Some (match e with
            | Z.neg p => v ?= z * 2 ^ Z.pos p
            | _ => v * 2 ^ e ?= z
            end)
  end.

(** [a < b] *)
Definition ltb (a b : num) : bool :=
  match a, b with
  | Int x, Int y => x <? y
  | Float x, Float y => PrimFloat.ltb x y
  | Float x, Int y =>
      match float_cmp_int x y with Some Lt => true | _ => false end
  | Int x, Float y =>
      match float_cmp_int y x with Some Gt => true | _ => false end
  end.

(** [a <= b] *)
Definition leb (a b : num) : bool :=
  match a, b with
  | Int x, Int y => x <=? y
  | Float x, Float y => PrimFloat.leb x y
  | Float x, Int y =>
      match float_cmp_int x y with Some Lt | Some Eq => true | _ => false end
  | Int x, Float y =>
      match float_cmp_int y x with Some Gt | Some Eq => true | _ => false end
  end.

(** [a == b] *)
Definition eqb (a b : num) : bool :=
  match a, b with
  | Int x, Int y => x =? y
  | Float x, Float y => PrimFloat.eqb x y
  | Float x, Int y | Int y, Float x =>
      match float_cmp_int x y with Some Eq => true | _ => false end
  end.

(** [l[i]] for a list and an index that is not negative. *)
Definition getitem {A} (l : list A) (i : nat) : outcome A :=
  match l !! i with
  | Some a => Returns a
  | None => Raises IndexError
  end.

(** [l[i] = v] *)
Definition setitem {A} (l : list A) (i : nat) (v : A) : outcome (list A) :=
  if (i <? length l)%nat then Returns (<[i := v]> l) else Raises IndexError.

(** The length of [range(start, stop, step)], as CPython computes it. *)
Definition range_len (start stop step : Z) : Z :=
  if 0 <? step then
    if start <? stop then (stop - start - 1) / step + 1 else 0
  else
    if stop <? start then (start - stop - 1) / (- step) + 1 else 0.

(** [range(start, stop, step)], as the list of the values it yields. *)
Definition range (start stop step : Z) : outcome (list Z) :=
  if step =? 0 then Raises ValueError
  else Returns (map (fun k => start + step * Z.of_nat k)
                    (seq 0 (Z.to_nat (range_len start stop step)))).

(** The values [range(start, stop, step)] yields when [step] is not zero. *)
Definition range_values (start stop step : Z) : list Z :=
  map (fun k => start + step * Z.of_nat k)
      (seq 0 (Z.to_nat (range_len start stop step))).

End Py.

(** A pose, a target or a reading of the arm: a Python list of numbers,
    six of them when well formed. *)
Abbreviation Pose := (list Py.num).

(* ===================================================================== *)
(** ** gui_node.py: the rectangular grid generator *)
(* ===================================================================== *)

(** [generate_grid_points(x_range, y_range, z_values, step)]: the list it
    returns.  The line it prints, with the number of points, is written to
    the console by the caller's model ([WorkspaceGUI.init]). *)
Definition generate_grid_points (x_range y_range : Z * Z) (z_values : list Py.num)
  (step : Z) : outcome (list Pose) :=
  ofold z_values (fun z points =>
    let? xs := Py.range (fst x_range) (snd x_range + 1) step in
    ofold xs (fun x points =>
      let? ys := Py.range (fst y_range) (snd y_range + 1) step in
      ofold ys (fun y points =>
        let coords := [Py.Int x; Py.Int y; z;
                       Py.Float 180.0; Py.Float 0.0; Py.Float 0.0] in
        Returns (points ++ [coords])) points) points) [].

(** The default arguments of [generate_grid_points]. *)
Definition default_x_range : Z * Z := (-300, 300).
Definition default_y_range : Z * Z := (-300, 300).
Definition default_z_values : list Py.num :=
  [Py.Int 40; Py.Int 50; Py.Int 100; Py.Int 200].
Definition default_step : Z := 50.

Definition default_grid : outcome (list Pose) :=
  generate_grid_points default_x_range default_y_range default_z_values
    default_step.

(** The grid as the specification words it: the Cartesian product of the
    heights (outermost, in the given order), the X values and the Y values
    (innermost), each axis running over the 13 values -300, -250, ..., 300. *)
Definition spec_axis : list Z :=
  [-300; -250; -200; -150; -100; -50; 0; 50; 100; 150; 200; 250; 300].

Definition spec_grid : list Pose :=
  z ← default_z_values;
  x ← spec_axis;
  y ← spec_axis;
  [[Py.Int x; Py.Int y; z; Py.Float 180.0; Py.Float 0.0; Py.Float 0.0]].

(** The Cartesian product the three nested loops run over: the heights
    outermost, then the X values, the Y values innermost. *)
Definition grid_product (x_range y_range : Z * Z) (z_values : list Py.num)
  (step : Z) : list Pose :=
  z ← z_values;
  x ← Py.range_values (fst x_range) (snd x_range + 1) step;
  y ← Py.range_values (fst y_range) (snd y_range + 1) step;
  [[Py.Int x; Py.Int y; z; Py.Float 180.0; Py.Float 0.0; Py.Float 0.0]].

(** The orientation of a pose: its components from the fourth on. *)
Definition orientation (p : Pose) : Pose := drop 3 p.

Definition is_fixed_orientation (p : Pose) : bool :=
  match orientation p with
  | [Py.Float a; Py.Float b; Py.Float c] =>
      PrimFloat.Leibniz.eqb a 180.0 && PrimFloat.Leibniz.eqb b 0.0
      && PrimFloat.Leibniz.eqb c 0.0
  | _ => false
  end.

(* ===================================================================== *)
(** ** gui_node.py: class MplCanvas *)
(* ===================================================================== *)

(** An RGBA colour: a Python 4-tuple of numbers. *)
Definition Color : Type := Py.num * Py.num * Py.num * Py.num.

(** [c == d] on two 4-tuples: component by component, with Python's [==]
    on numbers. *)
Definition color_eqb (c d : Color) : bool :=
  let '(c0, c1, c2, c3) := c in
  let '(d0, d1, d2, d3) := d in
  Py.eqb c0 d0 && Py.eqb c1 d1 && Py.eqb c2 d2 && Py.eqb c3 d3.

(** [c in l] *)
Definition color_in (c : Color) (l : list Color) : bool :=
  existsb (color_eqb c) l.

Definition BLUE : Color := (Py.Int 0, Py.Int 0, Py.Int 1, Py.Float 0.4).
Definition WHITE : Color := (Py.Int 1, Py.Int 1, Py.Int 1, Py.Float 0.7).
Definition RED : Color := (Py.Int 1, Py.Int 0, Py.Int 0, Py.Float 1.0).
Definition YELLOW : Color := (Py.Int 1, Py.Int 1, Py.Int 0, Py.Float 0.9).
Definition GRAY : Color :=
  (Py.Float 0.5, Py.Float 0.5, Py.Float 0.5, Py.Float 0.8).
Definition GREEN : Color := (Py.Int 0, Py.Int 1, Py.Int 0, Py.Int 1).

Module MplCanvas.

(** What [ax.scatter(xs, ys, zs, c=colors, s=40, depthshade=True)] draws:
    the three coordinate columns and a copy of the colours. *)
Record Scatter : Type := mkScatter {
  xs : list Py.num;
  ys : list Py.num;
  zs : list Py.num;
  c : list Color
}.

(** The fields of the canvas the program reads and writes.  [points] is the
    list object shared with the window; [draws] counts the calls of
    [self.draw()]. *)
Record t : Type := mk {
  points : list Pose;
  colors : list Color;
  scatter : option Scatter;
  draws : nat
}.

Definition set_colors (v : list Color) (cv : t) : t :=
  mk (points cv) v (scatter cv) (draws cv).
Definition set_scatter (v : option Scatter) (cv : t) : t :=
  mk (points cv) (colors cv) v (draws cv).
Definition set_draws (v : nat) (cv : t) : t :=
  mk (points cv) (colors cv) (scatter cv) v.

(** [[p[k] for p in points]] *)
Fixpoint column (k : nat) (pts : list Pose) : outcome (list Py.num) :=
  match pts with
  | [] => Returns []
  | p :: rest =>
      let? v := Py.getitem p k in
      let? vs := column k rest in
      Returns (v :: vs)
  end.

(** [self.ax.scatter([p[0] ...], [p[1] ...], [p[2] ...], c=self.colors, ...)] *)
Definition ax_scatter (pts : list Pose) (cols : list Color) : outcome Scatter :=
  let? x := column 0 pts in
  let? y := column 1 pts in
  let? z := column 2 pts in
  Returns (mkScatter x y z cols).

(** [MplCanvas.__init__(self, points)] *)
Definition init (pts : list Pose) : outcome t :=
  let colors0 := replicate (length pts) BLUE in
  let? sc := ax_scatter pts colors0 in
  Returns (mk pts colors0 (Some sc) 0).

(** [self.scatter.remove(); self.scatter = self.ax.scatter(...); self.draw()] *)
Definition redraw : Prog t unit :=
  modify (set_scatter None) ;;
  let* cv := get in
  let* sc := lift (ax_scatter (points cv) (colors cv)) in
  modify (set_scatter (Some sc)) ;;
  modify (fun cv => set_draws (S (draws cv)) cv).

(** [self.colors[i] = color] *)
Definition colors_setitem (i : nat) (color : Color) : Prog t unit :=
  let* cv := get in
  let* l := lift (Py.setitem (colors cv) i color) in
  modify (set_colors l).

(** [0 <= index < len(self.points)] *)
Definition in_range (index : Z) (cv : t) : bool :=
  (0 <=? index) && (index <? Z.of_nat (length (points cv))).

(** [update_point_color(self, index, color)] *)
Definition update_point_color (index : Z) (color : Color) : Prog t unit :=
  let* cv := get in
  if negb (in_range index cv) then ret tt
  else
    colors_setitem (Z.to_nat index) color ;;
    redraw.

(** The body of the loop of [highlight_point]: a marker that is white or red
    is kept, any other one goes back to blue. *)
Definition reset_marker (i : nat) : Prog t unit :=
  let* cv := get in
  let* ci := lift (Py.getitem (colors cv) i) in
  if color_in ci [WHITE; RED] then ret tt
  else colors_setitem i BLUE.

(** [highlight_point(self, index)] *)
Definition highlight_point (index : Z) : Prog t unit :=
  let* cv := get in
  for_each (seq 0 (length (points cv))) reset_marker ;;
  let* cv := get in
  (if in_range index cv then colors_setitem (Z.to_nat index) YELLOW
   else ret tt) ;;
  redraw.

(** A call of one of the two recolouring methods. *)
Inductive call : Type :=
| UpdatePointColor (index : Z) (color : Color)
| HighlightPoint (index : Z).

Definition run_call (k : call) : Prog t unit :=
  match k with
  | UpdatePointColor index color => update_point_color index color
  | HighlightPoint index => highlight_point index
  end.

(** A sequence of calls, one after the other. *)
Definition run_calls (ks : list call) : Prog t unit := for_each ks run_call.

(** A pose the scatter plot can draw: it has the three positional
    components. *)
Definition drawable (p : Pose) : Prop := (3 <= length p)%nat.

(** The canvas is well formed: one colour per pose, and every pose can be
    drawn. *)
Definition wf (cv : t) : Prop :=
  length (colors cv) = length (points cv) /\ Forall drawable (points cv).

(** What the loop of [highlight_point] makes of one marker. *)
Definition reset_color (c : Color) : Color :=
  if color_in c [WHITE; RED] then c else BLUE.

End MplCanvas.

(* ===================================================================== *)
(** ** point_generator.py: the polar grid generator *)
(* ===================================================================== *)

Module PointGenerator.

(** The functions of the C mathematical library the generator calls, which
    IEEE 754 does not pin down: [math.cos], [math.sin] and the [pow] behind
    [x**2] on floats.  [math.sqrt] is the correctly rounded square root. *)
Record Libm : Type := mkLibm {
  cos : float -> float;
  sin : float -> float;
  pow : float -> float -> float
}.

(** The nearest binary64 value to an int that is in range (here 2, 12 and
    the angle index). *)
Definition fl (z : Z) : float := SF2Prim (binary_normalize prec emax z 0 false).

(** The nearest binary64 value, ties to even, to the rational [± n / d]
    with [0 <= n] and [0 < d]. *)
Definition nearest_ratio (neg : bool) (n d : Z) : float :=
  let k := 64 + Z.log2_up d in
  let q := (n * 2 ^ k) / d in
  let r := (n * 2 ^ k) mod d in
  let loc := if r =? 0 then loc_Exact else loc_Inexact (2 * r ?= d) in
  SF2Prim (binary_round_aux prec emax neg q (- k) loc).

(** [n / d] rounded to the nearest integer, ties to even ([0 <= n], [0 < d]). *)
Definition div_half_even (n d : Z) : Z :=
  let q := n / d in
  let r := n mod d in
  match 2 * r ?= d with
  | Lt => q
  | Gt => q + 1
  | Eq => if Z.even q then q else q + 1
  end.

(** [round(x, 2)] on a float: the exact value of [x] is rounded to two
    decimal places (ties to even) and the decimal result is converted back
    to the nearest float; zeros, infinities and NaN round to themselves. *)
Definition round2 (x : float) : float :=
  match Prim2SF x with
  | S754_finite s m e =>
      let n := match e with
               | Z.neg p => div_half_even (Z.pos m * 100) (2 ^ Z.pos p)
               | _ => Z.pos m * 2 ^ e * 100
               end in
      nearest_ratio s n 100
  | _ => x
  end.

(** [math.sqrt(x)]: a negative argument is a domain error. *)
Definition math_sqrt (x : float) : outcome float :=
  if (x <? 0)%float then Raises ValueError else Returns (PrimFloat.sqrt x).

Definition math_pi : float := 3.141592653589793%float.

Definition Z_LAYERS : list float := [40.0; 100.0; 150.0; 200.0]%float.
Definition MAX_RADIUS : float := 200.0%float.
Definition RADIUS_STEP : float := 20.0%float.
Definition ANGLE_STEPS : Z := 12.
Definition RX_FIXED : float := 180.0%float.
Definition RY_FIXED : float := 0.0%float.
Definition RZ_FIXED : float := 0.0%float.
Definition MAX_REACH : float := 280.0%float.

Section Generator.
Variable lm : Libm.

(** [x**2 + y**2 + z**2], then its square root. *)
Definition distance (x y z : float) : outcome float :=
  math_sqrt (pow lm x 2 + pow lm y 2 + pow lm z 2)%float.

(** The position sampled at height [z], on the circle of radius [radius],
    at angle index [i]. *)
Definition sample_xy (radius : float) (i : Z) : float * float :=
  let angle_rad := (fl 2 * math_pi * fl i / fl ANGLE_STEPS)%float in
  (round2 (radius * cos lm angle_rad), round2 (radius * sin lm angle_rad)).

(** The body of [for i in range(ANGLE_STEPS)]. *)
Definition sample (z radius : float) (i : Z) : Prog (list Pose) unit :=
  let '(x, y) := sample_xy radius i in
  let* dist := lift (distance x y z) in
  if (dist <=? MAX_REACH)%float then
    modify (fun points =>
      points ++ [[Py.Float x; Py.Float y; Py.Float z;
                  Py.Float RX_FIXED; Py.Float RY_FIXED; Py.Float RZ_FIXED]])
  else ret tt.

Definition angle_loop (z radius : float) : Prog (list Pose) unit :=
  let* idx := lift (Py.range 0 ANGLE_STEPS 1) in
  for_each idx (sample z radius).

(** [while radius <= MAX_RADIUS: ...; radius += RADIUS_STEP], run for at
    most [fuel] tests of the condition: [None] when the fuel runs out. *)
Fixpoint radius_loop (fuel : nat) (z radius : float) (points : list Pose)
  : option (outcome unit * list Pose) :=
  match fuel with
  | O => None
  | S fuel' =>
      if (radius <=? MAX_RADIUS)%float then
        match angle_loop z radius points with
        | (Returns _, points') =>
            radius_loop fuel' z (radius + RADIUS_STEP)%float points'
        | (Raises e, points') => Some (Raises e, points')
        end
      else Some (Returns tt, points)
  end.

(** [for z in Z_LAYERS: radius = RADIUS_STEP; while ...] *)
Fixpoint layer_loop (fuel : nat) (layers : list float) (points : list Pose)
  : option (outcome unit * list Pose) :=
  match layers with
  | [] => Some (Returns tt, points)
  | z :: rest =>
      match radius_loop fuel z RADIUS_STEP points with
      | Some (Returns _, points') => layer_loop fuel rest points'
      | other => other
      end
  end.

(** The radius after [k] iterations of the [while] loop, and whether the
    condition of the loop holds at each of them. *)
Fixpoint radius_after (k : nat) (radius : float) : float :=
  match k with
  | O => radius
  | S k' => radius_after k' (radius + RADIUS_STEP)%float
  end.

Fixpoint conditions_hold (k : nat) (radius : float) : bool :=
  match k with
  | O => true
  | S k' => (radius <=? MAX_RADIUS)%float
            && conditions_hold k' (radius + RADIUS_STEP)%float
  end.

(** [generate_points()], each [while] loop given [fuel] iterations. *)
Definition generate_points (fuel : nat) : option (outcome (list Pose)) :=
  match layer_loop fuel Z_LAYERS [] with
  | Some (Returns _, points) => Some (Returns points)
  | Some (Raises e, _) => Some (Raises e)
  | None => None
  end.

(** The distance test of the generator on an emitted pose: the square
    root of the sum of the squares of its three positional components is
    computed and is at most [MAX_REACH]. *)
Definition within_reach (p : Pose) : Prop :=
  exists x y z rest dist,
    p = Py.Float x :: Py.Float y :: Py.Float z :: rest
    /\ distance x y z = Returns dist
    /\ (dist <=? MAX_REACH)%float = true.

End Generator.

Section PolarGrid.
Variable lm : Libm.

(** What one sample contributes: its pose when the distance is computed
    and within reach, nothing otherwise. *)
Definition emitted (z radius : float) (i : Z) : list Pose :=
  let '(x, y) := sample_xy lm radius i in
  match distance lm x y z with
  | Returns dist =>
      if (dist <=? MAX_REACH)%float then
        [[Py.Float x; Py.Float y; Py.Float z;
          Py.Float RX_FIXED; Py.Float RY_FIXED; Py.Float RZ_FIXED]]
      else []
  | Raises _ => []
  end.

(** The radii the [while] loop goes through: ten of them, each the one
    before plus [RADIUS_STEP] in binary64. *)
Definition RADII : list float :=
  map (fun k => radius_after k RADIUS_STEP) (seq 0 10).

(** The polar grid: the layers in the given order, in each the radii
    upwards, on each circle the twelve angle indices upwards, the samples
    out of reach left out. *)
Definition polar_grid : list Pose :=
  z ← Z_LAYERS;
  radius ← RADII;
  i ← [0; 1; 2; 3; 4; 5; 6; 7; 8; 9; 10; 11];
  emitted z radius i.

End PolarGrid.

(** The first sample of the first layer. *)
Definition first_sample : Pose :=
  [Py.Float 20.0; Py.Float 0.0; Py.Float 40.0;
   Py.Float 180.0; Py.Float 0.0; Py.Float 0.0].

(** A stand-in for the mathematical library, exact where the first sample
    needs it: a polynomial for the cosine and the sine, and the square as a
    product (the generator raises to no other power). *)
Definition sample_libm : Libm :=
  mkLibm (fun x => 1 - x * x / 2 + x * x * x * x / 24)%float
         (fun x => x - x * x * x / 6 + x * x * x * x * x / 120)%float
         (fun x y => if (y =? 2) then x * x else nan)%float.

(** A value that is not a negative number: a NaN, a zero of either sign, or
    a positive number or infinity. *)
Definition not_negative (x : spec_float) : Prop :=
  match x with
  | S754_infinity s | S754_finite s _ _ => s = false
  | _ => True
  end.

End PointGenerator.

(* ===================================================================== *)
(** ** gui_node.py: class WorkspaceGUI *)
(* ===================================================================== *)

Module WorkspaceGUI.

(** A value interpolated into a message by an f-string. *)
Inductive Arg : Type :=
| AExn (e : exn)
| AIndex (i : nat)
| AInt (z : Z)
| ANum (v : Py.num)        (* also the [:.2f] rendering of an error *)
| APose (p : Pose)
| AStr (s : string).

(** A message: the literal text of the f-string, with [{}] where a value
    is interpolated, and the values. *)
Record Message : Type := Msg { template : string; args : list Arg }.

(** The text of a pose label: the initial text, or [f"{v:.1f}"]. *)
Inductive Label : Type :=
| Text (s : string)
| Fmt1 (v : Py.num).

(** One entry of [self.results] (a dict with these five keys). *)
Record Result : Type := mkResult {
  target : Pose;
  reached : option Pose;
  error : option Py.num;
  pass : bool;
  timestamp : string
}.

(** A field handed to [csv.writer.writerow]. *)
Inductive Cell : Type :=
| CStr (s : string)
| CNum (v : Py.num)
| CBool (b : bool)
| CNone.

Definition Row : Type := list Cell.

(** The methods a Qt timer is connected to. *)
Inductive Callback : Type :=
| CheckRobotStatus
| MoveToNextPoint.

(** The connection object [MyCobot(PI_PORT, PI_BAUD)]. *)
Inductive Handle : Type := MyCobot.

(** A call made on the connection object, or [time.sleep]. *)
Inductive HwCall : Type :=
| SendCoords (coords : Pose) (speed : Z) (mode : Z)
| GetCoords
| IsMoving
| Stop
| ReleaseAllServos
| SendAngles (angles : list Z) (speed : Z)
| Sleep.

Definition is_send_coords (k : HwCall) : bool :=
  match k with SendCoords _ _ _ => true | _ => false end.

Definition is_move (k : HwCall) : bool :=
  match k with SendCoords _ _ _ | SendAngles _ _ => true | _ => false end.

(** Everything outside the program: the arm behind the vendor interface,
    the clock and the faults of the file system.  Each operation of the arm
    returns or raises, and moves the world on. *)
Class World (W : Type) : Type := {
  (** [MyCobot(PI_PORT, PI_BAUD)] *)
  connect : Prog W unit;
  (** [mc.send_coords(coords, speed, mode)] *)
  send_coords : Pose -> Z -> Z -> Prog W unit;
  (** [mc.get_coords()]: a list of numbers, or [None] *)
  get_coords : Prog W (option Pose);
  (** [mc.is_moving()], as the truth value of what it returns *)
  is_moving : Prog W bool;
  (** [hasattr(mc, "stop")] *)
  has_stop : W -> bool;
  (** [mc.stop()] *)
  stop : Prog W unit;
  (** [mc.release_all_servos()] *)
  release_all_servos : Prog W unit;
  (** [mc.send_angles(angles, speed)] *)
  send_angles : list Z -> Z -> Prog W unit;
  (** [time.sleep(0.5)] *)
  sleep : W -> W;
  (** [datetime.now().strftime(fmt)] *)
  strftime : string -> W -> string;
  (** [datetime.utcnow().isoformat()] *)
  utcnow_isoformat : W -> string;
  (** [open(fname, 'w')] fails with this exception *)
  open_fault : string -> W -> option exn;
  (** writing a row to [fname], which holds [n] rows, fails with this
      exception *)
  write_fault : string -> nat -> W -> option exn
}.

Section GUI.
Context {W : Type} `{World W}.

(** The fields of the window the methods read and write, and what the
    program leaves outside itself: the console, the pending one-shot timers,
    the files written, the calls made on the arm, and the world. *)
Record t : Type := mk {
  mc : option Handle;
  points : list Pose;
  current_index : nat;
  robot_busy : bool;
  paused : bool;
  stopped : bool;
  canvas : MplCanvas.t;
  pose_labels : gmap string Label;
  pause_btn : bool;
  speed_slider : Z;
  step_spin : Z;
  status_box : list (string * Message);
  results : list Result;
  timer : option (Z * Callback);
  single_shots : list (Z * Callback);
  console : list (option string * Message);
  files : gmap string (list Row);
  trace : list HwCall;
  world : W
}.

Definition set_mc (v : option Handle) (st : t) : t :=
  mk v (st.(points)) (st.(current_index)) (st.(robot_busy)) (st.(paused))
    (st.(stopped)) (st.(canvas)) (st.(pose_labels)) (st.(pause_btn))
    (st.(speed_slider)) (st.(step_spin)) (st.(status_box)) (st.(results))
    (st.(timer)) (st.(single_shots)) (st.(console)) (st.(files)) (st.(trace))
    (st.(world)).
Definition set_points (v : list Pose) (st : t) : t :=
  mk (st.(mc)) v (st.(current_index)) (st.(robot_busy)) (st.(paused))
    (st.(stopped)) (st.(canvas)) (st.(pose_labels)) (st.(pause_btn))
    (st.(speed_slider)) (st.(step_spin)) (st.(status_box)) (st.(results))
    (st.(timer)) (st.(single_shots)) (st.(console)) (st.(files)) (st.(trace))
    (st.(world)).
Definition set_current_index (v : nat) (st : t) : t :=
  mk (st.(mc)) (st.(points)) v (st.(robot_busy)) (st.(paused)) (st.(stopped))
    (st.(canvas)) (st.(pose_labels)) (st.(pause_btn)) (st.(speed_slider))
    (st.(step_spin)) (st.(status_box)) (st.(results)) (st.(timer))
    (st.(single_shots)) (st.(console)) (st.(files)) (st.(trace)) (st.(world))
    .
Definition set_robot_busy (v : bool) (st : t) : t :=
  mk (st.(mc)) (st.(points)) (st.(current_index)) v (st.(paused))
    (st.(stopped)) (st.(canvas)) (st.(pose_labels)) (st.(pause_btn))
    (st.(speed_slider)) (st.(step_spin)) (st.(status_box)) (st.(results))
    (st.(timer)) (st.(single_shots)) (st.(console)) (st.(files)) (st.(trace))
    (st.(world)).
Definition set_paused (v : bool) (st : t) : t :=
  mk (st.(mc)) (st.(points)) (st.(current_index)) (st.(robot_busy)) v
    (st.(stopped)) (st.(canvas)) (st.(pose_labels)) (st.(pause_btn))
    (st.(speed_slider)) (st.(step_spin)) (st.(status_box)) (st.(results))
    (st.(timer)) (st.(single_shots)) (st.(console)) (st.(files)) (st.(trace))
    (st.(world)).
Definition set_stopped (v : bool) (st : t) : t :=
  mk (st.(mc)) (st.(points)) (st.(current_index)) (st.(robot_busy))
    (st.(paused)) v (st.(canvas)) (st.(pose_labels)) (st.(pause_btn))
    (st.(speed_slider)) (st.(step_spin)) (st.(status_box)) (st.(results))
    (st.(timer)) (st.(single_shots)) (st.(console)) (st.(files)) (st.(trace))
    (st.(world)).
Definition set_canvas (v : MplCanvas.t) (st : t) : t :=
  mk (st.(mc)) (st.(points)) (st.(current_index)) (st.(robot_busy))
    (st.(paused)) (st.(stopped)) v (st.(pose_labels)) (st.(pause_btn))
    (st.(speed_slider)) (st.(step_spin)) (st.(status_box)) (st.(results))
    (st.(timer)) (st.(single_shots)) (st.(console)) (st.(files)) (st.(trace))
    (st.(world)).
Definition set_pose_labels (v : gmap string Label) (st : t) : t :=
  mk (st.(mc)) (st.(points)) (st.(current_index)) (st.(robot_busy))
    (st.(paused)) (st.(stopped)) (st.(canvas)) v (st.(pause_btn))
    (st.(speed_slider)) (st.(step_spin)) (st.(status_box)) (st.(results))
    (st.(timer)) (st.(single_shots)) (st.(console)) (st.(files)) (st.(trace))
    (st.(world)).
Definition set_pause_btn (v : bool) (st : t) : t :=
  mk (st.(mc)) (st.(points)) (st.(current_index)) (st.(robot_busy))
    (st.(paused)) (st.(stopped)) (st.(canvas)) (st.(pose_labels)) v
    (st.(speed_slider)) (st.(step_spin)) (st.(status_box)) (st.(results))
    (st.(timer)) (st.(single_shots)) (st.(console)) (st.(files)) (st.(trace))
    (st.(world)).
Definition set_speed_slider (v : Z) (st : t) : t :=
  mk (st.(mc)) (st.(points)) (st.(current_index)) (st.(robot_busy))
    (st.(paused)) (st.(stopped)) (st.(canvas)) (st.(pose_labels))
    (st.(pause_btn)) v (st.(step_spin)) (st.(status_box)) (st.(results))
    (st.(timer)) (st.(single_shots)) (st.(console)) (st.(files)) (st.(trace))
    (st.(world)).
Definition set_step_spin (v : Z) (st : t) : t :=
  mk (st.(mc)) (st.(points)) (st.(current_index)) (st.(robot_busy))
    (st.(paused)) (st.(stopped)) (st.(canvas)) (st.(pose_labels))
    (st.(pause_btn)) (st.(speed_slider)) v (st.(status_box)) (st.(results))
    (st.(timer)) (st.(single_shots)) (st.(console)) (st.(files)) (st.(trace))
    (st.(world)).
Definition set_status_box (v : list (string * Message)) (st : t) : t :=
  mk (st.(mc)) (st.(points)) (st.(current_index)) (st.(robot_busy))
    (st.(paused)) (st.(stopped)) (st.(canvas)) (st.(pose_labels))
    (st.(pause_btn)) (st.(speed_slider)) (st.(step_spin)) v (st.(results))
    (st.(timer)) (st.(single_shots)) (st.(console)) (st.(files)) (st.(trace))
    (st.(world)).
Definition set_results (v : list Result) (st : t) : t :=
  mk (st.(mc)) (st.(points)) (st.(current_index)) (st.(robot_busy))
    (st.(paused)) (st.(stopped)) (st.(canvas)) (st.(pose_labels))
    (st.(pause_btn)) (st.(speed_slider)) (st.(step_spin)) (st.(status_box)) v
    (st.(timer)) (st.(single_shots)) (st.(console)) (st.(files)) (st.(trace))
    (st.(world)).
Definition set_timer (v : option (Z * Callback)) (st : t) : t :=
  mk (st.(mc)) (st.(points)) (st.(current_index)) (st.(robot_busy))
    (st.(paused)) (st.(stopped)) (st.(canvas)) (st.(pose_labels))
    (st.(pause_btn)) (st.(speed_slider)) (st.(step_spin)) (st.(status_box))
    (st.(results)) v (st.(single_shots)) (st.(console)) (st.(files))
    (st.(trace)) (st.(world)).
Definition set_single_shots (v : list (Z * Callback)) (st : t) : t :=
  mk (st.(mc)) (st.(points)) (st.(current_index)) (st.(robot_busy))
    (st.(paused)) (st.(stopped)) (st.(canvas)) (st.(pose_labels))
    (st.(pause_btn)) (st.(speed_slider)) (st.(step_spin)) (st.(status_box))
    (st.(results)) (st.(timer)) v (st.(console)) (st.(files)) (st.(trace))
    (st.(world)).
Definition set_console (v : list (option string * Message)) (st : t) : t :=
  mk (st.(mc)) (st.(points)) (st.(current_index)) (st.(robot_busy))
    (st.(paused)) (st.(stopped)) (st.(canvas)) (st.(pose_labels))
    (st.(pause_btn)) (st.(speed_slider)) (st.(step_spin)) (st.(status_box))
    (st.(results)) (st.(timer)) (st.(single_shots)) v (st.(files))
    (st.(trace)) (st.(world)).
Definition set_files (v : gmap string (list Row)) (st : t) : t :=
  mk (st.(mc)) (st.(points)) (st.(current_index)) (st.(robot_busy))
    (st.(paused)) (st.(stopped)) (st.(canvas)) (st.(pose_labels))
    (st.(pause_btn)) (st.(speed_slider)) (st.(step_spin)) (st.(status_box))
    (st.(results)) (st.(timer)) (st.(single_shots)) (st.(console)) v
    (st.(trace)) (st.(world)).
Definition set_trace (v : list HwCall) (st : t) : t :=
  mk (st.(mc)) (st.(points)) (st.(current_index)) (st.(robot_busy))
    (st.(paused)) (st.(stopped)) (st.(canvas)) (st.(pose_labels))
    (st.(pause_btn)) (st.(speed_slider)) (st.(step_spin)) (st.(status_box))
    (st.(results)) (st.(timer)) (st.(single_shots)) (st.(console))
    (st.(files)) v (st.(world)).
Definition set_world (v : W) (st : t) : t :=
  mk (st.(mc)) (st.(points)) (st.(current_index)) (st.(robot_busy))
    (st.(paused)) (st.(stopped)) (st.(canvas)) (st.(pose_labels))
    (st.(pause_btn)) (st.(speed_slider)) (st.(step_spin)) (st.(status_box))
    (st.(results)) (st.(timer)) (st.(single_shots)) (st.(console))
    (st.(files)) (st.(trace)) v.

(** Run a statement of the canvas on [self.canvas]. *)
Definition on_canvas {A} (p : Prog MplCanvas.t A) : Prog t A :=
  fun st => let '(o, cv) := p st.(canvas) in (o, set_canvas cv st).

(** Run an operation of the world. *)
Definition on_world {A} (p : Prog W A) : Prog t A :=
  fun st => let '(o, w) := p st.(world) in (o, set_world w st).

(** [self.mc.<method>(...)]: an attribute of [None] cannot be read. *)
Definition mc_call {A} (k : HwCall) (p : Prog W A) : Prog t A :=
  let* st := get in
  match st.(mc) with
  | None => raise AttributeError
  | Some _ => modify (fun st => set_trace (st.(trace) ++ [k]) st) ;; on_world p
  end.

(** [print(m)] *)
Definition print (m : Message) : Prog t unit :=
  modify (fun st => set_console (st.(console) ++ [(None, m)]) st).

(** [log(self, message)] *)
Definition log (m : Message) : Prog t unit :=
  let* st := get in
  let t := strftime "%H:%M:%S" st.(world) in
  modify (fun st => set_status_box (st.(status_box) ++ [(t, m)]) st) ;;
  modify (fun st => set_console (st.(console) ++ [(Some t, m)]) st).

(** [safe_mc_send_coords(self, coords, speed)] *)
Definition safe_mc_send_coords (coords : Pose) (speed : Z) : Prog t unit :=
  let* st := get in
  if negb (bool_decide (is_Some st.(mc))) then
    log (Msg "No robot connected." [])
  else
    try_except
      (mc_call (SendCoords coords speed 0) (send_coords coords speed 0) ;;
       modify (set_robot_busy true))
      (fun e =>
         log (Msg "send_coords failed: {}" [AExn e]) ;;
         modify (set_robot_busy false)).

(** [safe_mc_get_coords(self)] *)
Definition safe_mc_get_coords : Prog t (option Pose) :=
  let* st := get in
  if negb (bool_decide (is_Some st.(mc))) then ret None
  else
    try_except (mc_call GetCoords get_coords) (fun _ => ret None).

(** [safe_mc_is_moving(self)] *)
Definition safe_mc_is_moving : Prog t bool :=
  let* st := get in
  if negb (bool_decide (is_Some st.(mc))) then ret false
  else
    try_except (mc_call IsMoving is_moving) (fun _ => ret false).

(** [attempt_stop_api(self)] *)
Definition attempt_stop_api : Prog t bool :=
  let* st := get in
  if negb (bool_decide (is_Some st.(mc))) then ret false
  else
    try_except
      (let* st := get in
       if has_stop st.(world) then
         mc_call Stop stop ;;
         log (Msg "Called mc.stop()" []) ;;
         ret true
       else ret false)
      (fun e =>
         log (Msg "mc.stop() raised: {}" [AExn e]) ;;
         ret false).

(** [f"{v:.1f}"]: an int is converted to a float to be formatted. *)
Definition format_1f (v : Py.num) : outcome Label :=
  let? _ := Py.to_float v in Returns (Fmt1 v).

(** [self.pose_labels[key].setText(f"{coords[k]:.1f}")] *)
Definition set_pose_label (key : string) (coords : Pose) (k : nat) : Prog t unit :=
  let* v := lift (Py.getitem coords k) in
  let* l := lift (format_1f v) in
  modify (fun st => set_pose_labels (<[key := l]> st.(pose_labels)) st).

(** The truth value of what [safe_mc_get_coords] returned. *)
Definition truthy (coords : option Pose) : bool :=
  match coords with
  | Some (_ :: _) => true
  | _ => false
  end.

(** [move_to_next_point(self)] *)
Definition move_to_next_point : Prog t unit :=
  let* st := get in
  if st.(paused) || st.(stopped) then
    log (Msg "Move to next aborted: paused/stopped." [])
  else if (length st.(points) <=? st.(current_index))%nat then
    log (Msg "Exploration finished." [])
  else
    let* target := lift (Py.getitem st.(points) st.(current_index)) in
    log (Msg "Moving to {}  (index {})" [APose target; AIndex st.(current_index)]) ;;
    on_canvas (MplCanvas.highlight_point (Z.of_nat st.(current_index))) ;;
    safe_mc_send_coords target st.(speed_slider).

(** [skip_point(self)] *)
Definition skip_point : Prog t unit :=
  let* st := get in
  print (Msg "[SKIP] Skipping point {}" [AIndex st.(current_index)]) ;;
  modify (fun st => set_current_index (S st.(current_index)) st) ;;
  let* st := get in
  if (st.(current_index) <? length st.(points))%nat then move_to_next_point
  else print (Msg "[SKIP] Exploration finished." []).

(** [color_current_point(self)] *)
Definition color_current_point : Prog t unit :=
  let* st := get in
  if (st.(current_index) <? length st.(points))%nat then
    print (Msg "[COLOR] Coloring point {} green" [AIndex st.(current_index)]) ;;
    on_canvas (MplCanvas.update_point_color (Z.of_nat st.(current_index)) GREEN)
  else ret tt.

(** [start_exploration(self)] *)
Definition start_exploration : Prog t unit :=
  let* st := get in
  if st.(stopped) then
    log (Msg "System stopped. Clear stop to start." [])
  else
    (if st.(paused) then
       log (Msg "Resuming from paused state." []) ;;
       modify (set_paused false) ;;
       modify (set_pause_btn false)
     else ret tt) ;;
    log (Msg "Starting exploration." []) ;;
    let* st := get in
    (if (length st.(points) <=? st.(current_index))%nat then
       modify (set_current_index 0%nat) ;;
       log (Msg "Restarting from index 0." [])
     else ret tt) ;;
    let* st := get in
    on_canvas (MplCanvas.highlight_point (Z.of_nat st.(current_index))) ;;
    move_to_next_point.

(** [toggle_pause(self)] *)
Definition toggle_pause : Prog t unit :=
  modify (fun st => set_paused st.(pause_btn) st) ;;
  let* st := get in
  if st.(paused) then log (Msg "Paused exploration." [])
  else
    log (Msg "Resumed exploration." []) ;;
    if negb st.(robot_busy) then move_to_next_point else ret tt.

(** [emergency_stop(self)] *)
Definition emergency_stop : Prog t unit :=
  modify (set_stopped true) ;;
  modify (set_paused true) ;;
  modify (set_pause_btn true) ;;
  log (Msg "EMERGENCY STOP triggered!" []) ;;
  let* ok := attempt_stop_api in
  if negb ok then
    log (Msg ("mc.stop() not available or failed. Software pausing moves "
              ++ "(no further commands will be sent).") []) ;;
    let* coords := safe_mc_get_coords in
    match coords with
    | Some (c0 :: cs) =>
        try_except
          (mc_call (SendCoords (c0 :: cs) 1 0) (send_coords (c0 :: cs) 1 0) ;;
           log (Msg "Issued low-speed hold command to current pose." []))
          (fun e => log (Msg "Fallback hold command failed: {}" [AExn e]))
    | _ => ret tt
    end
  else ret tt.

(** [go_home(self)] *)
Definition go_home : Prog t unit :=
  log (Msg "PULANG WES!." []) ;;
  mc_call (SendAngles [0; 0; 0; 0; 0; 0] 10) (send_angles [0; 0; 0; 0; 0; 0] 10).

(** [clear_stop(self)] *)
Definition clear_stop : Prog t unit :=
  let* st := get in
  if st.(stopped) then
    print (Msg "[RESET] Clearing emergency stop..." []) ;;
    modify (set_stopped false) ;;
    mc_call ReleaseAllServos release_all_servos ;;
    modify (fun st => set_trace (st.(trace) ++ [Sleep]) st) ;;
    modify (fun st => set_world (sleep st.(world)) st) ;;
    go_home ;;
    print (Msg "[RESET] System is ready again." [])
  else ret tt.

(** [jog_axis(self, axis_index, delta)] *)
Definition jog_axis (axis_index delta : Z) : Prog t unit :=
  let* st := get in
  if st.(paused) || st.(stopped) then
    log (Msg "Cannot jog while paused/stopped." [])
  else
    let* coords := safe_mc_get_coords in
    match coords with
    | None => log (Msg "Cannot read current coords; abort jog." [])
    | Some coords =>
        let* new_coords :=
          if bool_decide (axis_index ∈ [0; 1; 2]) then
            let i := Z.to_nat axis_index in
            let* v := lift (Py.getitem coords i) in
            let* v' := lift (Py.add v (Py.Int delta)) in
            lift (Py.setitem coords i v')
          else ret coords in
        log (Msg "Jogging axis {} by {} mm -> {}"
               [AInt axis_index; AInt delta; APose (take 3 new_coords)]) ;;
        let* st := get in
        safe_mc_send_coords new_coords st.(speed_slider)
    end.

(** The error of a reading against its target (line 486): the sum of the
    absolute differences of the components 0, 1 and 2. *)
Definition point_error (final target : Pose) : outcome Py.num :=
  let? f0 := Py.getitem final 0 in
  let? t0 := Py.getitem target 0 in
  let? d0 := Py.sub f0 t0 in
  let? f1 := Py.getitem final 1 in
  let? t1 := Py.getitem target 1 in
  let? d1 := Py.sub f1 t1 in
  let? s01 := Py.add (Py.abs d0) (Py.abs d1) in
  let? f2 := Py.getitem final 2 in
  let? t2 := Py.getitem target 2 in
  let? d2 := Py.sub f2 t2 in
  Py.add s01 (Py.abs d2).

(** [error < 10] *)
Definition passes (error : Py.num) : bool := Py.ltb error (Py.Int 10).

(** The colour of the marker of an evaluated point. *)
Definition verdict_color (passed : bool) : Color :=
  if passed then WHITE else RED.

(** The evaluation of the current point (lines 469 to 504). *)
Definition evaluate_point : Prog t unit :=
  let* final := safe_mc_get_coords in
  let* st := get in
  let* target := lift (Py.getitem st.(points) st.(current_index)) in
  match final with
  | None =>
      log (Msg "Could not read final coords for evaluation." []) ;;
      on_canvas (MplCanvas.update_point_color (Z.of_nat st.(current_index)) GRAY) ;;
      let* st := get in
      let result := mkResult target None None false (utcnow_isoformat st.(world)) in
      modify (fun st => set_results (st.(results) ++ [result]) st)
  | Some final =>
      let* error := lift (point_error final target) in
      let passed := passes error in
      let* _ := lift (Py.to_float error) in   (* [{error:.2f}] *)
      log (Msg (if passed then "Point {} OK: final {}, error {:.2f}"
                else "Point {} FAIL: final {}, error {:.2f}")
             [AIndex st.(current_index); APose (take 3 final); ANum error]) ;;
      on_canvas (MplCanvas.update_point_color (Z.of_nat st.(current_index))
                   (verdict_color passed)) ;;
      let* st := get in
      let result :=
        mkResult target (Some final) (Some error) passed
          (utcnow_isoformat st.(world)) in
      modify (fun st => set_results (st.(results) ++ [result]) st)
  end.

(** [QtCore.QTimer.singleShot(msec, callback)] *)
Definition singleShot (msec : Z) (cb : Callback) : Prog t unit :=
  modify (fun st => set_single_shots (st.(single_shots) ++ [(msec, cb)]) st).

(** The live pose readout at the head of [check_robot_status]. *)
Definition update_live_pose : Prog t unit :=
  let* coords := safe_mc_get_coords in
  if truthy coords then
    let coords := default [] coords in
    try_except
      (set_pose_label "x" coords 0 ;;
       set_pose_label "y" coords 1 ;;
       set_pose_label "z" coords 2 ;;
       set_pose_label "r1" coords 3 ;;
       set_pose_label "r2" coords 4 ;;
       set_pose_label "r3" coords 5)
      (fun _ => ret tt)
  else ret tt.

(** [check_robot_status(self)], the slot of the 200 ms timer. *)
Definition check_robot_status : Prog t unit :=
  update_live_pose ;;
  let* st := get in
  if (length st.(points) <=? st.(current_index))%nat || st.(paused) || st.(stopped)
  then ret tt
  else
    let* moving := safe_mc_is_moving in
    if moving then ret tt
    else
      let* st := get in
      if st.(robot_busy) then
        evaluate_point ;;
        modify (set_robot_busy false) ;;
        modify (fun st => set_current_index (S st.(current_index)) st) ;;
        let* st := get in
        if negb st.(paused) && negb st.(stopped) then
          singleShot 250 MoveToNextPoint
        else ret tt
      else ret tt.

(** The header row of the exported file. *)
Definition csv_header : Row :=
  map CStr ["timestamp"; "target_x"; "target_y"; "target_z";
            "target_r1"; "target_r2"; "target_r3";
            "reached_x"; "reached_y"; "reached_z";
            "reached_r1"; "reached_r2"; "reached_r3";
            "error"; "pass"].

(** [r['reached'] or [None] * 6], as the fields it yields. *)
Definition reached_or_none (r : Result) : list Cell :=
  match r.(reached) with
  | Some (c0 :: cs) => map CNum (c0 :: cs)
  | _ => replicate 6 CNone
  end.

(** [[l[0], l[1], l[2], l[3], l[4], l[5]]] *)
Definition first_six {A} (l : list A) : outcome (list A) :=
  let? a0 := Py.getitem l 0 in
  let? a1 := Py.getitem l 1 in
  let? a2 := Py.getitem l 2 in
  let? a3 := Py.getitem l 3 in
  let? a4 := Py.getitem l 4 in
  let? a5 := Py.getitem l 5 in
  Returns [a0; a1; a2; a3; a4; a5].

(** The row written for one result (lines 535 to 542). *)
Definition csv_row (r : Result) : outcome Row :=
  let? tcells := first_six (map CNum r.(target)) in
  let? rcells := first_six (reached_or_none r) in
  Returns ([CStr r.(timestamp)] ++ tcells ++ rcells
             ++ [from_option CNum CNone r.(error); CBool r.(pass)]).

(** [open(fname, 'w', newline='')]: the file is created or truncated. *)
Definition open_w (fname : string) : Prog t unit :=
  let* st := get in
  match open_fault fname st.(world) with
  | Some e => raise e
  | None => modify (fun st => set_files (<[fname := []]> st.(files)) st)
  end.

(** [writer.writerow(row)] on the file [fname]. *)
Definition writerow (fname : string) (row : Row) : Prog t unit :=
  let* st := get in
  let rows := default [] (st.(files) !! fname) in
  match write_fault fname (length rows) st.(world) with
  | Some e => raise e
  | None => modify (fun st => set_files (<[fname := rows ++ [row]]> st.(files)) st)
  end.

(** [export_log(self)] *)
Definition export_log : Prog t unit :=
  let* st := get in
  if (length st.(results) =? 0)%nat then
    log (Msg "No results to export." [])
  else
    let fname :=
      ("workspace_log_" ++ strftime "%Y%m%d_%H%M%S" st.(world) ++ ".csv")%string in
    try_except
      (open_w fname ;;
       writerow fname csv_header ;;
       for_each st.(results) (fun r =>
         let* row := lift (csv_row r) in
         writerow fname row) ;;
       log (Msg "Exported log to {}" [AStr fname]))
      (fun e => log (Msg "Failed to export log: {}" [AExn e])).

(** [clear_log(self)] *)
Definition clear_log : Prog t unit :=
  modify (set_results []) ;;
  log (Msg "Cleared log results." []).

(** The six labels of the live pose readout, as [__init__] creates them. *)
Definition initial_pose_labels : gmap string Label :=
  <["x" := Text "N/A"]> (<["y" := Text "N/A"]> (<["z" := Text "N/A"]>
  (<["r1" := Text "N/A"]> (<["r2" := Text "N/A"]> (<["r3" := Text "N/A"]> ∅))))).

(** [WorkspaceGUI.__init__(self)], started in the world [w]. *)
Definition init (w : W) : outcome t :=
  let '(conn, w) := connect w in
  let handle := match conn with Returns _ => Some MyCobot | Raises _ => None end in
  let connected :=
    match conn with
    | Returns _ => Msg " UWESSSS. Connected to MyCobot." []
    | Raises e => Msg "Warning: Failed to connect to MyCobot: {}" [AExn e]
    end in
  let? pts := default_grid in
  let generated := Msg "Generated {} grid points." [AIndex (length pts)] in
  let? cv := MplCanvas.init pts in
  let st :=
    mk handle pts 0%nat false false false cv initial_pose_labels
       false 10 10 [] [] (Some (200, CheckRobotStatus)) []
       [(None, connected); (None, generated)] ∅ [] w in
  match
    (if (0 <? length pts)%nat then
       on_canvas (MplCanvas.highlight_point (Z.of_nat st.(current_index)))
     else ret tt) st
  with
  | (Returns _, st') => Returns st'
  | (Raises e, _) => Raises e
  end.

(** What the operator and the timers can make the window do. *)
Inductive event : Type :=
| ClickStart
| ClickPause
| ClickStop
| ClickSkip
| ClickColor
| ClickReset
| ClickHome
| ClickJog (axis : Z) (positive : bool)
| ClickExport
| ClickClearLog
| Tick
| FireSingleShot.

(** The slot run for an event.  A click on the checkable pause button
    flips it before its slot runs; a one-shot timer that fires leaves the
    pending list and runs its callback. *)
Definition run_callback (cb : Callback) : Prog t unit :=
  match cb with
  | CheckRobotStatus => check_robot_status
  | MoveToNextPoint => move_to_next_point
  end.

Definition handle (ev : event) : Prog t unit :=
  match ev with
  | ClickStart => start_exploration
  | ClickPause =>
      modify (fun st => set_pause_btn (negb st.(pause_btn)) st) ;; toggle_pause
  | ClickStop => emergency_stop
  | ClickSkip => skip_point
  | ClickColor => color_current_point
  | ClickReset => clear_stop
  | ClickHome => go_home
  | ClickJog axis positive =>
      let* st := get in
      jog_axis axis (if positive then st.(step_spin) else - st.(step_spin))
  | ClickExport => export_log
  | ClickClearLog => clear_log
  | Tick => check_robot_status
  | FireSingleShot =>
      let* st := get in
      match st.(single_shots) with
      | [] => ret tt
      | (_, cb) :: rest => modify (set_single_shots rest) ;; run_callback cb
      end
  end.

(** Events one after the other: each runs from the state the one before
    left, whether it returned or raised. *)
Definition run_events (evs : list event) (st : t) : t :=
  foldl (fun st ev => snd (handle ev st)) st evs.

(** *** Relations between the state before and the state after *)

(** The field [f] is left as it was. *)
Definition same {A} (f : t -> A) (st st' : t) : Prop := f st' = f st.

(** The calls made on the arm since [st] all satisfy [ok]. *)
Definition calls_since (ok : HwCall -> bool) (st st' : t) : Prop :=
  exists calls, st'.(trace) = st.(trace) ++ calls /\ forallb ok calls = true.

(** No move was commanded, and the cursor, the run state and the pending
    one-shot timers are as they were. *)
Definition quiet (st st' : t) : Prop :=
  same points st st' /\ same current_index st st' /\ same robot_busy st st'
  /\ same paused st st' /\ same stopped st st' /\ same single_shots st st'
  /\ calls_since (fun k => negb (is_move k)) st st'.

(** [quiet], and no result was recorded. *)
Definition calm (st st' : t) : Prop := quiet st st' /\ same results st st'.

(** The run-state flags [stopped] and [paused] are as they were. *)
Definition keeps_flags (st st' : t) : Prop :=
  same stopped st st' /\ same paused st st'.

(** A latched stop stays latched. *)
Definition stays_stopped (st st' : t) : Prop :=
  st.(stopped) = true -> st'.(stopped) = true.

(** Nothing changed but the pose readout and the world, and the arm was
    only asked for its coordinates. *)
Definition only_readout (st st' : t) : Prop :=
  same mc st st' /\ same points st st' /\ same current_index st st'
  /\ same robot_busy st st' /\ same paused st st' /\ same stopped st st'
  /\ same canvas st st' /\ same pause_btn st st' /\ same speed_slider st st'
  /\ same step_spin st st' /\ same status_box st st' /\ same results st st'
  /\ same timer st st' /\ same single_shots st st' /\ same console st st'
  /\ same files st st'
  /\ calls_since (fun k => match k with GetCoords => true | _ => false end) st st'.

(** The name of the file [export_log] writes. *)
Definition export_name (st : t) : string :=
  ("workspace_log_" ++ strftime "%Y%m%d_%H%M%S" st.(world) ++ ".csv")%string.

(** A result whose poses have their six components. *)
Definition exportable (r : Result) : Prop :=
  (6 <= length r.(target))%nat
  /\ forall p, r.(reached) = Some p -> (6 <= length p)%nat.

(** The six reached-* fields of a row: the columns 7 to 12. *)
Definition reached_fields (row : Row) : list Cell := take 6 (drop 7 row).

(** The results recorded in [st] are still there, in order, with possibly
    more after them. *)
Definition grows (st st' : t) : Prop :=
  exists more, st'.(results) = st.(results) ++ more.

(** The canvas draws the pose set of the window, with one colour per
    pose. *)
Definition consistent (st : t) : Prop :=
  MplCanvas.wf st.(canvas) /\ MplCanvas.points st.(canvas) = st.(points).

Definition keeps_consistent (st st' : t) : Prop :=
  consistent st -> consistent st'.

(** What is set up once in [__init__]: the pose set, the handle, the
    recurring timer and the values of the two input widgets. *)
Definition fixed_setup (st st' : t) : Prop :=
  same points st st' /\ same mc st st' /\ same timer st st'
  /\ same speed_slider st st' /\ same step_spin st st'.

(** The handle is as it was and, when there is none, the record of the
    calls made on the arm is as it was too. *)
Definition arm_untouched (st st' : t) : Prop :=
  same mc st st' /\ (st.(mc) = None -> same trace st st').

(** The cursor, the results and the pause and stop flags are as they
    were. *)
Definition cursor_kept (st st' : t) : Prop :=
  same current_index st st' /\ same results st st' /\ same paused st st'
  /\ same stopped st st' /\ same pause_btn st st'.

(** [cursor_kept], and the arm was not called and [robot_busy] is as it
    was. *)
Definition run_state_kept (st st' : t) : Prop :=
  cursor_kept st st' /\ same robot_busy st st' /\ same trace st st'
  /\ same world st st'.

(** The state a tick leaves when it has evaluated a point. *)
Definition after_evaluation (st st' : t) : Prop :=
  st'.(robot_busy) = false
  /\ st'.(current_index) = S st.(current_index)
  /\ st'.(single_shots) = st.(single_shots) ++ [(250, MoveToNextPoint)]
  /\ st'.(paused) = false /\ st'.(stopped) = false
  /\ calls_since (fun k => negb (is_move k)) st st'.

End GUI.

Arguments t W : clear implicits.

End WorkspaceGUI.

(* ===================================================================== *)
(** ** A simulated world, to run the window on concrete inputs *)
(* ===================================================================== *)

Module Sim.

(** A world whose arm answers every call the same way. *)
Record t : Type := mk {
  connects : outcome unit;
  on_send_coords : outcome unit;
  reading : outcome (option Pose);
  moving : outcome bool;
  stop_exists : bool;
  on_stop : outcome unit;
  on_release : outcome unit;
  on_send_angles : outcome unit;
  cannot_open : option exn;
  cannot_write : option exn
}.

#[global] Instance world : WorkspaceGUI.World t := {|
  WorkspaceGUI.connect := fun w => (connects w, w);
  WorkspaceGUI.send_coords := fun _ _ _ w => (on_send_coords w, w);
  WorkspaceGUI.get_coords := fun w => (reading w, w);
  WorkspaceGUI.is_moving := fun w => (moving w, w);
  WorkspaceGUI.has_stop := stop_exists;
  WorkspaceGUI.stop := fun w => (on_stop w, w);
  WorkspaceGUI.release_all_servos := fun w => (on_release w, w);
  WorkspaceGUI.send_angles := fun _ _ w => (on_send_angles w, w);
  WorkspaceGUI.sleep := fun w => w;
  WorkspaceGUI.strftime := fun fmt _ => fmt;
  WorkspaceGUI.utcnow_isoformat := fun _ => "2024-01-01T00:00:00"%string;
  WorkspaceGUI.open_fault := fun _ w => cannot_open w;
  WorkspaceGUI.write_fault := fun _ _ w => cannot_write w
|}.

Definition off_by_six : Pose :=
  [Py.Float 3.0; Py.Float 3.0; Py.Float 100.0;
   Py.Float 179.0; Py.Float 1.5; Py.Float (-90.0)].

(** The pose a jog starts from. *)
Definition jog_start : Pose :=
  [Py.Int 10; Py.Int 20; Py.Int 30; Py.Int 180; Py.Int 0; Py.Int 0].

(** An arm at rest at the pose [p], every call succeeding. *)
Definition resting (p : Pose) : t :=
  mk (Returns tt) (Returns tt) (Returns (Some p)) (Returns false) true
     (Returns tt) (Returns tt) (Returns tt) None None.

(** An arm at rest at [off_by_six] whose connection has no [stop]
    method. *)
Definition holding : t :=
  mk (Returns tt) (Returns tt) (Returns (Some off_by_six)) (Returns false) false
     (Returns tt) (Returns tt) (Returns tt) None None.

(** No arm, and a working directory that cannot be written to. *)
Definition read_only_disk : t :=
  mk (Raises (HardwareError 0)) (Raises (HardwareError 0))
     (Raises (HardwareError 0)) (Raises (HardwareError 0)) false
     (Raises (HardwareError 0)) (Raises (HardwareError 0))
     (Raises (HardwareError 0)) (Some (OSError 13)) None.

(** No arm: the connection fails. *)
Definition unplugged : t :=
  mk (Raises (HardwareError 0)) (Raises (HardwareError 0))
     (Raises (HardwareError 0)) (Raises (HardwareError 0)) false
     (Raises (HardwareError 0)) (Raises (HardwareError 0))
     (Raises (HardwareError 0)) None None.

(** A window over two targets, hand-built, in the world [w]. *)
Definition two_targets : list Pose :=
  [[Py.Int 0; Py.Int 0; Py.Int 100; Py.Float 180.0; Py.Float 0.0; Py.Float 0.0];
   [Py.Int 50; Py.Int 0; Py.Int 100; Py.Float 180.0; Py.Float 0.0; Py.Float 0.0]].

(** The canvas over the two targets, as [MplCanvas.__init__] leaves it. *)
Definition fresh_canvas : MplCanvas.t :=
  MplCanvas.mk two_targets [BLUE; BLUE]
    (Some (MplCanvas.mkScatter [Py.Int 0; Py.Int 50] [Py.Int 0; Py.Int 0]
             [Py.Int 100; Py.Int 100] [BLUE; BLUE])) 0.

(** The canvas over the two targets, after the first one was highlighted. *)
Definition highlighted_canvas : MplCanvas.t :=
  MplCanvas.mk two_targets [YELLOW; BLUE] None 0.

Definition window (handle : option WorkspaceGUI.Handle) (w : t) : WorkspaceGUI.t t :=
  WorkspaceGUI.mk handle two_targets 0%nat false false false
    (MplCanvas.mk two_targets [BLUE; BLUE] None 0)
    WorkspaceGUI.initial_pose_labels false 10 10 [] [] (Some (200, WorkspaceGUI.CheckRobotStatus))
    [] [] ∅ [] w.

(** The window after a move to the first target was commanded, the arm
    now at rest at the pose [p]. *)
Definition arrived (p : Pose) : WorkspaceGUI.t t :=
  WorkspaceGUI.set_robot_busy true (window (Some WorkspaceGUI.MyCobot) (resting p)).

(** The same window, paused. *)
Definition paused_window (p : Pose) : WorkspaceGUI.t t :=
  WorkspaceGUI.set_paused true (arrived p).

(** The window when the connection failed at startup, the stop latched. *)
Definition stopped_without_arm : WorkspaceGUI.t t :=
  WorkspaceGUI.set_stopped true (window None unplugged).

(** A window with two results recorded, the second without a reading. *)
Definition two_results : list WorkspaceGUI.Result :=
  [WorkspaceGUI.mkResult
     [Py.Int 0; Py.Int 0; Py.Int 100; Py.Float 180.0; Py.Float 0.0; Py.Float 0.0]
     (Some off_by_six) (Some (Py.Float 6)) true "2024-01-01T00:00:00";
   WorkspaceGUI.mkResult
     [Py.Int 50; Py.Int 0; Py.Int 100; Py.Float 180.0; Py.Float 0.0; Py.Float 0.0]
     None None false "2024-01-01T00:00:05"].

Definition logged_window : WorkspaceGUI.t t :=
  WorkspaceGUI.set_results two_results
    (window (Some WorkspaceGUI.MyCobot) (resting off_by_six)).

End Sim.

(* ===================================================================== *)
(** * Properties *)
(* ===================================================================== *)

(** ** The rectangular grid generator *)

Lemma spec_grid_length : length spec_grid = 676%nat.
Proof. reflexivity. Qed.

Lemma default_grid_returns : default_grid = Returns spec_grid.
Proof. vm_compute. reflexivity. Qed.

Lemma spec_grid_orientation :
  Forall (fun p => orientation p = [Py.Float 180.0; Py.Float 0.0; Py.Float 0.0])
    spec_grid.
Proof.
  unfold spec_grid.
  apply Forall_bind, Forall_forall; intros z _.
  apply Forall_bind, Forall_forall; intros x _.
  apply Forall_bind, Forall_forall; intros y _.
  repeat constructor.
Qed.

(** C6. With its default arguments the rectangular generator returns
    exactly 13 x 13 x 4 = 676 poses, each with the orientation
    (180.0, 0.0, 0.0); they are the Cartesian product of the heights
    40, 50, 100, 200 (outermost, in that order), the X values and the
    Y values (innermost), both axes running upwards over -300, -250, ..., 300
    with the two endpoints; every combination is there (nothing is filtered
    out), the first pose being (-300, -300, 40) and the last (300, 300, 200). *)
Theorem generate_grid_points_default :
  exists pts,
    generate_grid_points (-300, 300) (-300, 300)
      [Py.Int 40; Py.Int 50; Py.Int 100; Py.Int 200] 50 = Returns pts
    /\ length pts = (13 * 13 * 4)%nat
    /\ length pts = 676%nat
    /\ Forall (fun p => orientation p = [Py.Float 180.0; Py.Float 0.0; Py.Float 0.0]) pts
    /\ pts = spec_grid
    /\ (forall z x y, z ∈ default_z_values -> x ∈ spec_axis -> y ∈ spec_axis ->
          [Py.Int x; Py.Int y; z; Py.Float 180.0; Py.Float 0.0; Py.Float 0.0] ∈ pts)
    /\ head pts = Some [Py.Int (-300); Py.Int (-300); Py.Int 40;
                        Py.Float 180.0; Py.Float 0.0; Py.Float 0.0]
    /\ last pts = Some [Py.Int 300; Py.Int 300; Py.Int 200;
                        Py.Float 180.0; Py.Float 0.0; Py.Float 0.0].
Proof.
  exists spec_grid. split; [exact default_grid_returns|].
  split; [reflexivity|]. split; [reflexivity|].
  split; [exact spec_grid_orientation|]. split; [reflexivity|].
  split; [|split; reflexivity].
  intros z x y Hz Hx Hy. unfold spec_grid.
  apply list_elem_of_bind. exists z. split; [|exact Hz].
  apply list_elem_of_bind. exists x. split; [|exact Hx].
  apply list_elem_of_bind. exists y. split; [|exact Hy].
  apply list_elem_of_singleton. reflexivity.
Qed.

(* ===================================================================== *)
(** ** The canvas *)
(* ===================================================================== *)

Ltac prog_unfold :=
  unfold bind, get, modify, lift, ret, raise, try_except in *.

Lemma obind_returns {A B} (a : A) (k : A -> outcome B) :
  obind (Returns a) k = k a.
Proof. reflexivity. Qed.

Section ProgLaws.
Context {S : Type}.
Implicit Types (R : S -> S -> Prop).

Lemma within_ret {A} R `{!Reflexive R} (a : A) : within R (ret a).
Proof. intros s. simpl. reflexivity. Qed.

Lemma within_raise {A} R `{!Reflexive R} e : within R (raise (A := A) e).
Proof. intros s. simpl. reflexivity. Qed.

Lemma within_lift {A} R `{!Reflexive R} (o : outcome A) : within R (lift o).
Proof. intros s. simpl. reflexivity. Qed.

Lemma within_get R `{!Reflexive R} : within R get.
Proof. intros s. simpl. reflexivity. Qed.

Lemma within_modify R (f : S -> S) : (forall s, R s (f s)) -> within R (modify f).
Proof. intros Hf s. apply Hf. Qed.

Lemma within_bind {A B} R `{!Transitive R} (m : Prog S A) (k : A -> Prog S B) :
  within R m -> (forall a, within R (k a)) -> within R (bind m k).
Proof.
  intros Hm Hk s. unfold bind. specialize (Hm s).
  destruct (m s) as [[a|e] s1]; simpl in *; [|done].
  etrans; [exact Hm|apply Hk].
Qed.

Lemma within_try {A} R `{!Transitive R} (m : Prog S A) (h : exn -> Prog S A) :
  within R m -> (forall e, within R (h e)) -> within R (try_except m h).
Proof.
  intros Hm Hh s. unfold try_except. specialize (Hm s).
  destruct (m s) as [[a|e] s1]; simpl in *; [done|].
  etrans; [exact Hm|apply Hh].
Qed.

Lemma within_for_each {A} R `{!PreOrder R} (xs : list A) (body : A -> Prog S unit) :
  (forall x, within R (body x)) -> within R (for_each xs body).
Proof.
  intros Hbody. induction xs as [|x xs IH]; simpl.
  - apply within_ret, _.
  - apply within_bind; [apply _|apply Hbody|done].
Qed.

Lemma total_ret {A} (a : A) : total (S := S) (ret a).
Proof. intros s. by exists a. Qed.

Lemma total_get : total (S := S) get.
Proof. intros s. by exists s. Qed.

Lemma total_modify (f : S -> S) : total (modify f).
Proof. intros s. by exists tt. Qed.

Lemma total_bind {A B} (m : Prog S A) (k : A -> Prog S B) :
  total m -> (forall a, total (k a)) -> total (bind m k).
Proof.
  intros Hm Hk s. unfold bind. destruct (Hm s) as [a Ha].
  destruct (m s) as [[a'|e] s1]; simpl in *; [|discriminate].
  apply Hk.
Qed.

Lemma total_try {A} (m : Prog S A) (h : exn -> Prog S A) :
  (forall e, total (h e)) -> total (try_except m h).
Proof.
  intros Hh s. unfold try_except.
  destruct (m s) as [[a|e] s1]; simpl; [by exists a|apply Hh].
Qed.

Lemma wp_bind {A B} (m : Prog S A) (k : A -> Prog S B) Q E s :
  wp m (fun a => wp (k a) Q E) E s -> wp (bind m k) Q E s.
Proof. unfold wp, bind. by destruct (m s) as [[a|e] s1]. Qed.

Lemma wp_try {A} (m : Prog S A) (h : exn -> Prog S A) Q E s :
  wp m Q (fun e => wp (h e) Q E) s -> wp (try_except m h) Q E s.
Proof. unfold wp, try_except. by destruct (m s) as [[a|e] s1]. Qed.

Lemma wp_ret {A} (a : A) (Q : A -> S -> Prop) E s : Q a s -> wp (ret a) Q E s.
Proof. done. Qed.

Lemma wp_get (Q : S -> S -> Prop) E s : Q s s -> wp get Q E s.
Proof. done. Qed.

Lemma wp_modify (f : S -> S) (Q : unit -> S -> Prop) E s :
  Q tt (f s) -> wp (modify f) Q E s.
Proof. done. Qed.

Lemma wp_lift {A} (o : outcome A) (Q : A -> S -> Prop) (E : exn -> S -> Prop) s :
  match o with Returns a => Q a s | Raises e => E e s end -> wp (lift o) Q E s.
Proof. done. Qed.

(** A statement that never raises and stays within [R]. *)
Lemma wp_within_total {A} R (m : Prog S A) (Q : A -> S -> Prop) E s :
  within R m -> total m -> (forall a s', R s s' -> Q a s') -> wp m Q E s.
Proof.
  intros Hw Ht HQ. unfold wp. specialize (Hw s). destruct (Ht s) as [a Ha].
  destruct (m s) as [[a'|e] s1]; simpl in *; [|discriminate]. by apply HQ.
Qed.

(** A statement that stays within [R]. *)
Lemma wp_within {A} R (m : Prog S A) (Q : A -> S -> Prop) (E : exn -> S -> Prop) s :
  within R m ->
  (forall a s', R s s' -> Q a s') -> (forall e s', R s s' -> E e s') ->
  wp m Q E s.
Proof.
  intros Hw HQ HE. unfold wp. specialize (Hw s).
  destruct (m s) as [[a'|e] s1]; simpl in *; [by apply HQ|by apply HE].
Qed.

End ProgLaws.

Section CanvasProps.
Import MplCanvas.

Lemma column_drawable k pts :
  (k < 3)%nat -> Forall drawable pts -> exists vs, column k pts = Returns vs.
Proof.
  intros Hk Hpts. induction Hpts as [|p pts Hp _ [vs IH]]; simpl.
  - by exists [].
  - unfold Py.getitem. destruct (lookup_lt_is_Some_2 p k) as [v ->].
    { unfold drawable in Hp. lia. }
    simpl. rewrite IH. simpl. by eexists.
Qed.

Lemma column_returns_drawable pts vs :
  column 2 pts = Returns vs -> Forall drawable pts.
Proof.
  revert vs. induction pts as [|p pts IH]; intros vs Hc; [constructor|].
  simpl in Hc. unfold Py.getitem in Hc.
  destruct (p !! 2%nat) as [v|] eqn:Hp; [|discriminate].
  simpl in Hc. destruct (column 2 pts) as [vs'|] eqn:Hrest; [|discriminate].
  constructor; [|by eapply IH].
  unfold drawable. apply lookup_lt_Some in Hp. lia.
Qed.

Lemma ax_scatter_drawable pts cols :
  Forall drawable pts -> exists sc, ax_scatter pts cols = Returns sc.
Proof.
  intros Hpts. unfold ax_scatter.
  destruct (column_drawable 0 pts) as [x ->]; [lia|done|].
  destruct (column_drawable 1 pts) as [y ->]; [lia|done|].
  destruct (column_drawable 2 pts) as [z ->]; [lia|done|].
  simpl. by eexists.
Qed.

Lemma init_wf pts cv : init pts = Returns cv -> wf cv /\ points cv = pts.
Proof.
  unfold init, ax_scatter. intros Hinit.
  destruct (column 0 pts) as [x|]; [|discriminate]. simpl in Hinit.
  destruct (column 1 pts) as [y|]; [|discriminate]. simpl in Hinit.
  destruct (column 2 pts) as [z|] eqn:Hz; [|discriminate]. simpl in Hinit.
  injection Hinit as <-. split; [|done]. split; simpl.
  - apply length_replicate.
  - by eapply column_returns_drawable.
Qed.

Lemma redraw_drawable cv :
  Forall drawable (points cv) ->
  exists sc, redraw cv = (Returns tt, mk (points cv) (colors cv) (Some sc) (S (draws cv))).
Proof.
  intros Hpts. unfold redraw. prog_unfold. simpl.
  destruct (ax_scatter_drawable (points cv) (colors cv) Hpts) as [sc ->].
  by exists sc.
Qed.

Lemma colors_setitem_in_range i color cv :
  (i < length (colors cv))%nat ->
  colors_setitem i color cv = (Returns tt, set_colors (<[i := color]> (colors cv)) cv).
Proof.
  intros Hi. unfold colors_setitem, Py.setitem. prog_unfold.
  apply Nat.ltb_lt in Hi. by rewrite Hi.
Qed.

(** The loop of [highlight_point], started at the marker [length done]. *)
Lemma reset_loop done todo cv :
  colors cv = done ++ todo ->
  for_each (seq (length done) (length todo)) reset_marker cv
  = (Returns tt, set_colors (done ++ map reset_color todo) cv).
Proof.
  revert done cv. induction todo as [|c todo IH]; intros done cv Hcv.
  - simpl. rewrite app_nil_r in *. rewrite <- Hcv. by destruct cv.
  - simpl. unfold bind at 1. unfold reset_marker at 1. prog_unfold.
    unfold Py.getitem. rewrite Hcv, list_lookup_middle by done.
    assert (Hstep : forall cv', colors cv' = (done ++ [reset_color c]) ++ todo ->
      for_each (seq (S (length done)) (length todo)) reset_marker cv'
      = (Returns tt, set_colors ((done ++ [reset_color c]) ++ map reset_color todo) cv')).
    { intros cv' Hcv'. specialize (IH (done ++ [reset_color c]) cv' Hcv').
      rewrite length_app in IH. simpl in IH.
      by replace (length done + 1)%nat with (S (length done)) in IH by lia. }
    destruct (color_in c [WHITE; RED]) eqn:Hc.
    + assert (Hr : reset_color c = c) by (unfold reset_color; by rewrite Hc).
      rewrite Hr in Hstep. rewrite Hstep; [|by rewrite Hcv, <- app_assoc].
      simpl. by rewrite Hr, <- app_assoc.
    + assert (Hr : reset_color c = BLUE) by (unfold reset_color; by rewrite Hc).
      rewrite Hr in Hstep.
      rewrite colors_setitem_in_range
        by (rewrite Hcv, length_app; simpl; lia).
      rewrite Hstep.
      * simpl. by rewrite Hr, <- app_assoc.
      * simpl. rewrite Hcv.
        replace (length done) with (length done + 0)%nat at 1 by lia.
        rewrite insert_app_r. simpl. by rewrite <- app_assoc.
Qed.

Lemma reset_loop_all cv :
  length (colors cv) = length (points cv) ->
  for_each (seq 0 (length (points cv))) reset_marker cv
  = (Returns tt, set_colors (map reset_color (colors cv)) cv).
Proof.
  intros Hlen. rewrite <- Hlen. exact (reset_loop [] (colors cv) cv eq_refl).
Qed.

Lemma update_point_color_out_of_range index color cv :
  in_range index cv = false ->
  update_point_color index color cv = (Returns tt, cv).
Proof. intros Hr. unfold update_point_color. prog_unfold. by rewrite Hr. Qed.

Lemma in_range_lt index cv :
  in_range index cv = true -> (Z.to_nat index < length (points cv))%nat.
Proof. unfold in_range. intros Hr. apply andb_prop in Hr as [H0 H1]. lia. Qed.

Lemma update_point_color_in_range index color cv :
  wf cv -> in_range index cv = true ->
  exists sc,
    update_point_color index color cv
    = (Returns tt, mk (points cv) (<[Z.to_nat index := color]> (colors cv))
                      (Some sc) (S (draws cv))).
Proof.
  intros [Hlen Hpts] Hr. unfold update_point_color.
  unfold bind at 1, get at 1. rewrite Hr. simpl. unfold bind at 1.
  rewrite colors_setitem_in_range by (rewrite Hlen; by apply in_range_lt).
  destruct (redraw_drawable (set_colors (<[Z.to_nat index:=color]> (colors cv)) cv))
    as [sc ->]; [done|].
  by exists sc.
Qed.

(** The colours [highlight_point index] leaves. *)
Lemma highlight_point_colors index cv :
  wf cv ->
  exists sc,
    highlight_point index cv
    = (Returns tt,
       mk (points cv)
          (if in_range index cv
           then <[Z.to_nat index := YELLOW]> (map reset_color (colors cv))
           else map reset_color (colors cv))
          (Some sc) (S (draws cv))).
Proof.
  intros [Hlen Hpts]. unfold highlight_point.
  unfold bind at 1, get at 1. unfold bind at 1.
  rewrite reset_loop_all by done.
  unfold bind at 1, get at 1. unfold bind at 1.
  change (in_range index (set_colors (map reset_color (colors cv)) cv))
    with (in_range index cv).
  destruct (in_range index cv) eqn:Hr.
  - rewrite colors_setitem_in_range
      by (simpl; rewrite length_map, Hlen; by apply in_range_lt).
    match goal with |- context [redraw ?c] =>
      destruct (redraw_drawable c) as [sc ->]; [done|] end.
    by exists sc.
  - unfold ret at 1.
    destruct (redraw_drawable (set_colors (map reset_color (colors cv)) cv))
      as [sc ->]; [done|].
    by exists sc.
Qed.

Lemma highlight_point_returns index cv :
  wf cv -> exists cv', highlight_point index cv = (Returns tt, cv').
Proof.
  intros Hwf. destruct (highlight_point_colors index cv Hwf) as [sc ->].
  by eexists.
Qed.

Lemma init_returns pts :
  Forall drawable pts -> exists cv, init pts = Returns cv /\ wf cv.
Proof.
  intros Hd. unfold init.
  destruct (ax_scatter_drawable pts (replicate (length pts) BLUE) Hd) as [sc Hsc].
  rewrite Hsc. eexists. split; [reflexivity|].
  split; [apply length_replicate|done].
Qed.

Lemma spec_grid_drawable : Forall drawable spec_grid.
Proof.
  eapply Forall_impl; [apply spec_grid_orientation|].
  intros p Hp. unfold drawable, orientation in *.
  apply (f_equal length) in Hp. rewrite length_drop in Hp. simpl in Hp. lia.
Qed.

Lemma run_call_wf k cv :
  wf cv ->
  exists cv', run_call k cv = (Returns tt, cv') /\ wf cv' /\ points cv' = points cv.
Proof.
  intros Hwf. destruct k as [index color|index]; simpl.
  - destruct (in_range index cv) eqn:Hr.
    + destruct (update_point_color_in_range index color cv Hwf Hr) as [sc ->].
      eexists. split; [done|]. destruct Hwf as [Hlen Hpts].
      split; [|done]. split; simpl; [by rewrite length_insert|done].
    + rewrite update_point_color_out_of_range by done. by exists cv.
  - destruct (highlight_point_colors index cv Hwf) as [sc ->].
    eexists. split; [done|]. destruct Hwf as [Hlen Hpts].
    split; [|done]. split; simpl; [|done].
    destruct (in_range index cv);
      by rewrite ?length_insert, length_map.
Qed.

Lemma run_calls_wf ks cv :
  wf cv ->
  exists cv', run_calls ks cv = (Returns tt, cv') /\ wf cv' /\ points cv' = points cv.
Proof.
  revert cv. induction ks as [|k ks IH]; intros cv Hwf.
  - by exists cv.
  - destruct (run_call_wf k cv Hwf) as (cv1 & Hk & Hwf1 & Hp1).
    destruct (IH cv1 Hwf1) as (cv2 & Hks & Hwf2 & Hp2).
    exists cv2. unfold run_calls in *. simpl. unfold bind. rewrite Hk.
    split; [done|]. split; [done|]. by rewrite Hp2.
Qed.

(** C10. Once the canvas is constructed over a pose set, its colour array
    has one entry per pose, and after any sequence of [update_point_color]
    and [highlight_point] calls, with any indices and colours, every call
    returns without raising and the length of the colour array still
    equals the length of the point list, which is still the pose set. *)
Theorem colors_length_invariant (pts : list Pose) (cv : t) (ks : list call) :
  init pts = Returns cv ->
  length (colors cv) = length (points cv)
  /\ exists cv',
       run_calls ks cv = (Returns tt, cv')
       /\ length (colors cv') = length (points cv')
       /\ points cv' = pts.
Proof.
  intros Hinit. destruct (init_wf pts cv Hinit) as [Hwf Hpts].
  split; [apply Hwf|].
  destruct (run_calls_wf ks cv Hwf) as (cv' & Hrun & [Hlen _] & Hp).
  exists cv'. split; [done|]. split; [done|]. by rewrite Hp.
Qed.

Lemma colors_length_invariant_witness :
  init Sim.two_targets = Returns Sim.fresh_canvas
  /\ length (colors Sim.fresh_canvas) = length (points Sim.fresh_canvas)
  /\ exists cv',
       run_calls [HighlightPoint 0; UpdatePointColor 0 RED;
                  UpdatePointColor 7 GREEN; HighlightPoint (-1)]
         Sim.fresh_canvas
       = (Returns tt, cv')
       /\ length (colors cv') = length (points cv')
       /\ points cv' = Sim.two_targets.
Proof.
  split; [reflexivity|].
  exact (colors_length_invariant Sim.two_targets Sim.fresh_canvas
           [HighlightPoint 0; UpdatePointColor 0 RED;
            UpdatePointColor 7 GREEN; HighlightPoint (-1)] eq_refl).
Defined.

(** C5, as the code has it. For every index outside [0, N), N the size of
    the pose set, and every colour: [update_point_color] returns without
    raising and leaves the whole canvas, its colour array included,
    unchanged; [highlight_point] returns without raising and sets no marker
    to yellow, but it still resets to blue every marker that is neither
    white nor red, so it leaves the colour array unchanged exactly on the
    markers that are white, red or already blue. *)
Theorem out_of_range_index (cv : t) (index : Z) (color : Color) :
  wf cv ->
  ~ (0 <= index < Z.of_nat (length (points cv))) ->
  update_point_color index color cv = (Returns tt, cv)
  /\ exists cv',
       highlight_point index cv = (Returns tt, cv')
       /\ colors cv' = map reset_color (colors cv)
       /\ points cv' = points cv.
Proof.
  intros Hwf Hout.
  assert (Hr : in_range index cv = false).
  { unfold in_range. apply andb_false_iff. lia. }
  split; [by apply update_point_color_out_of_range|].
  destruct (highlight_point_colors index cv Hwf) as [sc Hh].
  rewrite Hr in Hh. eexists. split; [exact Hh|]. done.
Qed.

Lemma out_of_range_index_witness :
  update_point_color 2 GREEN Sim.highlighted_canvas = (Returns tt, Sim.highlighted_canvas)
  /\ exists cv',
       highlight_point 2 Sim.highlighted_canvas = (Returns tt, cv')
       /\ colors cv' = map reset_color (colors Sim.highlighted_canvas)
       /\ points cv' = points Sim.highlighted_canvas.
Proof.
  apply (out_of_range_index Sim.highlighted_canvas 2 GREEN).
  - split; [reflexivity|]. repeat constructor.
  - simpl. lia.
Defined.

(** C5 fails as stated: on the canvas over two poses whose first marker is
    highlighted in yellow, [highlight_point] with the index 2, outside
    [0, 2), turns that marker blue again. *)
Lemma highlight_point_out_of_range_changes_colors :
  ~ (0 <= 2 < Z.of_nat (length (points Sim.highlighted_canvas)))
  /\ colors Sim.highlighted_canvas = [YELLOW; BLUE]
  /\ colors (snd (highlight_point 2 Sim.highlighted_canvas)) = [BLUE; BLUE]
  /\ colors (snd (highlight_point 2 Sim.highlighted_canvas))
     <> colors Sim.highlighted_canvas.
Proof.
  split; [simpl; lia|]. split; [reflexivity|].
  assert (Hc : colors (snd (highlight_point 2 Sim.highlighted_canvas)) = [BLUE; BLUE])
    by (vm_compute; reflexivity).
  split; [exact Hc|]. rewrite Hc. simpl. discriminate.
Qed.

End CanvasProps.

(* ===================================================================== *)
(** ** The polar grid generator *)
(* ===================================================================== *)

Section FloatSigns.
Import PointGenerator.

Lemma round_aux_sign s m e l :
  match binary_round_aux prec emax s m e l with
  | S754_infinity s' | S754_finite s' _ _ => s' = s
  | _ => True
  end.
Proof.
  unfold binary_round_aux.
  destruct (shr_fexp prec emax m e l) as [mrs e'].
  destruct (shr_fexp prec emax _ e' loc_Exact) as [mrs' e''].
  destruct (shr_m mrs'); [done| |done].
  destruct (Z.leb _ _); reflexivity.
Qed.

Lemma round_sign s m e :
  match binary_round prec emax s m e with
  | S754_infinity s' | S754_finite s' _ _ => s' = s
  | _ => True
  end.
Proof.
  unfold binary_round. destruct (shl_align _ _ _) as [mz ez].
  apply round_aux_sign.
Qed.

Lemma SFmul_square x : not_negative (SFmul prec emax x x).
Proof.
  destruct x as [s|s| |s m e]; simpl; try done; try (by destruct s).
  pose proof (round_aux_sign (xorb s s) (Zpos (m * m)) (e + e) loc_Exact) as Hs.
  destruct (binary_round_aux _ _ _ _ _ _); simpl; try done;
    rewrite Hs; by destruct s.
Qed.

Lemma SFadd_not_negative x y :
  not_negative x -> not_negative y -> not_negative (SFadd prec emax x y).
Proof.
  destruct x as [sx|sx| |sx mx ex], y as [sy|sy| |sy my ey]; simpl;
    intros Hx Hy; subst; try done;
    try (by destruct sx, sy); try (by destruct sx); try (by destruct sy).
  pose proof (round_sign false) as Hs.
  unfold binary_normalize.
  destruct (_ + _)%Z as [|p|p] eqn:Hsum; simpl; [done| |simpl in Hsum; lia].
  specialize (Hs p (Z.min ex ey)). by destruct (binary_round _ _ _ _ _).
Qed.

Lemma not_negative_ltb x : not_negative x -> SFltb x (S754_zero false) = false.
Proof. destruct x as [s|s| |s m e]; simpl; try done; by intros ->. Qed.

(** A sum of three squares computed in binary64 is never less than zero. *)
Lemma squares_not_negative (x y z : float) :
  (x * x + y * y + z * z <? 0)%float = false.
Proof.
  rewrite ltb_spec, !add_spec, !mul_spec.
  change (Prim2SF 0) with (S754_zero false).
  apply not_negative_ltb.
  repeat apply SFadd_not_negative; apply SFmul_square.
Qed.

End FloatSigns.

Section PolarProps.
Import PointGenerator.
Variable lm : Libm.

(** The sum of squares the mathematical library computes is never
    negative, so its square root is defined. *)
Hypothesis sqrt_defined :
  forall x y z, (pow lm x 2 + pow lm y 2 + pow lm z 2 <? 0)%float = false.

Lemma sample_appends z radius i points :
  exists more,
    sample lm z radius i points = (Returns tt, points ++ more)
    /\ Forall (within_reach lm) more.
Proof.
  unfold sample. destruct (sample_xy lm radius i) as [x y].
  prog_unfold.
  destruct (distance lm x y z) as [dist|e] eqn:Hd.
  - destruct (dist <=? MAX_REACH)%float eqn:Hle.
    + eexists. split; [reflexivity|]. constructor; [|constructor].
      by exists x, y, z, [Py.Float RX_FIXED; Py.Float RY_FIXED; Py.Float RZ_FIXED], dist.
    + exists []. by rewrite app_nil_r.
  - unfold distance, math_sqrt in Hd.
    by rewrite sqrt_defined in Hd.
Qed.

Lemma samples_append z radius idx points :
  exists more,
    for_each idx (sample lm z radius) points = (Returns tt, points ++ more)
    /\ Forall (within_reach lm) more.
Proof.
  revert points. induction idx as [|i idx IH]; intros points.
  - exists []. by rewrite app_nil_r.
  - simpl. unfold bind.
    destruct (sample_appends z radius i points) as (m1 & -> & H1).
    destruct (IH (points ++ m1)) as (m2 & -> & H2).
    exists (m1 ++ m2). rewrite app_assoc. split; [done|].
    by apply Forall_app.
Qed.

Lemma angle_indices :
  Py.range 0 ANGLE_STEPS 1 = Returns [0; 1; 2; 3; 4; 5; 6; 7; 8; 9; 10; 11].
Proof. reflexivity. Qed.

Lemma angle_loop_appends z radius points :
  exists more,
    angle_loop lm z radius points = (Returns tt, points ++ more)
    /\ Forall (within_reach lm) more.
Proof.
  unfold angle_loop, bind, lift. rewrite angle_indices. apply samples_append.
Qed.

(** One more unit of fuel does not change a result. *)
Lemma radius_loop_fuel fuel z radius points r :
  radius_loop lm fuel z radius points = Some r ->
  radius_loop lm (S fuel) z radius points = Some r.
Proof.
  revert radius points. induction fuel as [|fuel IH]; intros radius points Hr;
    [discriminate|].
  simpl in Hr. change (radius_loop lm (S (S fuel)) z radius points)
    with (if (radius <=? MAX_RADIUS)%float then
            match angle_loop lm z radius points with
            | (Returns _, points') =>
                radius_loop lm (S fuel) z (radius + RADIUS_STEP)%float points'
            | (Raises e, points') => Some (Raises e, points')
            end
          else Some (Returns tt, points)).
  destruct (radius <=? MAX_RADIUS)%float; [|done].
  destruct (angle_loop lm z radius points) as [[[]|e] points']; [|done].
  by apply IH.
Qed.

Lemma radius_loop_fuel_le fuel fuel' z radius points r :
  (fuel <= fuel')%nat ->
  radius_loop lm fuel z radius points = Some r ->
  radius_loop lm fuel' z radius points = Some r.
Proof.
  intros Hle Hr. induction Hle as [|fuel' _ IH]; [done|].
  by apply radius_loop_fuel.
Qed.

(** A step of the [while] loop whose condition holds. *)
Lemma radius_loop_step fuel z radius points :
  (radius <=? MAX_RADIUS)%float = true ->
  exists more,
    radius_loop lm (S fuel) z radius points
    = radius_loop lm fuel z (radius + RADIUS_STEP)%float (points ++ more)
    /\ Forall (within_reach lm) more.
Proof.
  intros Hle. simpl. rewrite Hle.
  destruct (angle_loop_appends z radius points) as (more & -> & Hmore).
  by exists more.
Qed.

(** [k] iterations of the [while] loop whose conditions hold. *)
Lemma radius_loop_iterations k fuel z radius points :
  conditions_hold k radius = true ->
  exists more,
    radius_loop lm (k + fuel) z radius points
    = radius_loop lm fuel z (radius_after k radius) (points ++ more)
    /\ Forall (within_reach lm) more.
Proof.
  revert radius points. induction k as [|k IH]; intros radius points Hk.
  - exists []. by rewrite app_nil_r.
  - simpl in Hk. apply andb_prop in Hk as [Hle Hk].
    destruct (radius_loop_step (k + fuel) z radius points Hle)
      as (m1 & Hstep & H1).
    destruct (IH (radius + RADIUS_STEP)%float (points ++ m1) Hk)
      as (m2 & Hrest & H2).
    exists (m1 ++ m2). split; [|by apply Forall_app].
    change (S k + fuel)%nat with (S (k + fuel)).
    rewrite Hstep, Hrest. simpl. by rewrite app_assoc.
Qed.

(** The [while] loop returns once its condition fails. *)
Lemma radius_loop_stops k z radius points :
  conditions_hold k radius = true ->
  (radius_after k radius <=? MAX_RADIUS)%float = false ->
  exists more,
    radius_loop lm (k + 1) z radius points = Some (Returns tt, points ++ more)
    /\ Forall (within_reach lm) more.
Proof.
  intros Hk Hstop.
  destruct (radius_loop_iterations k 1 z radius points Hk)
    as (more & Hrun & Hmore).
  exists more. split; [|done]. rewrite Hrun. simpl. by rewrite Hstop.
Qed.

(** The [while] loop of one layer runs ten times and stops at its eleventh
    test, whatever the layer. *)
Lemma radius_loop_returns z points :
  exists more,
    radius_loop lm 11 z RADIUS_STEP points = Some (Returns tt, points ++ more)
    /\ Forall (within_reach lm) more.
Proof. exact (radius_loop_stops 10 z RADIUS_STEP points eq_refl eq_refl). Qed.

Lemma layer_loop_returns fuel layers points :
  (11 <= fuel)%nat ->
  exists more,
    layer_loop lm fuel layers points = Some (Returns tt, points ++ more)
    /\ Forall (within_reach lm) more.
Proof.
  intros Hfuel. revert points. induction layers as [|z layers IH]; intros points.
  - exists []. by rewrite app_nil_r.
  - simpl. destruct (radius_loop_returns z points) as (m1 & Hz & H1).
    rewrite (radius_loop_fuel_le 11 fuel _ _ _ _ Hfuel Hz).
    destruct (IH (points ++ m1)) as (m2 & -> & H2).
    exists (m1 ++ m2). split; [by rewrite app_assoc|by apply Forall_app].
Qed.

Hypothesis cos_zero : cos lm 0 = 1%float.
Hypothesis sin_zero : sin lm 0 = 0%float.
Hypothesis square_20 : pow lm 20 2 = 400%float.
Hypothesis square_0 : pow lm 0 2 = 0%float.
Hypothesis square_40 : pow lm 40 2 = 1600%float.

Lemma first_sample_xy : sample_xy lm RADIUS_STEP 0 = (20.0, 0.0)%float.
Proof.
  unfold sample_xy.
  change (fl 2 * math_pi * fl 0 / fl ANGLE_STEPS)%float with 0%float.
  rewrite cos_zero, sin_zero. reflexivity.
Qed.

Lemma first_sample_emitted :
  sample lm 40 RADIUS_STEP 0 [] = (Returns tt, [first_sample]).
Proof.
  unfold sample. rewrite first_sample_xy. unfold distance.
  rewrite square_20, square_0, square_40. reflexivity.
Qed.

Lemma first_layer_first_circle :
  exists more,
    angle_loop lm 40 RADIUS_STEP [] = (Returns tt, first_sample :: more)
    /\ Forall (within_reach lm) (first_sample :: more).
Proof.
  unfold angle_loop, bind, lift. rewrite angle_indices.
  change (for_each [0; 1; 2; 3; 4; 5; 6; 7; 8; 9; 10; 11]
            (sample lm 40 RADIUS_STEP) [])
    with (match sample lm 40 RADIUS_STEP 0 [] with
          | (Returns _, points') =>
              for_each [1; 2; 3; 4; 5; 6; 7; 8; 9; 10; 11]
                (sample lm 40 RADIUS_STEP) points'
          | (Raises e, points') => (Raises e, points')
          end).
  rewrite first_sample_emitted.
  destruct (samples_append 40 RADIUS_STEP [1; 2; 3; 4; 5; 6; 7; 8; 9; 10; 11]
              [first_sample]) as (more & -> & Hmore).
  exists more. split; [done|]. constructor; [|done].
  exists 20%float, 0%float, 40%float,
    [Py.Float 180.0; Py.Float 0.0; Py.Float 0.0],
    (PrimFloat.sqrt 2000).
  split; [reflexivity|]. unfold distance.
  rewrite square_20, square_0, square_40. split; reflexivity.
Qed.

(** C7. Given enough fuel for its [while] loops (eleven tests each), the
    polar generator returns a list of poses; every pose it emits has a
    distance from the origin, computed as the square root of the sum of
    the squares of its rounded x and y and of its layer height z, of at
    most 280.0; and the first pose, for the height 40.0, the radius 20.0
    and the angle index 0, is exactly (20.0, 0.0, 40.0, 180.0, 0.0, 0.0).
    The mathematical library is assumed to give cos 0 = 1, sin 0 = 0, exact
    squares of 20, 0 and 40, and a sum of squares that is never negative. *)
Theorem generate_points_within_reach (fuel : nat) :
  (11 <= fuel)%nat ->
  exists pts,
    generate_points lm fuel = Some (Returns pts)
    /\ Forall (within_reach lm) pts
    /\ (forall p, p ∈ pts ->
          exists x y z rest dist,
            p = Py.Float x :: Py.Float y :: Py.Float z :: rest
            /\ math_sqrt (pow lm x 2 + pow lm y 2 + pow lm z 2)%float = Returns dist
            /\ (dist <=? 280.0)%float = true)
    /\ head pts = Some [Py.Float 20.0; Py.Float 0.0; Py.Float 40.0;
                        Py.Float 180.0; Py.Float 0.0; Py.Float 0.0].
Proof.
  intros Hfuel.
  assert (Hgen : exists more,
    layer_loop lm fuel Z_LAYERS [] = Some (Returns tt, first_sample :: more)
    /\ Forall (within_reach lm) (first_sample :: more)).
  { unfold Z_LAYERS.
    destruct first_layer_first_circle as (m1 & Hcircle & H1).
    destruct (radius_loop_stops 9 40 (RADIUS_STEP + RADIUS_STEP)%float
                (first_sample :: m1) eq_refl eq_refl) as (m2 & Hlayer & H2).
    assert (Hfirst : radius_loop lm 11 40 RADIUS_STEP []
                     = Some (Returns tt, (first_sample :: m1) ++ m2)).
    { change 11%nat with (S (9 + 1)).
      change (radius_loop lm (S (9 + 1)) 40 RADIUS_STEP [])
        with (match angle_loop lm 40 RADIUS_STEP [] with
              | (Returns _, points') =>
                  radius_loop lm (9 + 1) 40 (RADIUS_STEP + RADIUS_STEP)%float points'
              | (Raises e, points') => Some (Raises e, points')
              end).
      by rewrite Hcircle. }
    change (layer_loop lm fuel [40%float; 100%float; 150%float; 200%float] [])
      with (match radius_loop lm fuel 40 RADIUS_STEP [] with
            | Some (Returns _, points') =>
                layer_loop lm fuel [100%float; 150%float; 200%float] points'
            | other => other
            end).
    rewrite (radius_loop_fuel_le 11 fuel _ _ _ _ Hfuel Hfirst).
    destruct (layer_loop_returns fuel [100%float; 150%float; 200%float]
                ((first_sample :: m1) ++ m2) Hfuel) as (m3 & -> & H3).
    exists (m1 ++ m2 ++ m3). split.
    - simpl. by rewrite <- app_assoc.
    - inversion H1; subst. constructor; [done|].
      by repeat (apply Forall_app; split). }
  destruct Hgen as (more & Hloop & Hall).
  exists (first_sample :: more). unfold generate_points. rewrite Hloop.
  split; [done|]. split; [done|]. split; [|done].
  intros p Hp. rewrite Forall_forall in Hall. exact (Hall p Hp).
Qed.

End PolarProps.

(** The stand-in library meets the assumptions made on the mathematical
    library. *)
Lemma generate_points_within_reach_witness :
  exists pts,
    PointGenerator.generate_points PointGenerator.sample_libm 11 = Some (Returns pts)
    /\ Forall (PointGenerator.within_reach PointGenerator.sample_libm) pts
    /\ (forall p, p ∈ pts ->
          exists x y z rest dist,
            p = Py.Float x :: Py.Float y :: Py.Float z :: rest
            /\ PointGenerator.math_sqrt
                 (PointGenerator.pow PointGenerator.sample_libm x 2
                  + PointGenerator.pow PointGenerator.sample_libm y 2
                  + PointGenerator.pow PointGenerator.sample_libm z 2)%float
               = Returns dist
            /\ (dist <=? 280.0)%float = true)
    /\ head pts = Some [Py.Float 20.0; Py.Float 0.0; Py.Float 40.0;
                        Py.Float 180.0; Py.Float 0.0; Py.Float 0.0].
Proof.
  apply (generate_points_within_reach PointGenerator.sample_libm).
  - intros x y z. apply squares_not_negative.
  - reflexivity.
  - reflexivity.
  - reflexivity.
  - reflexivity.
  - reflexivity.
  - lia.
Defined.

(* ===================================================================== *)
(** ** The window *)
(* ===================================================================== *)

Section GUIProps.
Import WorkspaceGUI.
Context {W : Type} `{World W}.

#[local] Instance same_preorder {A} (f : t W -> A) : PreOrder (same f).
Proof. split; unfold same; [by intros st|intros a b c; congruence]. Qed.

#[local] Instance calls_since_preorder ok : PreOrder (calls_since (W := W) ok).
Proof.
  split.
  - intros st. exists []. by rewrite app_nil_r.
  - intros a b c (k1 & H1 & Hk1) (k2 & H2 & Hk2). exists (k1 ++ k2).
    rewrite H2, H1, <- app_assoc. by rewrite forallb_app, Hk1, Hk2.
Qed.

Ltac preorder_conj :=
  split;
  [ intros st; repeat split; reflexivity
  | intros a b c Hab Hbc; unfold same in *;
    repeat match goal with H : _ /\ _ |- _ => destruct H end;
    repeat split; try congruence;
    try (etrans; eassumption) ].

#[local] Instance quiet_preorder : PreOrder (quiet (W := W)).
Proof. unfold quiet. preorder_conj. Qed.

#[local] Instance calm_preorder : PreOrder (calm (W := W)).
Proof.
  split.
  - intros st. split; reflexivity.
  - intros a b c [Hab Hab'] [Hbc Hbc']. split; etrans; eassumption.
Qed.

#[local] Instance keeps_flags_preorder : PreOrder (keeps_flags (W := W)).
Proof. unfold keeps_flags. preorder_conj. Qed.

#[local] Instance stays_stopped_preorder : PreOrder (stays_stopped (W := W)).
Proof. split; unfold stays_stopped; [by intros st|intros a b c; auto]. Qed.

#[local] Instance only_readout_preorder : PreOrder (only_readout (W := W)).
Proof. unfold only_readout. preorder_conj. Qed.

Lemma within_on_canvas {A} (R : t W -> t W -> Prop) (p : Prog MplCanvas.t A) :
  (forall st cv, R st (set_canvas cv st)) -> within R (on_canvas p).
Proof.
  intros HR st. unfold on_canvas. destruct (p (canvas st)) as [o cv]. apply HR.
Qed.

Lemma within_on_world {A} (R : t W -> t W -> Prop) (p : Prog W A) :
  (forall st w, R st (set_world w st)) -> within R (on_world p).
Proof.
  intros HR st. unfold on_world. destruct (p (world st)) as [o w]. apply HR.
Qed.

Ltac leaf :=
  intros;
  unfold calm, quiet, keeps_flags, stays_stopped, only_readout, same in *;
  simpl; repeat split; try reflexivity; try done;
  try (exists []; by rewrite app_nil_r);
  try (eexists [_]; split; reflexivity).

Ltac gui_unfold :=
  unfold handle, run_callback, check_robot_status, evaluate_point,
    update_live_pose, set_pose_label, singleShot, export_log, clear_log,
    open_w, writerow, jog_axis, clear_stop, go_home, emergency_stop,
    toggle_pause, start_exploration, color_current_point, skip_point,
    move_to_next_point, attempt_stop_api, safe_mc_is_moving,
    safe_mc_get_coords, safe_mc_send_coords, log, print, mc_call.

Ltac within_step :=
  match goal with
  | |- within _ (bind _ _) => apply within_bind; [apply _| |intros ?]
  | |- within _ (try_except _ _) => apply within_try; [apply _| |intros ?]
  | |- within _ (ret _) => apply within_ret, _
  | |- within _ (raise _) => apply within_raise, _
  | |- within _ (lift _) => apply within_lift, _
  | |- within _ get => apply within_get, _
  | |- within _ (modify _) => apply within_modify; leaf
  | |- within _ (on_canvas _) => apply within_on_canvas; leaf
  | |- within _ (on_world _) => apply within_on_world; leaf
  | |- within _ (for_each _ _) => apply within_for_each; [apply _|intros ?]
  | |- within _ (if ?b then _ else _) => destruct b
  | |- within _ (match ?x with _ => _ end) => destruct x
  end.

Ltac within_auto := gui_unfold; repeat within_step.

Ltac total_step :=
  match goal with
  | |- total (bind _ _) => apply total_bind; [|intros ?]
  | |- total (try_except _ _) => apply total_try; intros ?
  | |- total (ret _) => apply total_ret
  | |- total get => apply total_get
  | |- total (modify _) => apply total_modify
  | |- total (if ?b then _ else _) => destruct b
  | |- total (match ?x with _ => _ end) => destruct x
  end.

Ltac total_auto := gui_unfold; repeat total_step.

(** *** The defensive wrappers never raise *)

Lemma total_log m : total (log (W := W) m).
Proof. total_auto. Qed.

Lemma total_print m : total (print (W := W) m).
Proof. total_auto. Qed.

Lemma total_safe_mc_send_coords coords speed :
  total (safe_mc_send_coords (W := W) coords speed).
Proof. total_auto. Qed.

Lemma total_safe_mc_get_coords : total (safe_mc_get_coords (W := W)).
Proof. total_auto. Qed.

Lemma total_safe_mc_is_moving : total (safe_mc_is_moving (W := W)).
Proof. total_auto. Qed.

Lemma total_attempt_stop_api : total (attempt_stop_api (W := W)).
Proof. total_auto. Qed.

Lemma total_update_live_pose : total (update_live_pose (W := W)).
Proof. total_auto. Qed.

Lemma total_emergency_stop : total (emergency_stop (W := W)).
Proof. total_auto. Qed.

(** *** What the wrappers leave alone *)

Lemma calm_log m : within calm (log (W := W) m).
Proof. within_auto. Qed.

Lemma calm_safe_mc_get_coords : within calm (safe_mc_get_coords (W := W)).
Proof. within_auto. Qed.

Lemma calm_safe_mc_is_moving : within calm (safe_mc_is_moving (W := W)).
Proof. within_auto. Qed.

Lemma calm_update_live_pose : within calm (update_live_pose (W := W)).
Proof. within_auto. Qed.

Lemma only_readout_update_live_pose :
  within only_readout (update_live_pose (W := W)).
Proof. within_auto. Qed.

(** What [log] does. *)
Lemma log_appends m (st : t W) :
  log m st
  = (Returns tt,
     set_console (st.(console) ++ [(Some (strftime "%H:%M:%S" st.(world)), m)])
       (set_status_box (st.(status_box) ++ [(strftime "%H:%M:%S" st.(world), m)])
          st)).
Proof. reflexivity. Qed.

(** *** Emergency stop *)

Lemma emergency_stop_sets_flags (st : t W) :
  exists st',
    emergency_stop st = (Returns tt, st')
    /\ st'.(stopped) = true /\ st'.(paused) = true /\ st'.(pause_btn) = true.
Proof.
  destruct (total_emergency_stop st) as [[] Hret].
  assert (Hflags : wp emergency_stop
            (fun _ st' => st'.(stopped) = true /\ st'.(paused) = true
                          /\ st'.(pause_btn) = true)
            (fun _ _ => True) st).
  { unfold emergency_stop.
    do 3 (apply wp_bind, wp_modify).
    apply (wp_within (fun a b => keeps_flags a b /\ same pause_btn a b));
      [|intros _ s' [[Hs Hp] Hb]; unfold same in *; simpl in *; by rewrite Hs, Hp, Hb
       |done].
    assert (PreOrder (fun a b : t W => keeps_flags a b /\ same pause_btn a b)).
    { split; [by intros st0|].
      intros a b c [Hab Hab'] [Hbc Hbc']. split; etrans; eassumption. }
    within_auto. }
  unfold wp in Hflags. destruct (emergency_stop st) as [[[]|e] st'];
    simpl in Hret; [|discriminate].
  by exists st'.
Qed.

Lemma start_exploration_refused (st : t W) :
  st.(stopped) = true ->
  start_exploration st
  = log (Msg "System stopped. Clear stop to start." []) st.
Proof. intros Hs. unfold start_exploration, bind, get. by rewrite Hs. Qed.

Lemma stays_stopped_handle ev :
  ev <> ClickReset -> within stays_stopped (handle (W := W) ev).
Proof. intros Hev. destruct ev; try done; within_auto. Qed.

Lemma stays_stopped_run_events evs (st : t W) :
  ClickReset ∉ evs -> stays_stopped st (run_events evs st).
Proof.
  revert st. induction evs as [|ev evs IH]; intros st Hevs; [done|].
  apply not_elem_of_cons in Hevs as [Hev Hevs]. simpl.
  etrans; [apply (stays_stopped_handle ev); congruence|by apply IH].
Qed.

Lemma clear_stop_clears (st : t W) : (snd (clear_stop st)).(stopped) = false.
Proof.
  assert (Hwp : wp clear_stop (fun _ st' => st'.(stopped) = false)
                  (fun _ st' => st'.(stopped) = false) st).
  { unfold clear_stop. apply wp_bind, wp_get.
    destruct (stopped st) eqn:Hs; [|done].
    apply wp_bind.
    apply (wp_within_total (same stopped)); [within_auto|apply total_print|].
    intros _ s1 _. apply wp_bind, wp_modify.
    apply (wp_within (same stopped)); [within_auto|by intros _ s2 ->..]. }
  unfold wp in Hwp. by destruct (clear_stop st) as [[[]|e] st'].
Qed.

(** C3. An emergency stop returns without raising and leaves both
    [stopped] and [paused] true, whatever the arm does (no handle, no stop
    capability, a call that raises).  From then on, after any events other
    than a click on "Clear Stop / Reset", [stopped] is still true, and a
    call of [start_exploration] is refused: it only logs
    "System stopped. Clear stop to start.", makes no call on the arm and
    leaves the run state as it is.  [clear_stop] then clears the flag. *)
Theorem emergency_stop_latches (st0 : t W) (evs : list event) :
  ClickReset ∉ evs ->
  exists st1,
    emergency_stop st0 = (Returns tt, st1)
    /\ st1.(stopped) = true /\ st1.(paused) = true
    /\ let st2 := run_events evs st1 in
       st2.(stopped) = true
       /\ (exists st3,
             start_exploration st2 = (Returns tt, st3)
             /\ st3.(status_box)
                = st2.(status_box)
                  ++ [(strftime "%H:%M:%S" st2.(world),
                       Msg "System stopped. Clear stop to start." [])]
             /\ st3.(trace) = st2.(trace)
             /\ st3.(stopped) = true
             /\ st3.(current_index) = st2.(current_index)
             /\ st3.(robot_busy) = st2.(robot_busy)
             /\ st3.(world) = st2.(world))
       /\ (snd (clear_stop st2)).(stopped) = false.
Proof.
  intros Hevs.
  destruct (emergency_stop_sets_flags st0) as (st1 & Hstop & Hs & Hp & _).
  exists st1. split; [done|]. split; [done|]. split; [done|].
  assert (Hs2 : (run_events evs st1).(stopped) = true)
    by (by apply stays_stopped_run_events).
  simpl. split; [done|]. split; [|apply clear_stop_clears].
  rewrite start_exploration_refused, log_appends by done.
  eexists. split; [reflexivity|]. simpl. by rewrite Hs2.
Qed.

(** *** The tick *)

Lemma quiet_on_canvas {A} (p : Prog MplCanvas.t A) :
  within calm (on_canvas (W := W) p).
Proof. within_auto. Qed.

(** An evaluation either returns, having recorded one result, or raises,
    having recorded none; in both cases it commands no move and leaves the
    cursor, the flags and the pending timers alone. *)
Lemma evaluate_point_records (st : t W) :
  wp evaluate_point
    (fun _ st' => quiet st st'
                  /\ length st'.(results) = S (length st.(results)))
    (fun _ st' => quiet st st' /\ st'.(results) = st.(results)) st.
Proof.
  unfold evaluate_point. apply wp_bind.
  apply (wp_within_total calm);
    [apply calm_safe_mc_get_coords|apply total_safe_mc_get_coords|].
  intros final s1 H1. apply wp_bind, wp_get. apply wp_bind, wp_lift.
  destruct (Py.getitem (points s1) (current_index s1)) as [target|e];
    [|by destruct H1].
  assert (Hrecord : forall r s,
    calm st s ->
    quiet st (set_results (results s ++ [r]) s)
    /\ length (results (set_results (results s ++ [r]) s))
       = S (length (results st))).
  { intros r s [Hq Hr]. split.
    - etrans; [exact Hq|]. leaf.
    - simpl. rewrite length_app, Hr. simpl. lia. }
  destruct final as [final|].
  - apply wp_bind, wp_lift.
    destruct (point_error final target) as [error|e]; [|by destruct H1].
    apply wp_bind, wp_lift.
    destruct (Py.to_float error) as [f|e]; [|by destruct H1].
    apply wp_bind.
    apply (wp_within_total calm); [apply calm_log|apply total_log|].
    intros _ s2 H2. apply wp_bind.
    apply (wp_within calm); [apply quiet_on_canvas| |].
    + intros _ s3 H3. apply wp_bind, wp_get. apply wp_modify.
      apply Hrecord. etrans; [exact H1|]. etrans; [exact H2|exact H3].
    + intros e s3 H3.
      assert (H13 : calm st s3)
        by (etrans; [exact H1|]; etrans; [exact H2|exact H3]).
      by destruct H13.
  - apply wp_bind.
    apply (wp_within_total calm); [apply calm_log|apply total_log|].
    intros _ s2 H2. apply wp_bind.
    apply (wp_within calm); [apply quiet_on_canvas| |].
    + intros _ s3 H3. apply wp_bind, wp_get. apply wp_modify.
      apply Hrecord. etrans; [exact H1|]. etrans; [exact H2|exact H3].
    + intros e s3 H3.
      assert (H13 : calm st s3)
        by (etrans; [exact H1|]; etrans; [exact H2|exact H3]).
      by destruct H13.
Qed.

Lemma check_robot_status_evaluates (st : t W) :
  wp check_robot_status
    (fun _ st' => st'.(results) = st.(results)
                  \/ (length st'.(results) = S (length st.(results))
                      /\ after_evaluation st st'))
    (fun _ st' => st'.(results) = st.(results)) st.
Proof.
  unfold check_robot_status. apply wp_bind.
  apply (wp_within_total calm);
    [apply calm_update_live_pose|apply total_update_live_pose|].
  intros _ s1 H1. apply wp_bind, wp_get.
  destruct ((length (points s1) <=? current_index s1)%nat
            || paused s1 || stopped s1) eqn:Hguard.
  { apply wp_ret. left. by destruct H1. }
  apply orb_false_elim in Hguard as [Hguard Hstopped].
  apply orb_false_elim in Hguard as [_ Hpaused].
  apply wp_bind.
  apply (wp_within_total calm);
    [apply calm_safe_mc_is_moving|apply total_safe_mc_is_moving|].
  intros moving s2 H2.
  assert (H12 : calm st s2) by (etrans; [exact H1|exact H2]).
  destruct moving; [apply wp_ret; left; by destruct H12|].
  apply wp_bind, wp_get.
  destruct (robot_busy s2); [|apply wp_ret; left; by destruct H12].
  apply wp_bind.
  pose proof (evaluate_point_records s2) as Heval. unfold wp in Heval |- *.
  destruct (evaluate_point s2) as [[[]|e] s3].
  - destruct Heval as [Hq Hlen].
    do 2 (apply wp_bind, wp_modify). apply wp_bind, wp_get.
    destruct H12 as [H12 Hres]. destruct H2 as [H2 _].
    assert (H13 : quiet st s3) by (etrans; [exact H12|exact Hq]).
    destruct H2 as (_ & _ & _ & Hp2 & Hs2 & _).
    destruct Hq as (_ & _ & _ & Hp3 & Hs3 & _).
    destruct H13 as (_ & Hidx & _ & _ & _ & Hshots & Hcalls).
    unfold same in *. simpl.
    rewrite Hp3, Hs3, Hp2, Hs2, Hpaused, Hstopped. simpl.
    unfold singleShot. apply wp_modify.
    right. split; [simpl; by rewrite Hlen, Hres|].
    unfold after_evaluation. simpl.
    rewrite Hidx, Hshots, Hp3, Hs3, Hp2, Hs2.
    repeat split; try done.
  - destruct Heval as [_ Hres]. destruct H12 as [_ Hres2].
    unfold same in *. by rewrite Hres.
Qed.

(** C4. In every tick that performs a point evaluation (one that records
    a Visit result), the tick returns with [robot_busy] false and
    [current_index] advanced by exactly one; neither [paused] nor [stopped]
    is set, and the follow-up move is left to a one-shot timer of 250 ms
    calling [move_to_next_point], appended to the pending timers; the tick
    itself commands no move of the arm. *)
Theorem tick_evaluation_defers_move (st : t W) :
  length (snd (check_robot_status st)).(results) <> length st.(results) ->
  exists st',
    check_robot_status st = (Returns tt, st')
    /\ length st'.(results) = S (length st.(results))
    /\ st'.(robot_busy) = false
    /\ st'.(current_index) = S st.(current_index)
    /\ st'.(paused) = false /\ st'.(stopped) = false
    /\ st'.(single_shots) = st.(single_shots) ++ [(250, MoveToNextPoint)]
    /\ exists calls,
         st'.(trace) = st.(trace) ++ calls
         /\ forallb (fun k => negb (is_move k)) calls = true.
Proof.
  intros Hrec. pose proof (check_robot_status_evaluates st) as Htick.
  unfold wp in Htick.
  destruct (check_robot_status st) as [[[]|e] st']; simpl in Hrec.
  - destruct Htick as [Hsame|[Hlen Hafter]]; [by rewrite Hsame in Hrec|].
    destruct Hafter as (Hb & Hi & Hshots & Hp & Hs & Hcalls).
    exists st'. by repeat split.
  - by rewrite Htick in Hrec.
Qed.

(** C8, as the code has it. When the pose set is exhausted, or [paused]
    or [stopped] is true, the tick returns without raising after its first
    step only: it reads the coordinates and refreshes the live pose
    readout, exactly as [update_live_pose] does, then stops.  It makes no
    [is_moving] query (the only call it can make on the arm is
    [get_coords]), performs no evaluation (the results are unchanged), and
    changes nothing else: the cursor, the run-state flags, the canvas, the
    status feed, the console, the timers and the files are as they were. *)
Theorem skipped_tick_only_reads_pose (st : t W) :
  (length st.(points) <= st.(current_index))%nat
  \/ st.(paused) = true \/ st.(stopped) = true ->
  exists st',
    check_robot_status st = (Returns tt, st')
    /\ update_live_pose st = (Returns tt, st')
    /\ only_readout st st'.
Proof.
  intros Hskip.
  pose proof (only_readout_update_live_pose st) as Hro.
  destruct (total_update_live_pose st) as [[] Hret].
  unfold check_robot_status, bind at 1.
  destruct (update_live_pose st) as [o s1]. simpl in Hret, Hro. subst o.
  exists s1. split; [|done].
  unfold bind, get.
  destruct Hro as (_ & Hpts & Hidx & _ & Hp & Hs & _). unfold same in *.
  rewrite Hpts, Hidx, Hp, Hs.
  destruct Hskip as [Hlen|[->| ->]].
  - apply Nat.leb_le in Hlen. by rewrite Hlen.
  - by rewrite orb_true_r.
  - by rewrite orb_true_r.
Qed.

(** *** Go home and reset *)

(** C1, where the code departs from it. With no connection handle
    ([self.mc] is [None]), [go_home] logs its message and then raises
    [AttributeError] to its caller; so does [clear_stop] when the stop was
    latched, after it has cleared [stopped]. *)
Theorem go_home_without_handle_raises (st : t W) :
  st.(mc) = None ->
  fst (go_home st) = Raises AttributeError
  /\ (st.(stopped) = true ->
      fst (clear_stop st) = Raises AttributeError
      /\ (snd (clear_stop st)).(stopped) = false).
Proof.
  intros Hmc. split.
  - unfold go_home, bind. rewrite log_appends.
    unfold mc_call, bind, get. simpl. by rewrite Hmc.
  - intros Hs. split; [|apply clear_stop_clears].
    unfold clear_stop, bind at 1, get at 1. rewrite Hs.
    unfold bind at 1, print at 1, modify at 1.
    unfold bind at 1, modify at 1.
    unfold bind at 1, mc_call at 1, bind at 1, get at 1. simpl.
    by rewrite Hmc.
Qed.

(** The window is constructed also when the connection fails, and then
    records the handle as absent. *)
Lemma init_without_connection (w w' : W) e :
  connect w = (Raises e, w') ->
  exists st, init w = Returns st /\ st.(mc) = None /\ st.(stopped) = false.
Proof.
  intros Hconn. unfold init. rewrite Hconn, default_grid_returns.
  pose proof spec_grid_drawable as Hd. revert Hd.
  generalize spec_grid. intros pts Hd. rewrite obind_returns.
  destruct (init_returns pts Hd) as (cv & Hcv & Hwf).
  rewrite Hcv, obind_returns.
  destruct (0 <? length pts)%nat.
  - unfold on_canvas. cbn [canvas].
    match goal with |- context [MplCanvas.highlight_point ?i cv] =>
      destruct (highlight_point_returns i cv Hwf) as [cv' ->] end.
    by eexists.
  - by eexists.
Qed.

(** When the handle is present and [send_angles] raises, [go_home] raises
    the same exception to its caller. *)
Lemma go_home_propagates (st : t W) h e w :
  st.(mc) = Some h ->
  send_angles [0; 0; 0; 0; 0; 0] 10 st.(world) = (Raises e, w) ->
  fst (go_home st) = Raises e.
Proof.
  intros Hmc Hsend. unfold go_home, bind. rewrite log_appends.
  unfold mc_call, bind, get. simpl. rewrite Hmc. unfold modify, on_world.
  simpl. by rewrite Hsend.
Qed.

(** *** Export *)

Lemma first_six_take {A} (l : list A) :
  (6 <= length l)%nat -> first_six l = Returns (take 6 l).
Proof.
  intros Hlen.
  destruct l as [|a0 [|a1 [|a2 [|a3 [|a4 [|a5 l]]]]]]; simpl in Hlen; try lia.
  reflexivity.
Qed.

Lemma csv_row_exportable r :
  exportable r ->
  exists row,
    csv_row r = Returns row
    /\ (r.(reached) = None -> reached_fields row = replicate 6 CNone).
Proof.
  intros [Htarget Hreached]. unfold csv_row.
  rewrite first_six_take by (by rewrite length_map).
  assert (Hcells : exists rcells,
    first_six (reached_or_none r) = Returns rcells
    /\ (r.(reached) = None -> rcells = replicate 6 CNone)).
  { unfold reached_or_none. destruct (reached r) as [[|c0 cs]|] eqn:Hr.
    - specialize (Hreached [] eq_refl). simpl in Hreached. lia.
    - specialize (Hreached (c0 :: cs) eq_refl).
      rewrite first_six_take by (by rewrite length_map). by eexists.
    - by eexists. }
  destruct Hcells as (rcells & -> & Hnone). simpl.
  eexists. split; [reflexivity|]. intros Hr. rewrite (Hnone Hr).
  unfold reached_fields.
  destruct (target r) as [|a0 [|a1 [|a2 [|a3 [|a4 [|a5 l]]]]]];
    simpl in Htarget; try lia.
  reflexivity.
Qed.

Lemma set_files_twice (a b : gmap string (list Row)) (st : t W) :
  set_files a (set_files b st) = set_files a st.
Proof. reflexivity. Qed.

Lemma writerow_appends fname row (st : t W) cur :
  st.(files) !! fname = Some cur ->
  write_fault fname (length cur) st.(world) = None ->
  writerow fname row st
  = (Returns tt, set_files (<[fname := cur ++ [row]]> st.(files)) st).
Proof.
  intros Hcur Hfault. unfold writerow, bind, get. rewrite Hcur. simpl.
  by rewrite Hfault.
Qed.

(** The loop of [export_log] on a file that holds [cur]. *)
Lemma write_rows fname rs : forall (st : t W) cur,
  st.(files) !! fname = Some cur ->
  (forall n, write_fault fname n st.(world) = None) ->
  Forall exportable rs ->
  exists rows,
    for_each rs (fun r => let* row := lift (csv_row r) in writerow fname row) st
    = (Returns tt, set_files (<[fname := cur ++ rows]> st.(files)) st)
    /\ Forall2 (fun r row =>
                  csv_row r = Returns row
                  /\ (r.(reached) = None
                      -> reached_fields row = replicate 6 CNone)) rs rows.
Proof.
  induction rs as [|r rs IH]; intros st cur Hcur Hfault Hrs.
  - exists []. split; [|constructor]. simpl. unfold ret.
    rewrite app_nil_r, insert_id by done. by destruct st.
  - inversion Hrs as [|? ? Hr Hrs']; subst.
    destruct (csv_row_exportable r Hr) as (row & Hrow & Hnone).
    simpl. unfold bind at 1, bind at 1, lift at 1. rewrite Hrow.
    rewrite (writerow_appends fname row st cur) by done.
    destruct (IH (set_files (<[fname := cur ++ [row]]> (files st)) st)
                (cur ++ [row])) as (rows & -> & Hrows).
    + simpl. apply lookup_insert_eq.
    + done.
    + done.
    + exists (row :: rows). split; [|by constructor].
      simpl. rewrite set_files_twice, insert_insert_eq.
      by rewrite <- app_assoc.
Qed.

(** C9. With no result recorded, [export_log] writes no file and only logs
    "No results to export.".  With N >= 1 results recorded, each with its
    six target components and, when it has a reading, its six reached
    components, and when neither [open] nor a write fails, it returns with
    the file holding exactly N + 1 rows: the header, then one row per
    result in recording order; and in the row of a result whose reading
    is absent the six reached-* fields are all [None], the absent marker
    handed to the CSV writer. *)
Theorem export_log_rows (st : t W) :
  (st.(results) = [] ->
   export_log st = log (Msg "No results to export." []) st
   /\ (snd (export_log st)).(files) = st.(files))
  /\ (st.(results) <> [] ->
      Forall exportable st.(results) ->
      open_fault (export_name st) st.(world) = None ->
      (forall n, write_fault (export_name st) n st.(world) = None) ->
      exists st' rows,
        export_log st = (Returns tt, st')
        /\ st'.(files) = <[export_name st := csv_header :: rows]> st.(files)
        /\ st'.(files) !! export_name st = Some (csv_header :: rows)
        /\ length (csv_header :: rows) = (length st.(results) + 1)%nat
        /\ Forall2 (fun r row =>
                      csv_row r = Returns row
                      /\ (r.(reached) = None
                          -> reached_fields row = replicate 6 CNone))
             st.(results) rows).
Proof.
  split.
  - intros Hnone. unfold export_log, bind, get. rewrite Hnone. simpl.
    by rewrite log_appends.
  - intros Hsome Hwf Hopen Hwrite.
    unfold export_log, bind at 1, get at 1.
    destruct (results st) as [|r0 rs] eqn:Hres; [done|].
    change (length (r0 :: rs) =? 0)%nat with false. cbv iota.
    fold (export_name st). unfold try_except.
    unfold bind at 1, open_w, bind at 1, get at 1. rewrite Hopen.
    unfold modify at 1. unfold bind at 1.
    rewrite (writerow_appends _ _ _ [])
      by (simpl; first [apply lookup_insert_eq|apply Hwrite]).
    unfold bind at 1.
    rewrite set_files_twice. simpl files at 1. rewrite insert_insert_eq.
    destruct (write_rows (export_name st) (r0 :: rs)
                (set_files (<[export_name st := [] ++ [csv_header]]> (files st)) st)
                [csv_header]) as (rows & -> & Hrows).
    + simpl. apply lookup_insert_eq.
    + done.
    + done.
    + rewrite log_appends. eexists _, rows. split; [reflexivity|].
      simpl. rewrite insert_insert_eq. split; [done|].
      split; [apply lookup_insert_eq|].
      split; [|done].
      apply Forall2_length in Hrows. simpl in *. lia.
Qed.

End GUIProps.

(** *** Point evaluation *)


(* ===================================================================== *)
(** ** The properties on the simulated world *)
(* ===================================================================== *)

Lemma go_home_without_handle_raises_witness :
  WorkspaceGUI.mc Sim.stopped_without_arm = None
  /\ WorkspaceGUI.stopped Sim.stopped_without_arm = true
  /\ fst (WorkspaceGUI.go_home Sim.stopped_without_arm) = Raises AttributeError
  /\ fst (WorkspaceGUI.clear_stop Sim.stopped_without_arm) = Raises AttributeError.
Proof.
  split; [reflexivity|]. split; [reflexivity|].
  destruct (go_home_without_handle_raises Sim.stopped_without_arm eq_refl)
    as [Hhome Hreset].
  split; [exact Hhome|]. exact (proj1 (Hreset eq_refl)).
Defined.

Lemma emergency_stop_latches_witness :
  (WorkspaceGUI.ClickReset
     ∉ [WorkspaceGUI.ClickStart; WorkspaceGUI.Tick; WorkspaceGUI.ClickPause;
        WorkspaceGUI.ClickJog 2 true; WorkspaceGUI.ClickSkip])
  /\ exists st1,
       WorkspaceGUI.emergency_stop (Sim.window None Sim.unplugged)
       = (Returns tt, st1)
       /\ WorkspaceGUI.stopped st1 = true /\ WorkspaceGUI.paused st1 = true
       /\ WorkspaceGUI.stopped
            (WorkspaceGUI.run_events
               [WorkspaceGUI.ClickStart; WorkspaceGUI.Tick;
                WorkspaceGUI.ClickPause; WorkspaceGUI.ClickJog 2 true;
                WorkspaceGUI.ClickSkip] st1) = true.
Proof.
  assert (Hevs : WorkspaceGUI.ClickReset
    ∉ [WorkspaceGUI.ClickStart; WorkspaceGUI.Tick; WorkspaceGUI.ClickPause;
       WorkspaceGUI.ClickJog 2 true; WorkspaceGUI.ClickSkip]).
  { rewrite !not_elem_of_cons. repeat split; try discriminate.
    apply not_elem_of_nil. }
  split; [exact Hevs|].
  destruct (emergency_stop_latches (Sim.window None Sim.unplugged) _ Hevs)
    as (st1 & Hstop & Hs & Hp & Hs2 & _).
  exists st1. repeat split; assumption.
Defined.

Lemma tick_evaluation_defers_move_witness :
  length (WorkspaceGUI.results
            (snd (WorkspaceGUI.check_robot_status (Sim.arrived Sim.off_by_six))))
  <> length (WorkspaceGUI.results (Sim.arrived Sim.off_by_six))
  /\ exists st',
       WorkspaceGUI.check_robot_status (Sim.arrived Sim.off_by_six)
       = (Returns tt, st')
       /\ WorkspaceGUI.robot_busy st' = false
       /\ WorkspaceGUI.current_index st' = 1%nat
       /\ WorkspaceGUI.single_shots st' = [(250, WorkspaceGUI.MoveToNextPoint)].
Proof.
  assert (Hrec :
    length (WorkspaceGUI.results
              (snd (WorkspaceGUI.check_robot_status (Sim.arrived Sim.off_by_six))))
    <> length (WorkspaceGUI.results (Sim.arrived Sim.off_by_six)))
    by (vm_compute; discriminate).
  split; [exact Hrec|].
  destruct (tick_evaluation_defers_move (Sim.arrived Sim.off_by_six) Hrec)
    as (st' & Htick & _ & Hbusy & Hidx & _ & _ & Hshots & _).
  exists st'. repeat split; assumption.
Defined.

Lemma skipped_tick_only_reads_pose_witness :
  WorkspaceGUI.paused (Sim.paused_window Sim.off_by_six) = true
  /\ exists st',
       WorkspaceGUI.check_robot_status (Sim.paused_window Sim.off_by_six)
       = (Returns tt, st')
       /\ WorkspaceGUI.only_readout (Sim.paused_window Sim.off_by_six) st'.
Proof.
  split; [reflexivity|].
  destruct (skipped_tick_only_reads_pose (Sim.paused_window Sim.off_by_six)
              (or_intror (or_introl eq_refl))) as (st' & Htick & _ & Hro).
  by exists st'.
Defined.

(** C8 fails as stated: a tick of the paused window, the arm at rest and
    readable, asks the arm for its coordinates and rewrites the live pose
    readout: the label of X goes from "N/A" to the reading. *)
Lemma paused_tick_updates_readout :
  WorkspaceGUI.paused (Sim.paused_window Sim.off_by_six) = true
  /\ WorkspaceGUI.pose_labels (Sim.paused_window Sim.off_by_six) !! "x"
     = Some (WorkspaceGUI.Text "N/A")
  /\ WorkspaceGUI.pose_labels
       (snd (WorkspaceGUI.check_robot_status (Sim.paused_window Sim.off_by_six)))
       !! "x" = Some (WorkspaceGUI.Fmt1 (Py.Float 3))
  /\ WorkspaceGUI.trace
       (snd (WorkspaceGUI.check_robot_status (Sim.paused_window Sim.off_by_six)))
     = [WorkspaceGUI.GetCoords]
  /\ snd (WorkspaceGUI.check_robot_status (Sim.paused_window Sim.off_by_six))
     <> Sim.paused_window Sim.off_by_six.
Proof.
  split; [reflexivity|]. split; [vm_compute; reflexivity|].
  split; [vm_compute; reflexivity|].
  assert (Htrace : WorkspaceGUI.trace
    (snd (WorkspaceGUI.check_robot_status (Sim.paused_window Sim.off_by_six)))
    = [WorkspaceGUI.GetCoords]) by (vm_compute; reflexivity).
  split; [exact Htrace|].
  intros Heq. rewrite Heq in Htrace. discriminate Htrace.
Qed.

Lemma export_log_rows_witness :
  WorkspaceGUI.results Sim.logged_window <> []
  /\ exists st' rows,
       WorkspaceGUI.export_log Sim.logged_window = (Returns tt, st')
       /\ WorkspaceGUI.files st' !! WorkspaceGUI.export_name Sim.logged_window
          = Some (WorkspaceGUI.csv_header :: rows)
       /\ length (WorkspaceGUI.csv_header :: rows) = 3%nat.
Proof.
  split; [discriminate|].
  destruct (proj2 (export_log_rows Sim.logged_window)) as
    (st' & rows & Hexp & _ & Hfile & Hlen & _).
  - discriminate.
  - repeat constructor; simpl; try lia; intros p Hp; inversion Hp; simpl; lia.
  - reflexivity.
  - intros n. reflexivity.
  - exists st', rows. repeat split; assumption.
Defined.

(* ===================================================================== *)
(** * Further properties *)
(* ===================================================================== *)

(** ** [range] and the rectangular grid, for any arguments *)

Section GridProps.

Lemma range_nonzero start stop step :
  step <> 0 -> Py.range start stop step = Returns (Py.range_values start stop step).
Proof.
  intros Hstep. unfold Py.range. by destruct (Z.eqb_spec step 0).
Qed.

(** What [range] yields for a positive step. *)
Lemma range_values_positive start stop step v :
  0 < step ->
  v ∈ Py.range_values start stop step
  <-> start <= v < stop /\ (v - start) mod step = 0.
Proof.
  intros Hstep. unfold Py.range_values, Py.range_len.
  destruct (Z.ltb_spec 0 step) as [_|]; [|lia].
  rewrite list_elem_of_fmap. split.
  - intros (k & -> & Hk). apply elem_of_seq in Hk as [_ Hk]. simpl in Hk.
    destruct (Z.ltb_spec start stop) as [Hlt|]; [|simpl in Hk; lia].
    assert (Hq : Z.of_nat k <= (stop - start - 1) / step) by lia.
    assert (step * ((stop - start - 1) / step) <= stop - start - 1)
      by (apply Z.mul_div_le; lia).
    split; [nia|].
    replace (start + step * Z.of_nat k - start) with (Z.of_nat k * step) by lia.
    apply Z_mod_mult.
  - intros [[Hlo Hhi] Hmod].
    exists (Z.to_nat ((v - start) / step)).
    assert (Hk : 0 <= (v - start) / step) by (apply Z.div_pos; lia).
    split.
    + rewrite Z2Nat.id by done.
      pose proof (Z_div_mod_eq_full (v - start) step). lia.
    + apply elem_of_seq. split; [lia|]. simpl.
      destruct (Z.ltb_spec start stop) as [_|]; [|lia].
      assert ((v - start) / step <= (stop - start - 1) / step)
        by (apply Z.div_le_mono; lia).
      lia.
Qed.

Lemma ofold_appends {A B} (g : A -> list B) (l : list A) (acc : list B) :
  ofold l (fun a points => Returns (points ++ g a)) acc
  = Returns (acc ++ (l ≫= g)).
Proof.
  revert acc. induction l as [|a l IH]; intros acc; simpl.
  - by rewrite app_nil_r.
  - rewrite IH. by rewrite app_assoc.
Qed.

Lemma ofold_ext {A B} (f g : A -> B -> outcome B) (l : list A) (acc : B) :
  (forall a b, f a b = g a b) -> ofold l f acc = ofold l g acc.
Proof.
  intros Hfg. revert acc. induction l as [|a l IH]; intros acc; simpl; [done|].
  rewrite Hfg. destruct (g a acc); simpl; [apply IH|done].
Qed.

Lemma length_bind_const {A B} (f : A -> list B) (l : list A) n :
  (forall a, length (f a) = n) -> length (l ≫= f) = (length l * n)%nat.
Proof.
  intros Hf. induction l as [|a l IH]; [done|].
  change ((a :: l) ≫= f) with (f a ++ (l ≫= f)).
  rewrite length_app, Hf, IH. simpl. lia.
Qed.

Lemma generate_grid_points_returns x_range y_range z_values step :
  step <> 0 ->
  generate_grid_points x_range y_range z_values step
  = Returns (grid_product x_range y_range z_values step).
Proof.
  intros Hstep. unfold generate_grid_points, grid_product.
  rewrite <- (app_nil_l (_ ≫= _)), <- ofold_appends.
  apply ofold_ext. intros z points.
  rewrite range_nonzero by done. rewrite obind_returns.
  rewrite <- ofold_appends. apply ofold_ext. intros x points'.
  rewrite range_nonzero by done. rewrite obind_returns.
  by rewrite <- ofold_appends.
Qed.

(** X1. For any ranges, any list of heights and any step other than zero,
    [generate_grid_points] returns the Cartesian product of the heights
    (outermost, in the given order), the values of [range] over X and
    the values of [range] over Y (innermost); the number of poses is the
    product of the three lengths. *)
Theorem generate_grid_points_product x_range y_range z_values step :
  step <> 0 ->
  generate_grid_points x_range y_range z_values step
  = Returns (grid_product x_range y_range z_values step)
  /\ length (grid_product x_range y_range z_values step)
     = (length z_values
        * (Z.to_nat (Py.range_len (fst x_range) (snd x_range + 1) step)
           * Z.to_nat (Py.range_len (fst y_range) (snd y_range + 1) step)))%nat.
Proof.
  intros Hstep. split.
  - by apply generate_grid_points_returns.
  - unfold grid_product.
    apply length_bind_const. intros z.
    rewrite (length_bind_const _ _
               (Z.to_nat (Py.range_len (fst y_range) (snd y_range + 1) step))).
    + unfold Py.range_values at 1. by rewrite length_map, length_seq.
    + intros x. rewrite (length_bind_const _ _ 1%nat) by done.
      unfold Py.range_values. rewrite length_map, length_seq. lia.
Qed.

Lemma generate_grid_points_product_witness :
  generate_grid_points (0, 10) (5, 0) [Py.Float 1.5] (-5)
  = Returns (grid_product (0, 10) (5, 0) [Py.Float 1.5] (-5))
  /\ length (grid_product (0, 10) (5, 0) [Py.Float 1.5] (-5)) = 0%nat.
Proof. apply (generate_grid_points_product (0, 10) (5, 0)). discriminate. Defined.

(** X2. With a step of zero [generate_grid_points] raises [ValueError] as
    soon as there is a height to loop over; with no height at all it
    returns the empty list, whatever the step. *)
Theorem generate_grid_points_zero_step x_range y_range z zs step :
  generate_grid_points x_range y_range (z :: zs) 0 = Raises ValueError
  /\ generate_grid_points x_range y_range [] step = Returns [].
Proof. split; reflexivity. Qed.

(** X3. For a positive step [generate_grid_points] returns, and a pose is
    in its list exactly when it is [x, y, z, 180.0, 0.0, 0.0] with [z] one
    of the heights and [x] and [y] inside their ranges, bounds included, at a
    whole number of steps from the lower bound.  So nothing is filtered out,
    and the upper bound of a range is visited exactly when it lies a whole
    number of steps from the lower one. *)
Theorem generate_grid_points_bounds x_range y_range z_values step :
  0 < step ->
  exists pts,
    generate_grid_points x_range y_range z_values step = Returns pts
    /\ forall p,
         p ∈ pts
         <-> exists x y z,
               p = [Py.Int x; Py.Int y; z;
                    Py.Float 180.0; Py.Float 0.0; Py.Float 0.0]
               /\ z ∈ z_values
               /\ fst x_range <= x <= snd x_range
               /\ (x - fst x_range) mod step = 0
               /\ fst y_range <= y <= snd y_range
               /\ (y - fst y_range) mod step = 0.
Proof.
  intros Hstep. exists (grid_product x_range y_range z_values step).
  split; [apply generate_grid_points_returns; lia|].
  intros p. unfold grid_product. rewrite list_elem_of_bind. split.
  - intros (z & Hp & Hz). apply list_elem_of_bind in Hp as (x & Hp & Hx).
    apply list_elem_of_bind in Hp as (y & Hp & Hy).
    apply list_elem_of_singleton in Hp.
    apply range_values_positive in Hx, Hy; try done.
    exists x, y, z. repeat split; try done; lia.
  - intros (x & y & z & -> & Hz & Hx & Hxm & Hy & Hym).
    exists z. split; [|done]. apply list_elem_of_bind. exists x. split.
    + apply list_elem_of_bind. exists y. split; [by apply list_elem_of_singleton|].
      apply range_values_positive; [done|]. split; [lia|done].
    + apply range_values_positive; [done|]. split; [lia|done].
Qed.

Lemma generate_grid_points_bounds_witness :
  exists pts,
    generate_grid_points (0, 25) (-5, 5) [Py.Int 7] 10 = Returns pts
    /\ [Py.Int 20; Py.Int 5; Py.Int 7; Py.Float 180.0; Py.Float 0.0; Py.Float 0.0]
         ∈ pts
    /\ [Py.Int 25; Py.Int 5; Py.Int 7; Py.Float 180.0; Py.Float 0.0; Py.Float 0.0]
         ∉ pts.
Proof.
  destruct (generate_grid_points_bounds (0, 25) (-5, 5) [Py.Int 7] 10)
    as (pts & Hgen & Hin); [lia|].
  exists pts. split; [exact Hgen|]. split.
  - apply Hin. exists 20, 5, (Py.Int 7). split; [reflexivity|].
    split; [by constructor|]. repeat split; try reflexivity; simpl; lia.
  - intros Hp. apply Hin in Hp as (x & y & z & Hp & _ & _ & Hmod & _).
    injection Hp as <- _ _. discriminate Hmod.
Defined.

End GridProps.

(** ** The canvas, for indices in range *)

Section CanvasMore.
Import MplCanvas.




Lemma redraw_scatter cv :
  Forall drawable (points cv) ->
  exists x y z,
    redraw cv
    = (Returns tt, mk (points cv) (colors cv)
                      (Some (mkScatter x y z (colors cv))) (S (draws cv))).
Proof.
  intros Hd. unfold redraw, ax_scatter. prog_unfold. simpl.
  destruct (column_drawable 0 (points cv)) as [x ->]; [lia|done|].
  destruct (column_drawable 1 (points cv)) as [y ->]; [lia|done|].
  destruct (column_drawable 2 (points cv)) as [z ->]; [lia|done|].
  simpl. by exists x, y, z.
Qed.

(** X5. On a well-formed canvas, [update_point_color] with an index in
    range returns without raising, gives that marker the colour, leaves
    every other marker and the pose set as they were, and redraws once: the
    new scatter carries the updated colour array. *)
Theorem update_point_color_sets_marker (cv : t) (index : Z) (color : Color) :
  wf cv ->
  0 <= index < Z.of_nat (length (points cv)) ->
  exists cv' x y z,
    update_point_color index color cv = (Returns tt, cv')
    /\ colors cv' !! Z.to_nat index = Some color
    /\ (forall j, j <> Z.to_nat index -> colors cv' !! j = colors cv !! j)
    /\ length (colors cv') = length (colors cv)
    /\ points cv' = points cv
    /\ draws cv' = S (draws cv)
    /\ scatter cv' = Some (mkScatter x y z (colors cv')).
Proof.
  intros [Hlen Hd] Hidx.
  assert (Hr : in_range index cv = true).
  { unfold in_range. apply andb_true_intro. split; lia. }
  unfold update_point_color. unfold bind at 1, get at 1. rewrite Hr. simpl.
  unfold bind at 1.
  rewrite colors_setitem_in_range by lia.
  match goal with |- context [redraw ?c] =>
    destruct (redraw_scatter c) as (x & y & z & ->); [done|] end.
  eexists _, x, y, z. split; [reflexivity|]. simpl.
  split; [apply list_lookup_insert_eq; lia|].
  split; [intros j Hj; by apply list_lookup_insert_ne|].
  split; [apply length_insert|done].
Qed.

Lemma update_point_color_sets_marker_witness :
  exists cv' x y z,
    update_point_color 1 GRAY Sim.fresh_canvas = (Returns tt, cv')
    /\ colors cv' !! Z.to_nat 1 = Some GRAY
    /\ (forall j, j <> Z.to_nat 1 -> colors cv' !! j = colors Sim.fresh_canvas !! j)
    /\ length (colors cv') = length (colors Sim.fresh_canvas)
    /\ points cv' = points Sim.fresh_canvas
    /\ draws cv' = S (draws Sim.fresh_canvas)
    /\ scatter cv' = Some (mkScatter x y z (colors cv')).
Proof.
  apply (update_point_color_sets_marker Sim.fresh_canvas 1 GRAY).
  - split; [reflexivity|]. repeat constructor.
  - simpl. lia.
Defined.

(** X6. On a well-formed canvas, [highlight_point] with an index in range
    returns without raising and leaves that marker yellow; every other
    marker keeps its colour when it equals the success white or the failure
    red, and is blue otherwise.  So the yellow of an earlier highlight, the
    gray of an unreadable point and the green of a manual mark do not
    survive, while white and red do. *)
Theorem highlight_point_sets_marker (cv : t) (index : Z) :
  wf cv ->
  0 <= index < Z.of_nat (length (points cv)) ->
  exists cv',
    highlight_point index cv = (Returns tt, cv')
    /\ colors cv' !! Z.to_nat index = Some YELLOW
    /\ (forall j c, j <> Z.to_nat index -> colors cv !! j = Some c ->
          colors cv' !! j
          = Some (if color_in c [WHITE; RED] then c else BLUE))
    /\ length (colors cv') = length (colors cv)
    /\ points cv' = points cv
    /\ reset_color WHITE = WHITE /\ reset_color RED = RED
    /\ reset_color YELLOW = BLUE /\ reset_color GRAY = BLUE
    /\ reset_color GREEN = BLUE /\ reset_color BLUE = BLUE.
Proof.
  intros Hwf Hidx.
  assert (Hr : in_range index cv = true).
  { unfold in_range. apply andb_true_intro. split; lia. }
  destruct (highlight_point_colors index cv Hwf) as [sc Hh].
  rewrite Hr in Hh. rewrite Hh. eexists. split; [reflexivity|]. simpl.
  destruct Hwf as [Hlen _].
  split; [apply list_lookup_insert_eq; rewrite length_map; lia|].
  split.
  { intros j c Hj Hc. rewrite list_lookup_insert_ne by done.
    by rewrite list_lookup_fmap, Hc. }
  split; [by rewrite length_insert, length_map|].
  split; [done|]. repeat split; reflexivity.
Qed.

Lemma highlight_point_sets_marker_witness :
  exists cv',
    highlight_point 1 Sim.highlighted_canvas = (Returns tt, cv')
    /\ colors cv' = [BLUE; YELLOW].
Proof.
  destruct (highlight_point_sets_marker Sim.highlighted_canvas 1)
    as (cv' & Hh & H1 & Hothers & Hlen & _).
  - split; [reflexivity|]. repeat constructor.
  - simpl. lia.
  - exists cv'. split; [exact Hh|].
    specialize (Hothers 0%nat YELLOW ltac:(discriminate) eq_refl).
    destruct (colors cv') as [|c0 [|c1 [|c2 l]]]; try discriminate Hlen.
    simpl in H1, Hothers. by injection H1 as ->; injection Hothers as ->.
Defined.

End CanvasMore.

(** ** The hardware wrappers *)

Ltac frame_leaf :=
  intros;
  unfold WorkspaceGUI.calm, WorkspaceGUI.quiet, WorkspaceGUI.keeps_flags,
    WorkspaceGUI.stays_stopped, WorkspaceGUI.only_readout,
    WorkspaceGUI.same in *;
  simpl; repeat split; try reflexivity; try done;
  try (exists []; by rewrite app_nil_r);
  try (eexists [_]; split; reflexivity).

Ltac frame_unfold :=
  unfold WorkspaceGUI.handle, WorkspaceGUI.run_callback,
    WorkspaceGUI.check_robot_status, WorkspaceGUI.evaluate_point,
    WorkspaceGUI.update_live_pose, WorkspaceGUI.set_pose_label,
    WorkspaceGUI.singleShot, WorkspaceGUI.export_log, WorkspaceGUI.clear_log,
    WorkspaceGUI.open_w, WorkspaceGUI.writerow, WorkspaceGUI.jog_axis,
    WorkspaceGUI.clear_stop, WorkspaceGUI.go_home,
    WorkspaceGUI.emergency_stop, WorkspaceGUI.toggle_pause,
    WorkspaceGUI.start_exploration, WorkspaceGUI.color_current_point,
    WorkspaceGUI.skip_point, WorkspaceGUI.move_to_next_point,
    WorkspaceGUI.attempt_stop_api, WorkspaceGUI.safe_mc_is_moving,
    WorkspaceGUI.safe_mc_get_coords, WorkspaceGUI.safe_mc_send_coords,
    WorkspaceGUI.log, WorkspaceGUI.print, WorkspaceGUI.mc_call.

Ltac frame_step :=
  match goal with
  | |- within _ (bind _ _) => apply within_bind; [apply _| |intros ?]
  | |- within _ (try_except _ _) => apply within_try; [apply _| |intros ?]
  | |- within _ (ret _) => apply within_ret, _
  | |- within _ (raise _) => apply within_raise, _
  | |- within _ (lift _) => apply within_lift, _
  | |- within _ get => apply within_get, _
  | |- within _ (modify _) => apply within_modify; frame_leaf
  | |- within _ (WorkspaceGUI.on_canvas _) => apply within_on_canvas; frame_leaf
  | |- within _ (WorkspaceGUI.on_world _) => apply within_on_world; frame_leaf
  | |- within _ (for_each _ _) => apply within_for_each; [apply _|intros ?]
  | |- within _ (if ?b then _ else _) => destruct b
  | |- within _ (match ?x with _ => _ end) => destruct x
  end.

Ltac frame_auto := frame_unfold; repeat frame_step.

Section Wrappers.
Import WorkspaceGUI.
Context {W : Type} `{World W}.

Lemma mc_call_present {A} k (p : Prog W A) (st : t W) h :
  st.(mc) = Some h ->
  mc_call k p st
  = (fst (p st.(world)),
     set_world (snd (p st.(world))) (set_trace (st.(trace) ++ [k]) st)).
Proof.
  intros Hmc. unfold mc_call, bind, get. rewrite Hmc.
  unfold modify, on_world. simpl. by destruct (p (world st)).
Qed.

Lemma handle_present (st : t W) h :
  st.(mc) = Some h -> negb (bool_decide (is_Some st.(mc))) = false.
Proof. intros ->. by rewrite bool_decide_eq_true_2. Qed.

Lemma mc_call_absent {A} k (p : Prog W A) (st : t W) :
  st.(mc) = None -> mc_call k p st = (Raises AttributeError, st).
Proof. intros Hmc. unfold mc_call, bind, get. by rewrite Hmc. Qed.

(** X7. With no connection handle none of the four defensive wrappers
    touches the arm or raises: [safe_mc_get_coords] returns [None],
    [safe_mc_is_moving] and [attempt_stop_api] return [False], each
    leaving the window exactly as it was, and [safe_mc_send_coords] only
    logs "No robot connected.", [robot_busy] unchanged. *)
Theorem wrappers_without_handle (st : t W) (coords : Pose) (speed : Z) :
  st.(mc) = None ->
  safe_mc_get_coords st = (Returns None, st)
  /\ safe_mc_is_moving st = (Returns false, st)
  /\ attempt_stop_api st = (Returns false, st)
  /\ safe_mc_send_coords coords speed st
     = log (Msg "No robot connected." []) st
  /\ (snd (safe_mc_send_coords coords speed st)).(robot_busy) = st.(robot_busy)
  /\ (snd (safe_mc_send_coords coords speed st)).(trace) = st.(trace).
Proof.
  intros Hmc.
  unfold safe_mc_get_coords, safe_mc_is_moving, attempt_stop_api,
    safe_mc_send_coords, bind, get.
  rewrite Hmc. repeat split; reflexivity.
Qed.

(** X8. With a handle, [safe_mc_send_coords] never raises and makes exactly
    one call, [send_coords(coords, speed, 0)], with the pose and the speed
    it was given: when the call returns, [robot_busy] is set and nothing
    is logged; when it raises, [robot_busy] is cleared and the failure is
    logged with the exception. *)
Theorem safe_mc_send_coords_with_handle (st : t W) h (coords : Pose) (speed : Z) :
  st.(mc) = Some h ->
  exists st',
    safe_mc_send_coords coords speed st = (Returns tt, st')
    /\ st'.(trace) = st.(trace) ++ [SendCoords coords speed 0]
    /\ st'.(world) = snd (send_coords coords speed 0 st.(world))
    /\ match fst (send_coords coords speed 0 st.(world)) with
       | Returns _ =>
           st'.(robot_busy) = true /\ st'.(status_box) = st.(status_box)
       | Raises e =>
           st'.(robot_busy) = false
           /\ st'.(status_box)
              = st.(status_box)
                ++ [(strftime "%H:%M:%S" st'.(world),
                     Msg "send_coords failed: {}" [AExn e])]
       end.
Proof.
  intros Hmc. unfold safe_mc_send_coords, bind at 1, get at 1.
  rewrite (handle_present st h Hmc). unfold try_except, bind at 1.
  rewrite (mc_call_present _ _ _ h Hmc).
  destruct (send_coords coords speed 0 (world st)) as [[[]|e] w]; simpl.
  - eexists. split; [reflexivity|]. by simpl.
  - unfold bind. rewrite log_appends. eexists. split; [reflexivity|]. by simpl.
Qed.

Lemma safe_mc_get_coords_present (st : t W) h :
  st.(mc) = Some h ->
  safe_mc_get_coords st
  = (Returns (match fst (get_coords st.(world)) with
              | Returns reading => reading
              | Raises _ => None
              end),
     set_world (snd (get_coords st.(world)))
       (set_trace (st.(trace) ++ [GetCoords]) st)).
Proof.
  intros Hmc.
  unfold safe_mc_get_coords, bind, get. rewrite (handle_present st h Hmc).
  unfold try_except. rewrite (mc_call_present _ _ _ h Hmc).
  by destruct (get_coords (world st)) as [[r|e] w].
Qed.

Lemma safe_mc_is_moving_present (st : t W) h :
  st.(mc) = Some h ->
  safe_mc_is_moving st
  = (Returns (match fst (is_moving st.(world)) with
              | Returns moving => moving
              | Raises _ => false
              end),
     set_world (snd (is_moving st.(world)))
       (set_trace (st.(trace) ++ [IsMoving]) st)).
Proof.
  intros Hmc.
  unfold safe_mc_is_moving, bind, get. rewrite (handle_present st h Hmc).
  unfold try_except. rewrite (mc_call_present _ _ _ h Hmc).
  by destruct (is_moving (world st)) as [[r|e] w].
Qed.

Lemma safe_mc_get_coords_absent (st : t W) :
  st.(mc) = None -> safe_mc_get_coords st = (Returns None, st).
Proof. intros Hmc. unfold safe_mc_get_coords, bind, get. by rewrite Hmc. Qed.

(** X9. With a handle, [safe_mc_get_coords] and [safe_mc_is_moving] each
    make their one query and never raise: they return what the arm
    returned, and [None] (respectively [False]) when the query raised;
    nothing but the record of the call and the world changes. *)
Theorem safe_queries_with_handle (st : t W) h :
  st.(mc) = Some h ->
  safe_mc_get_coords st
  = (Returns (match fst (get_coords st.(world)) with
              | Returns reading => reading
              | Raises _ => None
              end),
     set_world (snd (get_coords st.(world)))
       (set_trace (st.(trace) ++ [GetCoords]) st))
  /\ safe_mc_is_moving st
     = (Returns (match fst (is_moving st.(world)) with
                 | Returns moving => moving
                 | Raises _ => false
                 end),
        set_world (snd (is_moving st.(world)))
          (set_trace (st.(trace) ++ [IsMoving]) st)).
Proof.
  intros Hmc. split.
  - by eapply safe_mc_get_coords_present.
  - by eapply safe_mc_is_moving_present.
Qed.

(** X10. With a handle, [attempt_stop_api] never raises and returns [True]
    exactly when the connection has a [stop] method and the call of it
    returned: then it logs "Called mc.stop()".  When the method is missing
    it makes no call at all and changes nothing; when the call raises it
    logs the exception and returns [False]. *)
Theorem attempt_stop_api_with_handle (st : t W) h :
  st.(mc) = Some h ->
  exists st',
    attempt_stop_api st
    = (Returns (has_stop st.(world)
                && match fst (stop st.(world)) with
                   | Returns _ => true
                   | Raises _ => false
                   end), st')
    /\ (has_stop st.(world) = false -> st' = st)
    /\ (has_stop st.(world) = true ->
        st'.(trace) = st.(trace) ++ [Stop]
        /\ st'.(status_box)
           = st.(status_box)
             ++ [(strftime "%H:%M:%S" st'.(world),
                  match fst (stop st.(world)) with
                  | Returns _ => Msg "Called mc.stop()" []
                  | Raises e => Msg "mc.stop() raised: {}" [AExn e]
                  end)]).
Proof.
  intros Hmc. unfold attempt_stop_api, bind at 1, get at 1.
  rewrite (handle_present st h Hmc). unfold try_except, bind at 1, get at 1.
  destruct (has_stop (world st)) eqn:Hhas.
  - unfold bind at 1. rewrite (mc_call_present _ _ _ h Hmc).
    destruct (stop (world st)) as [[[]|e] w]; simpl;
      (eexists; split; [reflexivity|]; split; [done|]; by intros _).
  - exists st. split; [done|]. split; [done|]. done.
Qed.

End Wrappers.

Section WrappersSim.
Import WorkspaceGUI.

Lemma wrappers_without_handle_witness :
  safe_mc_get_coords (Sim.window None Sim.unplugged)
  = (Returns None, Sim.window None Sim.unplugged)
  /\ safe_mc_is_moving (Sim.window None Sim.unplugged)
     = (Returns false, Sim.window None Sim.unplugged).
Proof.
  destruct (wrappers_without_handle (Sim.window None Sim.unplugged)
              Sim.off_by_six 10) as (Hget & Hmoving & _); [reflexivity|].
  by split.
Defined.

Lemma safe_mc_send_coords_with_handle_witness :
  exists st',
    safe_mc_send_coords Sim.off_by_six 10
      (Sim.window (Some MyCobot) (Sim.resting Sim.off_by_six))
    = (Returns tt, st')
    /\ st'.(trace) = [SendCoords Sim.off_by_six 10 0]
    /\ st'.(robot_busy) = true.
Proof.
  destruct (safe_mc_send_coords_with_handle
              (Sim.window (Some MyCobot) (Sim.resting Sim.off_by_six))
              MyCobot Sim.off_by_six 10 eq_refl)
    as (st' & Hsend & Htrace & _ & Hbusy).
  exists st'. split; [exact Hsend|]. split; [exact Htrace|]. exact (proj1 Hbusy).
Defined.

Lemma safe_queries_with_handle_witness :
  safe_mc_get_coords (Sim.window (Some MyCobot) Sim.unplugged)
  = (Returns None,
     set_trace [GetCoords] (Sim.window (Some MyCobot) Sim.unplugged)).
Proof.
  exact (proj1 (safe_queries_with_handle
                  (Sim.window (Some MyCobot) Sim.unplugged) MyCobot eq_refl)).
Defined.

Lemma attempt_stop_api_with_handle_witness :
  exists st',
    attempt_stop_api (Sim.window (Some MyCobot) (Sim.resting Sim.off_by_six))
    = (Returns true, st')
    /\ st'.(trace) = [Stop].
Proof.
  destruct (attempt_stop_api_with_handle
              (Sim.window (Some MyCobot) (Sim.resting Sim.off_by_six))
              MyCobot eq_refl) as (st' & Hstop & _ & Hcall).
  exists st'. split; [exact Hstop|]. exact (proj1 (Hcall eq_refl)).
Defined.

End WrappersSim.

(** ** The operator's actions *)

Section Actions.
Import WorkspaceGUI.
Context {W : Type} `{World W}.

#[local] Instance same_pre {A} (f : t W -> A) : PreOrder (same f).
Proof. split; unfold same; [by intros st|intros a b c; congruence]. Qed.

#[local] Instance calls_since_pre ok : PreOrder (calls_since (W := W) ok).
Proof.
  split.
  - intros st. exists []. by rewrite app_nil_r.
  - intros a b c (k1 & H1 & Hk1) (k2 & H2 & Hk2). exists (k1 ++ k2).
    rewrite H2, H1, <- app_assoc. by rewrite forallb_app, Hk1, Hk2.
Qed.

Lemma attempt_stop_api_no_method (st : t W) h :
  st.(mc) = Some h -> has_stop st.(world) = false ->
  attempt_stop_api st = (Returns false, st).
Proof.
  intros Hmc Hhas. unfold attempt_stop_api, bind at 1, get at 1.
  rewrite (handle_present st h Hmc). unfold try_except, bind, get.
  by rewrite Hhas.
Qed.

(** The window once [emergency_stop] has set its flags and logged. *)
Lemma emergency_stop_unfold (st : t W) :
  emergency_stop st
  = (let* ok := attempt_stop_api in
     if negb ok then
       log (Msg ("mc.stop() not available or failed. Software pausing moves "
                 ++ "(no further commands will be sent).") []) ;;
       let* coords := safe_mc_get_coords in
       match coords with
       | Some (c0 :: cs) =>
           try_except
             (mc_call (SendCoords (c0 :: cs) 1 0) (send_coords (c0 :: cs) 1 0) ;;
              log (Msg "Issued low-speed hold command to current pose." []))
             (fun e => log (Msg "Fallback hold command failed: {}" [AExn e]))
       | _ => ret tt
       end
     else ret tt)
      (snd (log (Msg "EMERGENCY STOP triggered!" [])
              (set_pause_btn true (set_paused true (set_stopped true st))))).
Proof. reflexivity. Qed.

(** X11. When the connection has no [stop] method, an emergency stop falls
    back on a hold: it reads the coordinates once and, if the reading is a
    non-empty pose, re-sends that very pose at speed 1 in absolute mode;
    with no usable reading it sends nothing.  It never raises, even when
    the hold command does, and the fallback leaves [robot_busy] as it was. *)
Theorem emergency_stop_fallback_hold (st : t W) h :
  st.(mc) = Some h ->
  has_stop st.(world) = false ->
  exists st',
    emergency_stop st = (Returns tt, st')
    /\ st'.(trace)
       = st.(trace)
         ++ GetCoords
            :: match fst (get_coords st.(world)) with
               | Returns (Some (c0 :: cs)) => [SendCoords (c0 :: cs) 1 0]
               | _ => []
               end
    /\ st'.(stopped) = true /\ st'.(paused) = true
    /\ st'.(robot_busy) = st.(robot_busy).
Proof.
  intros Hmc Hhas. rewrite emergency_stop_unfold. rewrite log_appends.
  cbn [snd]. unfold bind at 1.
  rewrite (attempt_stop_api_no_method _ h) by done.
  cbn [negb]. cbv iota. unfold bind at 1. rewrite log_appends.
  unfold bind at 1. rewrite (safe_mc_get_coords_present _ h) by done.
  cbn [world set_console set_status_box set_pause_btn set_paused set_stopped].
  destruct (get_coords (world st)) as [[[[|c0 cs]|]|e] w]; cbn [fst snd];
    try (eexists; split; [reflexivity|]; simpl; by rewrite <- ?app_assoc).
  unfold try_except, bind at 1. rewrite (mc_call_present _ _ _ h) by done.
  destruct (send_coords (c0 :: cs) 1 0 _) as [[[]|e] w']; cbn [fst snd];
    rewrite log_appends;
    (eexists; split; [reflexivity|]; simpl; by rewrite <- ?app_assoc).
Qed.

(** X12. When the connection has a [stop] method and the call returns, an
    emergency stop makes that one call and nothing else on the arm: no
    coordinates are read and no hold command is sent. *)
Theorem emergency_stop_hardware_stop (st : t W) h :
  st.(mc) = Some h ->
  has_stop st.(world) = true ->
  fst (stop st.(world)) = Returns tt ->
  exists st',
    emergency_stop st = (Returns tt, st')
    /\ st'.(trace) = st.(trace) ++ [Stop]
    /\ st'.(stopped) = true /\ st'.(paused) = true.
Proof.
  intros Hmc Hhas Hstop. rewrite emergency_stop_unfold. rewrite log_appends.
  cbn [snd]. unfold bind at 1.
  unfold attempt_stop_api, bind at 1, get at 1.
  rewrite (handle_present _ h) by done.
  unfold try_except, bind at 1, get at 1.
  cbn [world set_console set_status_box set_pause_btn set_paused set_stopped].
  rewrite Hhas. unfold bind at 1. rewrite (mc_call_present _ _ _ h) by done.
  cbn [world set_console set_status_box set_pause_btn set_paused set_stopped].
  destruct (stop (world st)) as [o w]. simpl in Hstop. subst o. cbn [fst snd].
  unfold bind at 1. rewrite log_appends. unfold ret. cbn [negb]. cbv iota.
  eexists. split; [reflexivity|]. by simpl.
Qed.

(** X13. [clear_stop] does nothing at all when the stop is not latched:
    no servo is released, no home command is sent, nothing is printed. *)
Theorem clear_stop_not_stopped (st : t W) :
  st.(stopped) = false -> clear_stop st = (Returns tt, st).
Proof. intros Hs. unfold clear_stop, bind, get. by rewrite Hs. Qed.

(** X14. When the stop is latched, the handle is present and neither call
    raises, [clear_stop] clears [stopped], then releases the servos, sleeps
    and sends the all-zero joint angles at speed 10, in that order, and
    returns; it leaves [paused] as it was, so a reset after an emergency
    stop leaves the exploration paused. *)
Theorem clear_stop_sequence (st : t W) h :
  st.(stopped) = true ->
  st.(mc) = Some h ->
  fst (release_all_servos st.(world)) = Returns tt ->
  fst (send_angles [0; 0; 0; 0; 0; 0] 10
         (sleep (snd (release_all_servos st.(world))))) = Returns tt ->
  exists st',
    clear_stop st = (Returns tt, st')
    /\ st'.(stopped) = false
    /\ st'.(paused) = st.(paused)
    /\ st'.(trace)
       = st.(trace)
         ++ [ReleaseAllServos; Sleep; SendAngles [0; 0; 0; 0; 0; 0] 10].
Proof.
  intros Hs Hmc Hrel Hhome. unfold clear_stop, bind at 1, get at 1. rewrite Hs.
  unfold bind at 1, print at 1, modify at 1. unfold bind at 1, modify at 1.
  unfold bind at 1. rewrite (mc_call_present _ _ _ h) by done.
  cbn [world set_console set_stopped].
  destruct (release_all_servos (world st)) as [o w]. simpl in Hrel, Hhome.
  subst o. cbn [fst snd].
  unfold bind at 1, modify at 1. unfold bind at 1, modify at 1.
  unfold bind at 1, go_home, bind at 1. rewrite log_appends.
  rewrite (mc_call_present _ _ _ h) by done.
  cbn [world set_console set_status_box set_world set_trace set_stopped].
  destruct (send_angles _ _ (sleep w)) as [o w']. simpl in Hhome. subst o.
  cbn [fst snd]. unfold print, modify.
  eexists. split; [reflexivity|]. simpl. by rewrite <- !app_assoc.
Qed.

End Actions.

Section ActionsSim.
Import WorkspaceGUI.

Lemma emergency_stop_fallback_hold_witness :
  exists st',
    emergency_stop (Sim.window (Some MyCobot) Sim.holding) = (Returns tt, st')
    /\ st'.(trace) = [GetCoords; SendCoords Sim.off_by_six 1 0]
    /\ st'.(stopped) = true.
Proof.
  destruct (emergency_stop_fallback_hold
              (Sim.window (Some MyCobot) Sim.holding) MyCobot)
    as (st' & Hstop & Htrace & Hs & _); [reflexivity|reflexivity|].
  exists st'. split; [exact Hstop|]. split; [exact Htrace|exact Hs].
Defined.

Lemma emergency_stop_hardware_stop_witness :
  exists st',
    emergency_stop (Sim.window (Some MyCobot) (Sim.resting Sim.off_by_six))
    = (Returns tt, st')
    /\ st'.(trace) = [Stop].
Proof.
  destruct (emergency_stop_hardware_stop
              (Sim.window (Some MyCobot) (Sim.resting Sim.off_by_six)) MyCobot)
    as (st' & Hstop & Htrace & _); [reflexivity..|].
  by exists st'.
Defined.

Lemma clear_stop_not_stopped_witness :
  clear_stop (Sim.window None Sim.unplugged)
  = (Returns tt, Sim.window None Sim.unplugged).
Proof. apply (clear_stop_not_stopped (Sim.window None Sim.unplugged)). reflexivity. Defined.

Lemma clear_stop_sequence_witness :
  exists st',
    clear_stop (set_stopped true
                  (Sim.window (Some MyCobot) (Sim.resting Sim.off_by_six)))
    = (Returns tt, st')
    /\ st'.(stopped) = false
    /\ st'.(trace) = [ReleaseAllServos; Sleep; SendAngles [0; 0; 0; 0; 0; 0] 10].
Proof.
  destruct (clear_stop_sequence
              (set_stopped true
                 (Sim.window (Some MyCobot) (Sim.resting Sim.off_by_six)))
              MyCobot)
    as (st' & Hreset & Hs & _ & Htrace); [reflexivity..|].
  by exists st'.
Defined.

End ActionsSim.

(** ** Moves and jogs *)

Section Moves.
Import WorkspaceGUI.
Context {W : Type} `{World W}.

Lemma move_to_next_point_refused (st : t W) :
  st.(paused) || st.(stopped) = true ->
  move_to_next_point st
  = log (Msg "Move to next aborted: paused/stopped." []) st.
Proof. intros Hflags. unfold move_to_next_point, bind, get. by rewrite Hflags. Qed.

Lemma move_to_next_point_finished (st : t W) :
  st.(paused) || st.(stopped) = false ->
  (length st.(points) <= st.(current_index))%nat ->
  move_to_next_point st = log (Msg "Exploration finished." []) st.
Proof.
  intros Hflags Hend. unfold move_to_next_point, bind, get. rewrite Hflags.
  apply Nat.leb_le in Hend. by rewrite Hend.
Qed.

Lemma safe_mc_send_coords_present (st : t W) h (coords : Pose) (speed : Z) :
  st.(mc) = Some h ->
  exists st',
    safe_mc_send_coords coords speed st = (Returns tt, st')
    /\ st'.(trace) = st.(trace) ++ [SendCoords coords speed 0]
    /\ st'.(robot_busy)
       = match fst (send_coords coords speed 0 st.(world)) with
         | Returns _ => true
         | Raises _ => false
         end
    /\ st'.(current_index) = st.(current_index)
    /\ st'.(canvas) = st.(canvas)
    /\ st'.(results) = st.(results)
    /\ st'.(paused) = st.(paused) /\ st'.(stopped) = st.(stopped).
Proof.
  intros Hmc. unfold safe_mc_send_coords, bind at 1, get at 1.
  rewrite (handle_present st h Hmc). unfold try_except, bind at 1.
  rewrite (mc_call_present _ _ _ h Hmc).
  destruct (send_coords coords speed 0 (world st)) as [[[]|e] w]; simpl.
  - eexists. split; [reflexivity|]. by simpl.
  - eexists. split; [reflexivity|]. by simpl.
Qed.

(** X15. [move_to_next_point] refuses to move while [paused] or [stopped]
    is set, and when the cursor is at or past the end of the pose set: it
    then only logs ("Move to next aborted: paused/stopped." or
    "Exploration finished."), makes no call on the arm, and leaves the
    canvas, the cursor and [robot_busy] as they were. *)
Theorem move_to_next_point_refuses (st : t W) :
  st.(paused) = true \/ st.(stopped) = true
  \/ (length st.(points) <= st.(current_index))%nat ->
  exists st',
    move_to_next_point st = (Returns tt, st')
    /\ st'.(status_box)
       = st.(status_box)
         ++ [(strftime "%H:%M:%S" st.(world),
              if st.(paused) || st.(stopped)
              then Msg "Move to next aborted: paused/stopped." []
              else Msg "Exploration finished." [])]
    /\ st'.(trace) = st.(trace)
    /\ st'.(canvas) = st.(canvas)
    /\ st'.(current_index) = st.(current_index)
    /\ st'.(robot_busy) = st.(robot_busy).
Proof.
  intros Hrefuse. destruct (paused st || stopped st) eqn:Hflags.
  - rewrite move_to_next_point_refused, log_appends by done.
    eexists. split; [reflexivity|]. by simpl.
  - destruct Hrefuse as [Hp|[Hs|Hend]].
    + rewrite Hp in Hflags. discriminate.
    + rewrite Hs, orb_true_r in Hflags. discriminate.
    + rewrite move_to_next_point_finished, log_appends by done.
      eexists. split; [reflexivity|]. by simpl.
Qed.

(** X16. With neither flag set, the cursor inside the pose set, a canvas
    that draws this pose set and a handle, [move_to_next_point] returns
    without raising: the marker at the cursor is yellow, and exactly one
    command is sent, [send_coords(target, speed, 0)] with the pose at the
    cursor and the value of the speed slider, passed through as it is;
    [robot_busy] is set exactly when that call returned.  The cursor does
    not move and no result is recorded. *)
Theorem move_to_next_point_moves (st : t W) h target :
  st.(paused) = false -> st.(stopped) = false ->
  st.(points) !! st.(current_index) = Some target ->
  consistent st ->
  st.(mc) = Some h ->
  exists st',
    move_to_next_point st = (Returns tt, st')
    /\ MplCanvas.colors st'.(canvas) !! st.(current_index) = Some YELLOW
    /\ st'.(trace) = st.(trace) ++ [SendCoords target st.(speed_slider) 0]
    /\ st'.(robot_busy)
       = match fst (send_coords target st.(speed_slider) 0 st.(world)) with
         | Returns _ => true
         | Raises _ => false
         end
    /\ st'.(current_index) = st.(current_index)
    /\ st'.(results) = st.(results).
Proof.
  intros Hp Hs Htarget [Hwf Hpts] Hmc.
  pose proof (lookup_lt_Some _ _ _ Htarget) as Hlt.
  unfold move_to_next_point, bind at 1, get at 1. rewrite Hp, Hs. cbn [orb].
  rewrite (proj2 (Nat.leb_gt _ _) Hlt).
  unfold bind at 1, lift at 1, Py.getitem. rewrite Htarget.
  unfold bind at 1. rewrite log_appends. unfold bind at 1, on_canvas at 1.
  cbn [canvas set_console set_status_box].
  destruct (highlight_point_colors (Z.of_nat (current_index st)) (canvas st) Hwf)
    as [sc ->].
  assert (Hr : MplCanvas.in_range (Z.of_nat (current_index st)) (canvas st)
               = true).
  { unfold MplCanvas.in_range. rewrite Hpts. apply andb_true_intro. split; lia. }
  rewrite Hr, Nat2Z.id.
  match goal with |- context [safe_mc_send_coords _ _ ?s] =>
    destruct (safe_mc_send_coords_present s h target (speed_slider st))
      as (st' & -> & Htrace & Hbusy & Hidx & Hcanvas & Hres & _); [exact Hmc|]
  end.
  exists st'. split; [done|]. rewrite Hcanvas, Htrace, Hbusy, Hidx, Hres.
  simpl. split; [|done].
  destruct Hwf as [Hlen _].
  apply list_lookup_insert_eq. rewrite length_map, Hlen, Hpts. lia.
Qed.

(** X17. [jog_axis] is refused while [paused] or [stopped] is set: it only
    logs "Cannot jog while paused/stopped." and makes no call on the arm,
    not even to read the coordinates.  With neither flag set but no usable
    reading (no handle, a query that raises, or [None]), it logs
    "Cannot read current coords; abort jog." and sends no command. *)
Theorem jog_axis_refused (st : t W) (axis_index delta : Z) :
  (st.(paused) = true \/ st.(stopped) = true ->
   jog_axis axis_index delta st
   = log (Msg "Cannot jog while paused/stopped." []) st
   /\ (snd (jog_axis axis_index delta st)).(trace) = st.(trace))
  /\ (st.(paused) = false -> st.(stopped) = false ->
      fst (safe_mc_get_coords st) = Returns None ->
      jog_axis axis_index delta st
      = log (Msg "Cannot read current coords; abort jog." [])
          (snd (safe_mc_get_coords st))
      /\ forallb (fun k => negb (is_move k))
           (snd (jog_axis axis_index delta st)).(trace)
         = forallb (fun k => negb (is_move k)) st.(trace)).
Proof.
  split.
  - intros Hflags.
    assert (Hor : paused st || stopped st = true).
    { destruct Hflags as [-> | ->]; [done|apply orb_true_r]. }
    unfold jog_axis, bind, get. rewrite Hor. by rewrite log_appends.
  - intros Hp Hs Hread.
    assert (Hjog : jog_axis axis_index delta st
                   = log (Msg "Cannot read current coords; abort jog." [])
                       (snd (safe_mc_get_coords st))).
    { unfold jog_axis, bind at 1, get at 1. rewrite Hp, Hs.
      cbn [orb]. unfold bind at 1.
      destruct (safe_mc_get_coords st) as [o s1]. simpl in Hread. by subst o. }
    split; [exact Hjog|]. rewrite Hjog, log_appends. cbn [snd trace set_console
      set_status_box].
    destruct (mc st) as [h|] eqn:Hmc.
    + rewrite (safe_mc_get_coords_present st h Hmc). simpl.
      rewrite forallb_app. simpl. by rewrite andb_true_r.
    + by rewrite (safe_mc_get_coords_absent st Hmc).
Qed.

(** X18. With neither flag set, a handle and a reading [coords], jogging
    the axis 0, 1 or 2 by [delta] reads the coordinates once and sends
    exactly one command: the reading with [delta] added to that component
    and every other component, the orientation included, unchanged, at the
    speed of the slider, in absolute mode. *)
Theorem jog_axis_command (st : t W) h (axis_index delta : Z) coords v v' :
  st.(paused) = false -> st.(stopped) = false ->
  st.(mc) = Some h ->
  fst (get_coords st.(world)) = Returns (Some coords) ->
  0 <= axis_index <= 2 ->
  coords !! Z.to_nat axis_index = Some v ->
  Py.add v (Py.Int delta) = Returns v' ->
  exists st',
    jog_axis axis_index delta st = (Returns tt, st')
    /\ st'.(trace)
       = st.(trace)
         ++ [GetCoords;
             SendCoords (<[Z.to_nat axis_index := v']> coords)
               st.(speed_slider) 0]
    /\ (forall j, j <> Z.to_nat axis_index ->
          <[Z.to_nat axis_index := v']> coords !! j = coords !! j)
    /\ drop 3 (<[Z.to_nat axis_index := v']> coords) = drop 3 coords.
Proof.
  intros Hp Hs Hmc Hread Haxis Hv Hadd.
  unfold jog_axis, bind at 1, get at 1. rewrite Hp, Hs. cbn [orb].
  unfold bind at 1. rewrite (safe_mc_get_coords_present st h Hmc), Hread.
  assert (Hin : bool_decide (axis_index ∈ [0; 1; 2]) = true).
  { apply bool_decide_eq_true_2. rewrite !elem_of_cons. lia. }
  rewrite Hin. unfold bind at 1, bind at 1, lift at 1, Py.getitem. rewrite Hv.
  unfold bind at 1, lift at 1. rewrite Hadd.
  unfold lift at 1, Py.setitem.
  pose proof (lookup_lt_Some _ _ _ Hv) as Hlt.
  apply Nat.ltb_lt in Hlt. rewrite Hlt.
  unfold bind at 1. rewrite log_appends. unfold bind at 1, get at 1.
  match goal with |- context [safe_mc_send_coords ?c ?sp ?s] =>
    destruct (safe_mc_send_coords_present s h c sp)
      as (st' & -> & Htrace & _); [exact Hmc|]
  end.
  exists st'. split; [done|]. split.
  - rewrite Htrace. simpl. by rewrite <- app_assoc.
  - split; [intros j Hj; by apply list_lookup_insert_ne|].
    assert (Hn : (Z.to_nat axis_index < 3)%nat) by lia.
    by rewrite drop_insert_lt.
Qed.

End Moves.

Section MovesSim.
Import WorkspaceGUI.

Lemma move_to_next_point_refuses_witness :
  exists st',
    move_to_next_point (Sim.paused_window Sim.off_by_six) = (Returns tt, st')
    /\ st'.(trace) = [].
Proof.
  destruct (move_to_next_point_refuses (Sim.paused_window Sim.off_by_six))
    as (st' & Hmove & _ & Htrace & _); [by left|].
  by exists st'.
Defined.

Lemma move_to_next_point_moves_witness :
  exists st',
    move_to_next_point
      (Sim.window (Some MyCobot) (Sim.resting Sim.off_by_six))
    = (Returns tt, st')
    /\ MplCanvas.colors st'.(canvas) !! 0%nat = Some YELLOW
    /\ st'.(trace)
       = [SendCoords
            [Py.Int 0; Py.Int 0; Py.Int 100;
             Py.Float 180.0; Py.Float 0.0; Py.Float 0.0] 10 0]
    /\ st'.(robot_busy) = true.
Proof.
  destruct (move_to_next_point_moves
              (Sim.window (Some MyCobot) (Sim.resting Sim.off_by_six)) MyCobot
              [Py.Int 0; Py.Int 0; Py.Int 100;
               Py.Float 180.0; Py.Float 0.0; Py.Float 0.0])
    as (st' & Hmove & Hyellow & Htrace & Hbusy & _); try reflexivity.
  - split; [|reflexivity]. split; [reflexivity|]. repeat constructor.
  - by exists st'.
Defined.

Lemma jog_axis_refused_witness :
  jog_axis 2 15 (Sim.paused_window Sim.off_by_six)
  = log (Msg "Cannot jog while paused/stopped." [])
      (Sim.paused_window Sim.off_by_six).
Proof.
  apply (proj1 (jog_axis_refused (Sim.paused_window Sim.off_by_six) 2 15)).
  by left.
Defined.

(** The jog of the specification: from (10, 20, 30, 180, 0, 0), the axis 2
    by +15 commands (10, 20, 45, 180, 0, 0). *)
Lemma jog_axis_command_witness :
  exists st',
    jog_axis 2 15 (Sim.window (Some MyCobot) (Sim.resting Sim.jog_start))
    = (Returns tt, st')
    /\ st'.(trace)
       = [GetCoords;
          SendCoords [Py.Int 10; Py.Int 20; Py.Int 45;
                      Py.Int 180; Py.Int 0; Py.Int 0] 10 0].
Proof.
  destruct (jog_axis_command
              (Sim.window (Some MyCobot) (Sim.resting Sim.jog_start)) MyCobot
              2 15 Sim.jog_start (Py.Int 30) (Py.Int 45))
    as (st' & Hjog & Htrace & _); try reflexivity; [lia|].
  by exists st'.
Defined.

End MovesSim.

(** ** Skip, pause, start and manual colouring *)

Ltac rel_unfold :=
  unfold WorkspaceGUI.run_state_kept, WorkspaceGUI.cursor_kept,
    WorkspaceGUI.fixed_setup, WorkspaceGUI.grows, WorkspaceGUI.same in *.

Ltac rel_preorder :=
  split;
  [ intros st; rel_unfold; repeat split; reflexivity
  | intros a b c Hab Hbc; rel_unfold;
    repeat match goal with H : _ /\ _ |- _ => destruct H end;
    repeat split; congruence ].

Ltac rel_leaf := intros; rel_unfold; simpl; repeat split; reflexivity.

Ltac rel_step :=
  match goal with
  | |- within _ (bind _ _) => apply within_bind; [apply _| |intros ?]
  | |- within _ (try_except _ _) => apply within_try; [apply _| |intros ?]
  | |- within _ (ret _) => apply within_ret, _
  | |- within _ (raise _) => apply within_raise, _
  | |- within _ (lift _) => apply within_lift, _
  | |- within _ get => apply within_get, _
  | |- within _ (modify _) => apply within_modify; rel_leaf
  | |- within _ (WorkspaceGUI.on_canvas _) => apply within_on_canvas; rel_leaf
  | |- within _ (WorkspaceGUI.on_world _) => apply within_on_world; rel_leaf
  | |- within _ (for_each _ _) => apply within_for_each; [apply _|intros ?]
  | |- within _ (if ?b then _ else _) => destruct b
  | |- within _ (match ?x with _ => _ end) => destruct x
  end.

Ltac rel_auto := frame_unfold; repeat rel_step.

Section Controls.
Import WorkspaceGUI.
Context {W : Type} `{World W}.

#[local] Instance cursor_kept_pre : PreOrder (cursor_kept (W := W)).
Proof. rel_preorder. Qed.

#[local] Instance run_state_kept_pre : PreOrder (run_state_kept (W := W)).
Proof. rel_preorder. Qed.

Lemma cursor_kept_move_to_next_point :
  within cursor_kept (move_to_next_point (W := W)).
Proof. rel_auto. Qed.

Lemma skip_point_unfold (st : t W) :
  skip_point st
  = (if (S st.(current_index) <? length st.(points))%nat
     then move_to_next_point
     else print (Msg "[SKIP] Exploration finished." []))
      (set_current_index (S st.(current_index))
         (snd (print (Msg "[SKIP] Skipping point {}" [AIndex st.(current_index)])
                 st))).
Proof. reflexivity. Qed.

(** X19. [skip_point] advances the cursor by exactly one whatever the run
    state, also while paused or stopped or past the end, and whatever the
    arm does; it records no result and leaves the pause and stop flags as
    they were.  While paused or stopped, or when the new cursor is at or
    past the end, it returns having made no call on the arm. *)
Theorem skip_point_advances (st : t W) :
  (snd (skip_point st)).(current_index) = S st.(current_index)
  /\ (snd (skip_point st)).(results) = st.(results)
  /\ (snd (skip_point st)).(paused) = st.(paused)
  /\ (snd (skip_point st)).(stopped) = st.(stopped)
  /\ (st.(paused) = true \/ st.(stopped) = true
      \/ (length st.(points) <= S st.(current_index))%nat ->
      fst (skip_point st) = Returns tt
      /\ (snd (skip_point st)).(trace) = st.(trace)).
Proof.
  rewrite skip_point_unfold.
  set (s1 := set_current_index _ _).
  assert (Hs1 : cursor_kept (set_current_index (current_index s1) st) s1 )
    by (subst s1; rel_leaf).
  destruct (Nat.ltb_spec (S (current_index st)) (length (points st))) as [Hin|Hout].
  - pose proof (cursor_kept_move_to_next_point s1) as (Hi & Hr & Hp & Hs & _).
    unfold same in *. rewrite Hi, Hr, Hp, Hs.
    split; [done|]. split; [done|]. split; [done|]. split; [done|].
    intros Hrefuse.
    assert (Hflags : paused s1 || stopped s1 = true).
    { subst s1. simpl. destruct Hrefuse as [->|[->|Hend]];
        [done|apply orb_true_r|lia]. }
    rewrite move_to_next_point_refused, log_appends by done. by subst s1.
  - subst s1. simpl. repeat split; done.
Qed.

Lemma toggle_pause_unfold (st : t W) :
  toggle_pause st
  = (if st.(pause_btn) then log (Msg "Paused exploration." [])
     else
       log (Msg "Resumed exploration." []) ;;
       if negb st.(robot_busy) then move_to_next_point else ret tt)
      (set_paused st.(pause_btn) st).
Proof. reflexivity. Qed.

(** X20. After a click on the pause button, [paused] always equals the new
    state of the button, whatever the arm does.  A click that pauses, and a
    click that resumes while the arm is busy, only log a line and make no
    call on the arm; a click that resumes while the arm is idle goes on to
    [move_to_next_point] with [paused] already cleared. *)
Theorem click_pause_mirrors_button (st : t W) :
  (snd (handle ClickPause st)).(paused) = negb st.(pause_btn)
  /\ (snd (handle ClickPause st)).(pause_btn) = negb st.(pause_btn)
  /\ (st.(pause_btn) = false \/ st.(robot_busy) = true ->
      fst (handle ClickPause st) = Returns tt
      /\ (snd (handle ClickPause st)).(trace) = st.(trace))
  /\ (st.(pause_btn) = true -> st.(robot_busy) = false ->
      handle ClickPause st
      = move_to_next_point
          (snd (log (Msg "Resumed exploration." [])
                  (set_paused false (set_pause_btn false st))))).
Proof.
  assert (Hclick : handle ClickPause st
                   = toggle_pause (set_pause_btn (negb (pause_btn st)) st))
    by reflexivity.
  rewrite Hclick, toggle_pause_unfold.
  cbn [pause_btn robot_busy set_pause_btn].
  destruct (pause_btn st) eqn:Hbtn; cbn [negb].
  - (* the click resumes *)
    destruct (robot_busy st) eqn:Hbusy; cbn [negb].
    + unfold bind. rewrite log_appends. simpl.
      split; [done|]. split; [done|]. split; [done|]. by intros _ ?.
    + unfold bind. rewrite log_appends. cbn [fst snd].
      match goal with |- context [move_to_next_point ?s] =>
        pose proof (cursor_kept_move_to_next_point s) as (_ & _ & Hp & _ & Hb)
      end.
      unfold same in *. rewrite Hp, Hb.
      split; [done|]. split; [done|]. split; [|done].
      by intros [?|?].
  - rewrite log_appends. simpl.
    split; [done|]. split; [done|]. split; [done|]. by intros ?.
Qed.

Lemma start_exploration_unfold (st : t W) :
  st.(stopped) = false ->
  start_exploration st
  = (on_canvas
       (MplCanvas.highlight_point
          (Z.of_nat (if (length st.(points) <=? st.(current_index))%nat
                     then 0%nat else st.(current_index)))) ;;
     move_to_next_point)
      (snd ((log (Msg "Starting exploration." []) ;;
             if (length st.(points) <=? st.(current_index))%nat then
               modify (set_current_index 0%nat) ;;
               log (Msg "Restarting from index 0." [])
             else ret tt)
              (if st.(paused)
               then set_pause_btn false
                      (set_paused false
                         (snd (log (Msg "Resuming from paused state." []) st)))
               else st))).
Proof.
  intros Hs. unfold start_exploration, bind at 1, get at 1. rewrite Hs.
  destruct (paused st), (length (points st) <=? current_index st)%nat eqn:Hend;
    unfold bind, get, modify, ret; simpl; rewrite ?Hend; reflexivity.
Qed.

(** X21. When the stop is not latched, [start_exploration] leaves [paused]
    cleared (and the pause button unchecked if it was paused), and the
    cursor where it was, or at 0 if it was at or past the end of the pose
    set; it records no result and does not set [stopped], whatever the
    canvas and the arm do. *)
Theorem start_exploration_resumes (st : t W) :
  st.(stopped) = false ->
  (snd (start_exploration st)).(paused) = false
  /\ (snd (start_exploration st)).(pause_btn)
     = (if st.(paused) then false else st.(pause_btn))
  /\ (snd (start_exploration st)).(current_index)
     = (if (length st.(points) <=? st.(current_index))%nat
        then 0%nat else st.(current_index))
  /\ (snd (start_exploration st)).(stopped) = false
  /\ (snd (start_exploration st)).(results) = st.(results).
Proof.
  intros Hs. rewrite start_exploration_unfold by done.
  assert (Hw : forall i,
    within cursor_kept
      (on_canvas (W := W) (MplCanvas.highlight_point i) ;; move_to_next_point)).
  { intros i.
    apply within_bind; [apply _| |intros _; apply cursor_kept_move_to_next_point].
    apply within_on_canvas. rel_leaf. }
  match goal with |- context [(on_canvas (MplCanvas.highlight_point ?i) ;; _) ?s] =>
    destruct (Hw i s) as (Hi & Hr & Hp & Hst & Hb)
  end.
  unfold same in *.
  rewrite Hi, Hr, Hp, Hst, Hb.
  destruct (paused st) eqn:Hpa,
    (length (points st) <=? current_index st)%nat eqn:Hend;
    unfold bind, get, modify, ret; simpl; rewrite ?Hpa, ?Hs; done.
Qed.

Lemma run_state_kept_color : within run_state_kept (color_current_point (W := W)).
Proof. rel_auto. Qed.

(** X22. [color_current_point] never calls the arm and changes neither
    the cursor, nor the run-state flags, nor the results.  With the cursor
    inside the pose set of a consistent window it returns with the marker at
    the cursor green and every other marker as it was; with the cursor at
    or past the end it leaves the window exactly as it was. *)
Theorem color_current_point_marks (st : t W) :
  run_state_kept st (snd (color_current_point st))
  /\ ((length st.(points) <= st.(current_index))%nat ->
      color_current_point st = (Returns tt, st))
  /\ ((st.(current_index) < length st.(points))%nat -> consistent st ->
      fst (color_current_point st) = Returns tt
      /\ MplCanvas.colors (snd (color_current_point st)).(canvas)
         = <[st.(current_index) := GREEN]> (MplCanvas.colors st.(canvas))).
Proof.
  split; [apply run_state_kept_color|]. split.
  - intros Hend. unfold color_current_point, bind, get.
    by rewrite (proj2 (Nat.ltb_ge _ _) Hend).
  - intros Hin [Hwf Hpts].
    assert (Hr : MplCanvas.in_range (Z.of_nat (current_index st)) (canvas st)
                 = true).
    { unfold MplCanvas.in_range. rewrite Hpts. apply andb_true_intro. split; lia. }
    destruct (update_point_color_in_range (Z.of_nat (current_index st)) GREEN
                (canvas st) Hwf Hr) as [sc Hup].
    assert (Hcol : color_current_point st
                   = (Returns tt,
                      set_canvas
                        (MplCanvas.mk (MplCanvas.points (canvas st))
                           (<[st.(current_index) := GREEN]>
                              (MplCanvas.colors (canvas st)))
                           (Some sc) (S (MplCanvas.draws (canvas st))))
                        (snd (print (Msg "[COLOR] Coloring point {} green"
                                       [AIndex st.(current_index)]) st)))).
    { unfold color_current_point, bind at 1, get at 1.
      rewrite (proj2 (Nat.ltb_lt _ _) Hin). unfold bind, print, modify.
      unfold on_canvas. cbn [canvas set_console].
      by rewrite Hup, Nat2Z.id. }
    by rewrite Hcol.
Qed.

End Controls.

Section ControlsSim.
Import WorkspaceGUI.

Lemma start_exploration_resumes_witness :
  (snd (start_exploration (Sim.paused_window Sim.off_by_six))).(paused) = false
  /\ (snd (start_exploration (Sim.paused_window Sim.off_by_six))).(current_index)
     = 0%nat.
Proof.
  destruct (start_exploration_resumes (Sim.paused_window Sim.off_by_six))
    as (Hp & _ & Hi & _); [reflexivity|].
  split; [exact Hp|exact Hi].
Defined.

Lemma skip_point_advances_witness :
  (snd (skip_point (Sim.paused_window Sim.off_by_six))).(current_index) = 1%nat
  /\ fst (skip_point (Sim.paused_window Sim.off_by_six)) = Returns tt
  /\ (snd (skip_point (Sim.paused_window Sim.off_by_six))).(trace) = [].
Proof.
  destruct (skip_point_advances (Sim.paused_window Sim.off_by_six))
    as (Hi & _ & _ & _ & Hquiet).
  split; [exact Hi|]. apply Hquiet. by left.
Defined.

Lemma click_pause_mirrors_button_witness :
  (snd (handle ClickPause (Sim.arrived Sim.off_by_six))).(paused) = true
  /\ fst (handle ClickPause (Sim.arrived Sim.off_by_six)) = Returns tt
  /\ (snd (handle ClickPause (Sim.arrived Sim.off_by_six))).(trace) = [].
Proof.
  destruct (click_pause_mirrors_button (Sim.arrived Sim.off_by_six))
    as (Hp & _ & Hquiet & _).
  split; [exact Hp|]. apply Hquiet. by left.
Defined.

Lemma color_current_point_marks_witness :
  fst (color_current_point (Sim.arrived Sim.off_by_six)) = Returns tt
  /\ MplCanvas.colors (snd (color_current_point (Sim.arrived Sim.off_by_six))).(canvas)
     = [GREEN; BLUE].
Proof.
  destruct (color_current_point_marks (Sim.arrived Sim.off_by_six))
    as (_ & _ & Hmark).
  apply Hmark.
  - simpl. lia.
  - split; [|reflexivity]. split; [reflexivity|]. repeat constructor.
Defined.

End ControlsSim.

(** ** What no event ever does *)

Ltac step_with leaf canvas_leaf :=
  match goal with
  | |- within _ (bind _ _) => apply within_bind; [apply _| |intros ?]
  | |- within _ (try_except _ _) => apply within_try; [apply _| |intros ?]
  | |- within _ (ret _) => apply within_ret, _
  | |- within _ (raise _) => apply within_raise, _
  | |- within _ (lift _) => apply within_lift, _
  | |- within _ get => apply within_get, _
  | |- within _ (modify _) => apply within_modify; leaf
  | |- within _ (WorkspaceGUI.on_canvas _) => canvas_leaf
  | |- within _ (WorkspaceGUI.on_world _) => apply within_on_world; leaf
  | |- within _ (for_each _ _) => apply within_for_each; [apply _|intros ?]
  | |- within _ (if ?b then _ else _) => destruct b
  | |- within _ (match ?x with _ => _ end) => destruct x
  end.

Section Invariants.
Import WorkspaceGUI.
Context {W : Type} `{World W}.

#[local] Instance same_pre' {A} (f : t W -> A) : PreOrder (same f).
Proof. split; unfold same; [by intros st|intros a b c; congruence]. Qed.

#[local] Instance calls_since_pre' ok : PreOrder (calls_since (W := W) ok).
Proof.
  split.
  - intros st. exists []. by rewrite app_nil_r.
  - intros a b c (k1 & H1 & Hk1) (k2 & H2 & Hk2). exists (k1 ++ k2).
    rewrite H2, H1, <- app_assoc. by rewrite forallb_app, Hk1, Hk2.
Qed.

#[local] Instance fixed_setup_pre : PreOrder (fixed_setup (W := W)).
Proof. rel_preorder. Qed.

#[local] Instance grows_pre : PreOrder (grows (W := W)).
Proof.
  split.
  - intros st. exists []. by rewrite app_nil_r.
  - intros a b c [m1 H1] [m2 H2]. exists (m1 ++ m2).
    by rewrite H2, H1, <- app_assoc.
Qed.

#[local] Instance keeps_consistent_pre : PreOrder (keeps_consistent (W := W)).
Proof. split; unfold keeps_consistent; [by intros st|intros a b c; auto]. Qed.

#[local] Instance arm_untouched_pre : PreOrder (arm_untouched (W := W)).
Proof.
  split.
  - intros st. by split.
  - intros a b c [Hab Hab'] [Hbc Hbc']. unfold same in *.
    split; [congruence|]. intros Ha. unfold same.
    rewrite Hbc' by congruence. by apply Hab'.
Qed.

Lemma run_events_within (R : t W -> t W -> Prop) `{!PreOrder R}
    (ok : event -> Prop) :
  (forall ev, ok ev -> within R (handle ev)) ->
  forall evs st, Forall ok evs -> R st (run_events evs st).
Proof.
  intros Hev evs. induction evs as [|ev evs IH]; intros st Hok; [reflexivity|].
  inversion Hok as [|? ? Hok1 Hok2]; subst. simpl.
  etrans; [apply (Hev ev Hok1)|by apply IH].
Qed.

Lemma fixed_setup_handle ev : within fixed_setup (handle (W := W) ev).
Proof.
  destruct ev; frame_unfold;
    repeat step_with ltac:(rel_leaf) ltac:(apply within_on_canvas; rel_leaf).
Qed.

(** X23. No event ever changes what [__init__] set up: after any sequence
    of clicks, ticks and timer firings, whether they returned or raised,
    the pose set is the same list, the connection handle is the same (an
    absent handle is never replaced, a present one never dropped), and the
    recurring timer, the speed and the jog step are as they were. *)
Theorem setup_never_changes (evs : list event) (st : t W) :
  (run_events evs st).(points) = st.(points)
  /\ (run_events evs st).(mc) = st.(mc)
  /\ (run_events evs st).(timer) = st.(timer)
  /\ (run_events evs st).(speed_slider) = st.(speed_slider)
  /\ (run_events evs st).(step_spin) = st.(step_spin).
Proof.
  apply (run_events_within fixed_setup (fun _ => True)).
  - intros ev _. apply fixed_setup_handle.
  - by apply Forall_true.
Qed.

Lemma grows_handle ev : ev <> ClickClearLog -> within grows (handle (W := W) ev).
Proof.
  intros Hev.
  destruct ev; try done; frame_unfold;
    repeat step_with
      ltac:(intros; unfold grows; simpl;
            first [exists []; by rewrite app_nil_r|by eexists])
      ltac:(apply within_on_canvas; intros; exists []; simpl;
            by rewrite app_nil_r).
Qed.

(** X24. The session log only grows: after any sequence of events without
    a click on "Clear Log", every result that was recorded is still there,
    unchanged and in the same order, possibly followed by new ones. *)
Theorem results_append_only (evs : list event) (st : t W) :
  ClickClearLog ∉ evs ->
  exists more, (run_events evs st).(results) = st.(results) ++ more.
Proof.
  intros Hevs.
  apply (run_events_within grows (fun ev => ev <> ClickClearLog)).
  - intros ev Hev. by apply grows_handle.
  - apply Forall_forall. intros ev Hin ->. done.
Qed.

Lemma consistent_on_canvas_call k :
  within keeps_consistent (on_canvas (W := W) (MplCanvas.run_call k)).
Proof.
  intros st [Hwf Hpts]. unfold on_canvas.
  destruct (run_call_wf k (canvas st) Hwf) as (cv' & -> & Hwf' & Hp').
  split; simpl; [done|]. by rewrite Hp'.
Qed.

Lemma keeps_consistent_handle ev : within keeps_consistent (handle (W := W) ev).
Proof.
  destruct ev; frame_unfold;
    repeat step_with
      ltac:(intros; intro Hc; exact Hc)
      ltac:(idtac;
            match goal with
            | |- within _ (on_canvas (MplCanvas.highlight_point ?i)) =>
                apply (consistent_on_canvas_call (MplCanvas.HighlightPoint i))
            | |- within _ (on_canvas (MplCanvas.update_point_color ?i ?c)) =>
                apply (consistent_on_canvas_call (MplCanvas.UpdatePointColor i c))
            end).
Qed.

Lemma init_consistent (w : W) (st : t W) :
  init w = Returns st -> consistent st /\ st.(points) = spec_grid.
Proof.
  unfold init. destruct (connect w) as [conn w']. rewrite default_grid_returns.
  pose proof spec_grid_drawable as Hd. revert Hd.
  generalize spec_grid. intros pts Hd. rewrite obind_returns.
  destruct (init_returns pts Hd) as (cv & Hcv & Hwf).
  pose proof (init_wf pts cv Hcv) as [_ Hpts].
  rewrite Hcv, obind_returns.
  destruct (0 <? length pts)%nat.
  - unfold on_canvas. cbn [canvas].
    match goal with |- context [MplCanvas.highlight_point ?i cv] =>
      destruct (run_call_wf (MplCanvas.HighlightPoint i) cv Hwf)
        as (cv' & Hrun & Hwf' & Hp')
    end.
    change (MplCanvas.run_call (MplCanvas.HighlightPoint ?j) cv)
      with (MplCanvas.highlight_point j cv) in Hrun.
    rewrite Hrun. intros [= <-]. split; [|done].
    split; simpl; [done|]. by rewrite Hp'.
  - unfold ret. intros [= <-]. by split.
Qed.

(** X25. From startup on the canvas stays consistent with the window: after
    [__init__] and any sequence of events, whether they returned or raised,
    the canvas still draws the 676 poses of the window and its colour array
    has exactly one entry per pose, so no recolouring can fall out of
    range. *)
Theorem canvas_stays_consistent (w : W) (st0 : t W) (evs : list event) :
  init w = Returns st0 ->
  MplCanvas.points (run_events evs st0).(canvas) = (run_events evs st0).(points)
  /\ (run_events evs st0).(points) = spec_grid
  /\ length (MplCanvas.colors (run_events evs st0).(canvas)) = 676%nat.
Proof.
  intros Hinit. destruct (init_consistent w st0 Hinit) as [Hc Hpts].
  assert (Hinv : consistent (run_events evs st0)).
  { apply (run_events_within keeps_consistent (fun _ => True)); [|by apply Forall_true|done].
    intros ev _. apply keeps_consistent_handle. }
  pose proof (run_events_within fixed_setup (fun _ => True)
                (fun ev _ => fixed_setup_handle ev) evs st0
                (Forall_true _ _ (fun _ => I))) as [Hsame _].
  unfold same in Hsame.
  destruct Hinv as [[Hlen _] Hcp].
  split; [done|]. split; [by rewrite Hsame|].
  by rewrite Hlen, Hcp, Hsame, Hpts.
Qed.

Lemma arm_untouched_mc_call {A} k (p : Prog W A) :
  within arm_untouched (mc_call k p).
Proof.
  intros st. destruct (mc st) as [h|] eqn:Hmc.
  - rewrite (mc_call_present _ _ _ h Hmc). split; [done|].
    intros Hnone. congruence.
  - rewrite (mc_call_absent _ _ _ Hmc). by split.
Qed.

Lemma arm_untouched_clear_stop : within arm_untouched (clear_stop (W := W)).
Proof.
  intros st. destruct (stopped st) eqn:Hs.
  - destruct (mc st) as [h|] eqn:Hmc.
    + split; [apply (fixed_setup_handle ClickReset st)|]. intros Hnone. congruence.
    + assert (Hreset : clear_stop st
                       = (Raises AttributeError,
                          set_stopped false
                            (snd (print (Msg "[RESET] Clearing emergency stop..." [])
                                    st)))).
      { unfold clear_stop, bind at 1, get at 1. rewrite Hs.
        unfold bind at 1, print at 1, modify at 1. unfold bind at 1, modify at 1.
        unfold bind at 1. by rewrite mc_call_absent. }
      rewrite Hreset. by split.
  - assert (Hnoop : clear_stop st = (Returns tt, st))
      by (unfold clear_stop, bind, get; by rewrite Hs).
    rewrite Hnoop. by split.
Qed.

Ltac arm_auto :=
  unfold handle, run_callback, check_robot_status, evaluate_point,
    update_live_pose, set_pose_label, singleShot, export_log, clear_log,
    open_w, writerow, jog_axis, go_home, emergency_stop, toggle_pause,
    start_exploration, color_current_point, skip_point, move_to_next_point,
    attempt_stop_api, safe_mc_is_moving, safe_mc_get_coords,
    safe_mc_send_coords, log, print;
  repeat first
    [ apply arm_untouched_mc_call
    | apply arm_untouched_clear_stop
    | step_with ltac:(intros; split; [reflexivity|intros _; reflexivity])
                ltac:(apply within_on_canvas; intros; split;
                      [reflexivity|intros _; reflexivity]) ].

Lemma arm_untouched_handle ev : within arm_untouched (handle (W := W) ev).
Proof. destruct ev; arm_auto. Qed.

(** X26. With no connection handle, no event ever reaches the arm: after
    any sequence of clicks, ticks and timer firings the record of calls
    made on the arm is exactly what it was, and the handle is still
    absent. *)
Theorem no_handle_no_call (evs : list event) (st : t W) :
  st.(mc) = None ->
  (run_events evs st).(trace) = st.(trace)
  /\ (run_events evs st).(mc) = None.
Proof.
  intros Hmc.
  destruct (run_events_within arm_untouched (fun _ => True)
              (fun ev _ => arm_untouched_handle ev) evs st) as [Hsame Htrace];
    [by apply Forall_true|].
  unfold same in *. split; [by apply Htrace|congruence].
Qed.

Lemma no_move_handle ev :
  ev = Tick \/ ev = ClickExport \/ ev = ClickClearLog \/ ev = ClickColor ->
  within (calls_since (fun k => negb (is_move k))) (handle (W := W) ev).
Proof.
  intros [->|[->|[->| ->]]]; frame_unfold;
    repeat step_with
      ltac:(intros; simpl;
            first [exists []; by rewrite app_nil_r
                  |eexists [_]; split; reflexivity])
      ltac:(apply within_on_canvas; intros; exists []; simpl;
            by rewrite app_nil_r).
Qed.

(** X27. A tick never commands a move: whatever the state and whatever the
    arm answers, the calls a run of [check_robot_status] makes on the arm
    are queries only, never [send_coords] or [send_angles]; the next move
    is always left to the one-shot timer.  The same holds for exporting,
    clearing the log and colouring the current point. *)
Theorem tick_never_moves (ev : event) (st : t W) :
  ev = Tick \/ ev = ClickExport \/ ev = ClickClearLog \/ ev = ClickColor ->
  exists calls,
    (snd (handle ev st)).(trace) = st.(trace) ++ calls
    /\ forallb (fun k => negb (is_move k)) calls = true.
Proof. intros Hev. by apply no_move_handle. Qed.

End Invariants.

Section InvariantsSim.
Import WorkspaceGUI.

Lemma results_append_only_witness :
  exists more,
    (run_events [Tick; ClickSkip; ClickExport] (Sim.arrived Sim.off_by_six)).(results)
    = (Sim.arrived Sim.off_by_six).(results) ++ more.
Proof.
  apply (results_append_only [Tick; ClickSkip; ClickExport]).
  rewrite !not_elem_of_cons. repeat split; try discriminate.
  apply not_elem_of_nil.
Defined.

Lemma canvas_stays_consistent_witness :
  exists st0,
    init Sim.unplugged = Returns st0
    /\ length (MplCanvas.colors
                 (run_events [ClickStart; Tick; ClickColor] st0).(canvas))
       = 676%nat.
Proof.
  destruct (init_without_connection Sim.unplugged Sim.unplugged (HardwareError 0))
    as (st0 & Hinit & _); [reflexivity|].
  exists st0. split; [exact Hinit|].
  by destruct (canvas_stays_consistent Sim.unplugged st0
                 [ClickStart; Tick; ClickColor] Hinit) as (_ & _ & Hlen).
Defined.

Lemma no_handle_no_call_witness :
  (run_events [ClickStart; ClickHome; ClickStop; ClickReset; Tick]
     (Sim.window None Sim.unplugged)).(trace) = [].
Proof.
  apply (no_handle_no_call [ClickStart; ClickHome; ClickStop; ClickReset; Tick]
           (Sim.window None Sim.unplugged)).
  reflexivity.
Defined.

Lemma tick_never_moves_witness :
  exists calls,
    (snd (handle Tick (Sim.arrived Sim.off_by_six))).(trace)
    = (Sim.arrived Sim.off_by_six).(trace) ++ calls
    /\ forallb (fun k => negb (is_move k)) calls = true.
Proof. apply (tick_never_moves Tick). by left. Defined.

End InvariantsSim.

(** ** Export failures and unreadable poses *)

Section Failures.
Import WorkspaceGUI.
Context {W : Type} `{World W}.

Lemma total_export_log : total (export_log (W := W)).
Proof.
  unfold export_log. apply total_bind; [apply total_get|intros st].
  destruct (length (results st) =? 0)%nat.
  - unfold log. repeat (first [apply total_bind; [|intros ?]|apply total_get
                              |apply total_modify]).
  - apply total_try. intros e. unfold log.
    repeat (first [apply total_bind; [|intros ?]|apply total_get
                  |apply total_modify]).
Qed.

(** X28. [export_log] never raises, whatever the results hold and whatever
    the file system does.  When there are results and [open] fails, no
    file is created or changed and the failure is logged with the
    exception; nothing else of the window changes. *)
Theorem export_log_failure (st : t W) :
  (exists st', export_log st = (Returns tt, st'))
  /\ (forall e,
        st.(results) <> [] ->
        open_fault (export_name st) st.(world) = Some e ->
        export_log st = log (Msg "Failed to export log: {}" [AExn e]) st
        /\ (snd (export_log st)).(files) = st.(files)
        /\ (snd (export_log st)).(results) = st.(results)).
Proof.
  split.
  - destruct (total_export_log st) as [[] Hret].
    destruct (export_log st) as [o st']. simpl in Hret. subst o. by exists st'.
  - intros e Hres Hopen.
    assert (Hexp : export_log st
                   = log (Msg "Failed to export log: {}" [AExn e]) st).
    { unfold export_log, bind at 1, get at 1.
      destruct (results st) as [|r rs]; [done|].
      change (length (r :: rs) =? 0)%nat with false. cbv iota.
      fold (export_name st). unfold try_except.
      unfold bind at 1, open_w, bind at 1, get at 1. by rewrite Hopen. }
    rewrite Hexp, log_appends. by simpl.
Qed.

(** X29. When the final coordinates cannot be read (no handle, a query
    that raises, or [None]), the evaluation of the point at the cursor of a
    consistent window returns without raising: it logs
    "Could not read final coords for evaluation.", colours the marker at
    the cursor gray, and records one result for the target with no reached
    pose, no error and [pass] false. *)
Theorem evaluate_point_unreadable (st : t W) target :
  fst (safe_mc_get_coords st) = Returns None ->
  st.(points) !! st.(current_index) = Some target ->
  consistent st ->
  exists st',
    evaluate_point st = (Returns tt, st')
    /\ st'.(results)
       = st.(results)
         ++ [mkResult target None None false (utcnow_isoformat st'.(world))]
    /\ MplCanvas.colors st'.(canvas)
       = <[st.(current_index) := GRAY]> (MplCanvas.colors st.(canvas))
    /\ st'.(status_box)
       = st.(status_box)
         ++ [(strftime "%H:%M:%S" st'.(world),
              Msg "Could not read final coords for evaluation." [])]
    /\ st'.(current_index) = st.(current_index).
Proof.
  intros Hread Htarget [Hwf Hpts].
  pose proof (lookup_lt_Some _ _ _ Htarget) as Hlt.
  assert (Hs1 : exists s1,
    safe_mc_get_coords st = (Returns None, s1)
    /\ points s1 = points st /\ current_index s1 = current_index st
    /\ canvas s1 = canvas st /\ results s1 = results st
    /\ status_box s1 = status_box st).
  { destruct (mc st) as [h|] eqn:Hmc.
    - rewrite (safe_mc_get_coords_present st h Hmc) in Hread |- *.
      simpl in Hread. injection Hread as ->. by eexists.
    - rewrite (safe_mc_get_coords_absent st Hmc). by eexists. }
  destruct Hs1 as (s1 & Hget & Hp1 & Hi1 & Hc1 & Hr1 & Hb1).
  unfold evaluate_point, bind at 1. rewrite Hget.
  unfold bind at 1, get at 1. unfold bind at 1, lift at 1, Py.getitem.
  rewrite Hp1, Hi1, Htarget.
  unfold bind at 1. rewrite log_appends.
  unfold bind at 1, on_canvas. cbn [canvas set_console set_status_box].
  assert (Hr : MplCanvas.in_range (Z.of_nat (current_index st)) (canvas s1)
               = true).
  { unfold MplCanvas.in_range. rewrite Hc1, Hpts.
    apply andb_true_intro. split; lia. }
  rewrite <- Hc1 in Hwf.
  destruct (update_point_color_in_range (Z.of_nat (current_index st)) GRAY
              (canvas s1) Hwf Hr) as [sc ->].
  unfold bind, get, modify. eexists. split; [reflexivity|]. simpl.
  by rewrite Hr1, Hb1, Hi1, Hc1, Nat2Z.id.
Qed.

End Failures.

Section FailuresSim.
Import WorkspaceGUI.

Lemma export_log_failure_witness :
  export_log (set_results Sim.two_results (Sim.window None Sim.read_only_disk))
  = log (Msg "Failed to export log: {}" [AExn (OSError 13)])
      (set_results Sim.two_results (Sim.window None Sim.read_only_disk)).
Proof.
  apply (proj2 (export_log_failure
                  (set_results Sim.two_results
                     (Sim.window None Sim.read_only_disk))) (OSError 13)).
  - discriminate.
  - reflexivity.
Defined.

Lemma evaluate_point_unreadable_witness :
  exists st',
    evaluate_point (Sim.window None Sim.unplugged) = (Returns tt, st')
    /\ MplCanvas.colors st'.(canvas) = [GRAY; BLUE]
    /\ length st'.(results) = 1%nat.
Proof.
  destruct (evaluate_point_unreadable (Sim.window None Sim.unplugged)
              [Py.Int 0; Py.Int 0; Py.Int 100;
               Py.Float 180.0; Py.Float 0.0; Py.Float 0.0])
    as (st' & Heval & Hres & Hcol & _); try reflexivity.
  - split; [|reflexivity]. split; [reflexivity|]. repeat constructor.
  - exists st'. split; [exact Heval|]. split; [exact Hcol|]. by rewrite Hres.
Defined.

End FailuresSim.

(** ** The polar generator as a filtered grid *)

Section PolarGridProps.
Import PointGenerator.
Variable lm : Libm.

Hypothesis sqrt_defined :
  forall x y z, (pow lm x 2 + pow lm y 2 + pow lm z 2 <? 0)%float = false.

Lemma sample_emits z radius i points :
  sample lm z radius i points = (Returns tt, points ++ emitted lm z radius i).
Proof.
  unfold sample, emitted. destruct (sample_xy lm radius i) as [x y].
  prog_unfold.
  destruct (distance lm x y z) as [dist|e] eqn:Hd.
  - destruct (dist <=? MAX_REACH)%float; [done|by rewrite app_nil_r].
  - unfold distance, math_sqrt in Hd. by rewrite sqrt_defined in Hd.
Qed.

Lemma samples_emit z radius idx points :
  for_each idx (sample lm z radius) points
  = (Returns tt, points ++ (idx ≫= emitted lm z radius)).
Proof.
  revert points. induction idx as [|i idx IH]; intros points.
  - simpl. by rewrite app_nil_r.
  - simpl for_each. unfold bind. rewrite sample_emits, IH.
    by rewrite <- app_assoc.
Qed.

Lemma angle_loop_emits z radius points :
  angle_loop lm z radius points
  = (Returns tt,
     points ++ ([0; 1; 2; 3; 4; 5; 6; 7; 8; 9; 10; 11] ≫= emitted lm z radius)).
Proof.
  unfold angle_loop, bind, lift. rewrite angle_indices. apply samples_emit.
Qed.

Lemma radius_after_succ k radius :
  radius_after (S k) radius = radius_after k (radius + RADIUS_STEP)%float.
Proof. reflexivity. Qed.

Lemma radius_loop_emits k fuel z radius points :
  conditions_hold k radius = true ->
  radius_loop lm (k + fuel) z radius points
  = radius_loop lm fuel z (radius_after k radius)
      (points
       ++ (map (fun j => radius_after j radius) (seq 0 k)
           ≫= fun r => [0; 1; 2; 3; 4; 5; 6; 7; 8; 9; 10; 11] ≫= emitted lm z r)).
Proof.
  revert radius points. induction k as [|k IH]; intros radius points Hk.
  - simpl. by rewrite app_nil_r.
  - simpl in Hk. apply andb_prop in Hk as [Hle Hk].
    change (S k + fuel)%nat with (S (k + fuel)).
    change (radius_loop lm (S (k + fuel)) z radius points)
      with (if (radius <=? MAX_RADIUS)%float then
              match angle_loop lm z radius points with
              | (Returns _, points') =>
                  radius_loop lm (k + fuel) z (radius + RADIUS_STEP)%float points'
              | (Raises e, points') => Some (Raises e, points')
              end
            else Some (Returns tt, points)).
    rewrite Hle, angle_loop_emits, IH by done.
    rewrite radius_after_succ. f_equal.
    rewrite <- app_assoc. f_equal.
    change (seq 0 (S k)) with (0%nat :: seq 1 k).
    rewrite <- fmap_S_seq. simpl. f_equal.
    by rewrite <- list_fmap_compose.
Qed.

Lemma layer_emits z points :
  radius_loop lm 11 z RADIUS_STEP points
  = Some (Returns tt,
          points
          ++ (RADII ≫= fun r =>
                [0; 1; 2; 3; 4; 5; 6; 7; 8; 9; 10; 11] ≫= emitted lm z r)).
Proof.
  change 11%nat with (10 + 1)%nat.
  by rewrite (radius_loop_emits 10 1 z RADIUS_STEP points eq_refl).
Qed.

Lemma layers_emit fuel layers points :
  (11 <= fuel)%nat ->
  layer_loop lm fuel layers points
  = Some (Returns tt,
          points
          ++ (layers ≫= fun z =>
                RADII ≫= fun r =>
                  [0; 1; 2; 3; 4; 5; 6; 7; 8; 9; 10; 11] ≫= emitted lm z r)).
Proof.
  intros Hfuel. revert points. induction layers as [|z layers IH]; intros points.
  - simpl. by rewrite app_nil_r.
  - simpl layer_loop.
    rewrite (radius_loop_fuel_le lm 11 fuel _ _ _ _ Hfuel (layer_emits z points)).
    rewrite IH. by rewrite <- app_assoc.
Qed.

Lemma length_bind_le {A B} (f : A -> list B) (l : list A) n :
  (forall a, (length (f a) <= n)%nat) -> (length (l ≫= f) <= length l * n)%nat.
Proof.
  intros Hf. induction l as [|a l IH]; [done|].
  change ((a :: l) ≫= f) with (f a ++ (l ≫= f)).
  rewrite length_app. specialize (Hf a). simpl. lia.
Qed.

Lemma emitted_shape z radius i p :
  p ∈ emitted lm z radius i ->
  exists x y,
    p = [Py.Float x; Py.Float y; Py.Float z;
         Py.Float 180.0; Py.Float 0.0; Py.Float 0.0]
    /\ (x, y) = sample_xy lm radius i.
Proof.
  unfold emitted. destruct (sample_xy lm radius i) as [x y].
  destruct (distance lm x y z) as [dist|e]; [|by intros ?%elem_of_nil].
  destruct (dist <=? MAX_REACH)%float; [|by intros ?%elem_of_nil].
  intros ->%list_elem_of_singleton. by exists x, y.
Qed.

(** X30. Given enough fuel, the polar generator returns exactly the polar
    grid with the samples out of reach left out, in the order layer
    (40, 100, 150, 200), then radius (20, 40, ..., 200), then angle index
    (0 to 11); a sample that fails the distance test is skipped, not
    replaced.  So it returns at most 4 x 10 x 12 = 480 poses, each made of
    the rounded x and y of its sample, the height of its layer and the
    orientation (180.0, 0.0, 0.0). *)
Theorem generate_points_is_polar_grid (fuel : nat) :
  (11 <= fuel)%nat ->
  generate_points lm fuel = Some (Returns (polar_grid lm))
  /\ RADII = [20; 40; 60; 80; 100; 120; 140; 160; 180; 200]%float
  /\ (length (polar_grid lm) <= 480)%nat
  /\ (forall p, p ∈ polar_grid lm ->
        exists z radius i x y,
          z ∈ Z_LAYERS /\ radius ∈ RADII /\ 0 <= i < 12
          /\ (x, y) = sample_xy lm radius i
          /\ p = [Py.Float x; Py.Float y; Py.Float z;
                  Py.Float 180.0; Py.Float 0.0; Py.Float 0.0]).
Proof.
  intros Hfuel. split.
  - unfold generate_points. by rewrite layers_emit.
  - split; [reflexivity|]. split.
    + unfold polar_grid.
      etrans; [apply (length_bind_le _ _ 120)|reflexivity].
      intros z. etrans; [apply (length_bind_le _ _ 12)|reflexivity].
      intros r. etrans; [apply (length_bind_le _ _ 1)|reflexivity].
      intros i. unfold emitted. destruct (sample_xy lm r i) as [x y].
      destruct (distance lm x y z) as [dist|e]; [|simpl; lia].
      destruct (dist <=? MAX_REACH)%float; simpl; lia.
    + intros p Hp. unfold polar_grid in Hp.
      apply list_elem_of_bind in Hp as (z & Hp & Hz).
      apply list_elem_of_bind in Hp as (r & Hp & Hr).
      apply list_elem_of_bind in Hp as (i & Hp & Hi).
      apply emitted_shape in Hp as (x & y & -> & Hxy).
      exists z, r, i, x, y. repeat split; try done.
      * rewrite !elem_of_cons in Hi. rewrite elem_of_nil in Hi. lia.
      * rewrite !elem_of_cons in Hi. rewrite elem_of_nil in Hi. lia.
Qed.

End PolarGridProps.

Lemma generate_points_is_polar_grid_witness :
  PointGenerator.generate_points PointGenerator.sample_libm 11
  = Some (Returns (PointGenerator.polar_grid PointGenerator.sample_libm)).
Proof.
  apply (generate_points_is_polar_grid PointGenerator.sample_libm).
  - intros x y z. apply squares_not_negative.
  - lia.
Defined.
